(** * The training notebook of the CNN-RNN image-captioning project

    A shallow embedding of the orchestration code of [2_Training.ipynb]:
    the training loop (cell 8), the validation inference pass (cell 13) and the
    BLEU aggregation called in cell 17; then the step count of cell 5, the
    reloading of the weights in cell 12 and the grouping of the reference
    captions in cell 14.

    The notebook is glue around PyTorch, NumPy and the project's own helper
    modules.  Everything the notebook's own Python does is modelled concretely:
    name binding and lookup in the kernel namespace, the two nested [for]
    loops, [%] on integers, string formatting, the log file object with its
    buffer, the [./models] directory, standard output.  The framework calls
    are the fields of the class [Framework]; they thread an abstract library
    state and, where PyTorch can raise, return an exception instead of a
    value. *)

From stdpp Require Import gmap strings list pretty.
From Stdlib Require Import ZArith QArith.
From Stdlib Require Floats.SpecFloat.

Open Scope Z_scope.

(** ** Python values, exceptions and outcomes *)

(** The objects the cells bind to names.  Objects whose content the notebook
    reads back only through the binding just made are carried by the Rocq
    variable of the embedding; the namespace then records [VObj]. *)
Inductive value :=
| VInt (n : Z)
| VStr (s : string)
| VBool (b : bool)
| VIndices (idx : list Z)      (* a Python list of dataset indices *)
| VSampler (idx : list Z)      (* data.sampler.SubsetRandomSampler(indices=idx) *)
| VFile (path : string)        (* the object returned by open(path, "w") *)
| VObj (descr : string).       (* a module, class, tensor, model, ... *)

Inductive exn :=
| NameError (name : string)
| ZeroDivisionError
| ValueError (msg : string)
| LibraryError (msg : string). (* raised inside torch / the data loader *)

Inductive outcome (A : Type) :=
| Ret (a : A)
| Raise (e : exn).
Arguments Ret {A} a.
Arguments Raise {A} e.

(** ** The framework interface *)

(** What the notebook calls in PyTorch, NumPy and the project's modules
    [data_loader], [model] and [nlp_utils], none of which is part of the
    notebook.  The calls that run models, fetch batches or reshape tensors
    may raise and return an [outcome]; the others are taken to return. *)
Class Framework := {
  tensor : Type;
  pyfloat : Type;
  state_dict : Type;
  vocabulary : Type;
  (* hidden state of the libraries: random generator, parameters, gradients,
     optimizer moments, the dataset *)
  lib : Type;
  (* data_loader.dataset.get_train_indices() *)
  get_train_indices : lib → list Z * lib;
  (* next(iter(data_loader)), under the sampler installed in
     data_loader.batch_sampler.sampler *)
  next_batch : value → lib → outcome (tensor * tensor) * lib;
  (* t.to(device) *)
  to_device : tensor → tensor;
  (* decoder.zero_grad(), encoder.zero_grad() *)
  decoder_zero_grad : lib → lib;
  encoder_zero_grad : lib → lib;
  (* encoder(images), decoder(features, captions) *)
  encoder_forward : tensor → lib → outcome tensor * lib;
  decoder_forward : tensor → tensor → lib → outcome tensor * lib;
  (* t.view(shape); -1 stands for the inferred dimension *)
  view : tensor → list Z → outcome tensor;
  (* criterion(input, target) *)
  criterion : tensor → tensor → lib → outcome tensor * lib;
  (* loss.backward(), optimizer.step() *)
  backward : tensor → lib → outcome unit * lib;
  optimizer_step : lib → outcome unit * lib;
  (* loss.item(), np.exp(x), format(x, ".4f") *)
  item : tensor → pyfloat;
  np_exp : pyfloat → pyfloat;
  format_4f : pyfloat → string;
  (* decoder.state_dict(), encoder.state_dict() *)
  decoder_state_dict : lib → state_dict;
  encoder_state_dict : lib → state_dict;
  (* t.unsqueeze(dim) *)
  unsqueeze : tensor → Z → tensor;
  (* decoder.sample(features): the token IDs of the generated caption *)
  decoder_sample : tensor → lib → outcome (list Z) * lib;
  (* img_id.item() *)
  item_int : tensor → Z;
  (* val_data_loader.dataset.vocab.idx2word *)
  idx2word : vocabulary;
  (* nlp_utils.clean_sentence(output, idx2word) *)
  clean_sentence : list Z → vocabulary → string;
}.

(** ** Hyperparameters (cells 3 and 5) *)

Record config := {
  batch_size : Z;
  vocab_threshold : Z;
  vocab_from_file : bool;
  embed_size : Z;
  hidden_size : Z;
  num_epochs : Z;
  save_every : Z;
  print_every : Z;
  log_file : string;
  cocoapi_dir : string;
  vocab_size : Z;
  total_step : Z;
}.

(** The values the notebook sets; [vocab_size] and [total_step] are the ones
    its recorded outputs show (cells 12 and 6). *)
Definition hyperparameters : config := {|
  batch_size := 128;
  vocab_threshold := 5;
  vocab_from_file := true;
  embed_size := 256;
  hidden_size := 512;
  num_epochs := 3;
  save_every := 1;
  print_every := 20;
  log_file := "training_log.txt";
  cocoapi_dir := "path/to/cocoapi/dir";
  vocab_size := 9955;
  total_step := 3236;
|}.

(** The kernel namespace after cells 2 to 6 have run in a fresh kernel: every
    name those cells import or assign.  (IPython's own bookkeeping names, In,
    Out, _ and the like, are left out.) *)
Definition notebook_globals (c : config) : gmap string value :=
  list_to_map [
    (* cell 2 *)
    ("math", VObj "module"); ("EncoderCNN", VObj "class");
    ("DecoderRNN", VObj "class"); ("get_loader", VObj "function");
    ("val_get_loader", VObj "function"); ("COCO", VObj "class");
    ("transforms", VObj "module"); ("tqdm", VObj "class");
    ("nn", VObj "module"); ("torch", VObj "module"); ("data", VObj "module");
    ("defaultdict", VObj "class"); ("json", VObj "module");
    ("os", VObj "module"); ("sys", VObj "module"); ("np", VObj "module");
    ("clean_sentence", VObj "function"); ("bleu_score", VObj "function");
    (* cell 3 *)
    ("batch_size", VInt (batch_size c));
    ("vocab_threshold", VInt (vocab_threshold c));
    ("vocab_from_file", VBool (vocab_from_file c));
    ("embed_size", VInt (embed_size c));
    ("hidden_size", VInt (hidden_size c));
    ("num_epochs", VInt (num_epochs c));
    ("save_every", VInt (save_every c));
    ("print_every", VInt (print_every c));
    ("log_file", VStr (log_file c));
    ("cocoapi_dir", VStr (cocoapi_dir c));
    ("transform_train", VObj "Compose");
    (* cell 4 *)
    ("data_loader", VObj "DataLoader");
    (* cell 5 *)
    ("vocab_size", VInt (vocab_size c));
    ("encoder", VObj "EncoderCNN"); ("decoder", VObj "DecoderRNN");
    ("device", VObj "device"); ("criterion", VObj "CrossEntropyLoss");
    ("params", VObj "list"); ("optimizer", VObj "Adam");
    ("total_step", VInt (total_step c))
  ].

(** ** String formatting *)

(** f"Epoch [{epoch}/{num_epochs}], Step [{i_step}/{total_step}], "
    f"Loss: {..:.4f}, Perplexity: {..:.4f}", with the two formatted numbers
    as strings. *)
Definition stats_template (epoch n_epochs i_step n_steps : Z)
    (loss_text perplexity_text : string) : string :=
  "Epoch [" +:+ pretty epoch +:+ "/" +:+ pretty n_epochs +:+ "], Step [" +:+
  pretty i_step +:+ "/" +:+ pretty n_steps +:+ "], " +:+
  "Loss: " +:+ loss_text +:+ ", Perplexity: " +:+ perplexity_text.

(** The line feed of "\n" and the carriage return of "\r". *)
Definition LF : string := String (Ascii.ascii_of_nat 10) EmptyString.
Definition CR : string := String (Ascii.ascii_of_nat 13) EmptyString.

(** os.path.join(dir, name) for a relative [name], on a POSIX system. *)
Definition path_join (dir name : string) : string := dir +:+ "/" +:+ name.

(** os.path.join("./models", "decoder-%d.pkl" % epoch), and the encoder's. *)
Definition decoder_path (epoch : Z) : string :=
  path_join "./models" ("decoder-" +:+ pretty epoch +:+ ".pkl").
Definition encoder_path (epoch : Z) : string :=
  path_join "./models" ("encoder-" +:+ pretty epoch +:+ ".pkl").

Section Notebook.
Context {F : Framework}.

(** ** Observable events, in the order they happen *)

Inductive event :=
| EvOpen (path : string)                (* open(path, "w") *)
| EvWrite (s : string)                  (* f.write(s) *)
| EvFlush                               (* f.flush() *)
| EvClose                               (* f.close() *)
| EvPrint (s : string)                  (* print(s) *)
| EvGetIndices (idx : list Z)           (* get_train_indices() returned idx *)
| EvSetSampler (v : value)              (* batch_sampler.sampler = v *)
| EvNextBatch (sampler : value)         (* next(iter(data_loader)) *)
| EvZeroGrad
| EvEncoder (images : tensor)           (* encoder(images) *)
| EvDecoder (features captions : tensor)
| EvCriterion (input target : tensor)
| EvBackward (loss : tensor)
| EvOptimizerStep
| EvSave (path : string) (sd : state_dict) (* torch.save(sd, path) *)
| EvSample (features : tensor).         (* decoder.sample(features) *)

(** ** The world the notebook runs in *)

Record file_object := {
  fo_path : string;
  fo_buffer : string;    (* written, not yet flushed *)
  fo_closed : bool;
}.

Record world := {
  globals : gmap string value;           (* the kernel namespace *)
  loader_sampler : value;                (* data_loader.batch_sampler.sampler *)
  libst : lib;
  fobj : option file_object;             (* the file object bound to f *)
  files : gmap string string;            (* text files on disk *)
  models : gmap string state_dict;       (* files written by torch.save *)
  pred_result : gmap Z (list string);    (* the dict bound to pred_result *)
  stdout : list string;
  trace : list event;
}.

Definition set_globals (g : gmap string value) (w : world) : world :=
  {| globals := g; loader_sampler := loader_sampler w; libst := libst w;
     fobj := fobj w; files := files w; models := models w;
     pred_result := pred_result w; stdout := stdout w; trace := trace w |}.
Definition set_loader_sampler (v : value) (w : world) : world :=
  {| globals := globals w; loader_sampler := v; libst := libst w;
     fobj := fobj w; files := files w; models := models w;
     pred_result := pred_result w; stdout := stdout w; trace := trace w |}.
Definition set_libst (l : lib) (w : world) : world :=
  {| globals := globals w; loader_sampler := loader_sampler w; libst := l;
     fobj := fobj w; files := files w; models := models w;
     pred_result := pred_result w; stdout := stdout w; trace := trace w |}.
Definition set_fobj (o : option file_object) (w : world) : world :=
  {| globals := globals w; loader_sampler := loader_sampler w; libst := libst w;
     fobj := o; files := files w; models := models w;
     pred_result := pred_result w; stdout := stdout w; trace := trace w |}.
Definition set_files (fs : gmap string string) (w : world) : world :=
  {| globals := globals w; loader_sampler := loader_sampler w; libst := libst w;
     fobj := fobj w; files := fs; models := models w;
     pred_result := pred_result w; stdout := stdout w; trace := trace w |}.
Definition set_models (ms : gmap string state_dict) (w : world) : world :=
  {| globals := globals w; loader_sampler := loader_sampler w; libst := libst w;
     fobj := fobj w; files := files w; models := ms;
     pred_result := pred_result w; stdout := stdout w; trace := trace w |}.
Definition set_pred_result (m : gmap Z (list string)) (w : world) : world :=
  {| globals := globals w; loader_sampler := loader_sampler w; libst := libst w;
     fobj := fobj w; files := files w; models := models w;
     pred_result := m; stdout := stdout w; trace := trace w |}.
Definition set_stdout (out : list string) (w : world) : world :=
  {| globals := globals w; loader_sampler := loader_sampler w; libst := libst w;
     fobj := fobj w; files := files w; models := models w;
     pred_result := pred_result w; stdout := out; trace := trace w |}.
Definition set_trace (t : list event) (w : world) : world :=
  {| globals := globals w; loader_sampler := loader_sampler w; libst := libst w;
     fobj := fobj w; files := files w; models := models w;
     pred_result := pred_result w; stdout := stdout w; trace := t |}.

(** ** A state and exception monad *)

Definition M (A : Type) : Type := world → outcome A * world.

Definition ret {A} (a : A) : M A := λ w, (Ret a, w).
Definition raise {A} (e : exn) : M A := λ w, (Raise e, w).
Definition bind {A B} (m : M A) (k : A → M B) : M B :=
  λ w, match m w with
       | (Ret a, w') => k a w'
       | (Raise e, w') => (Raise e, w')
       end.

Notation "'let!' x ':=' m 'in' k" := (bind m (λ x, k))
  (at level 10, x pattern, m at level 100, k at level 200).
Notation "m '>>' k" := (bind m (λ _, k))
  (at level 60, right associativity).

Definition emit (e : event) : M unit :=
  λ w, (Ret tt, set_trace (trace w ++ [e]) w).

(** [x = v] at cell level. *)
Definition assign (x : string) (v : value) : M unit :=
  λ w, (Ret tt, set_globals (<[x := v]> (globals w)) w).

(** Reading the name [x].  (Python falls back on the builtins module before
    it raises; the only name read this way is not a builtin.) *)
Definition name (x : string) : M value :=
  λ w, match globals w !! x with
       | Some v => (Ret v, w)
       | None => (Raise (NameError x), w)
       end.

(** A library call that returns. *)
Definition call {A} (op : lib → A * lib) : M A :=
  λ w, let '(a, l) := op (libst w) in (Ret a, set_libst l w).

(** A library call that may raise. *)
Definition try_call {A} (op : lib → outcome A * lib) : M A :=
  λ w, let '(o, l) := op (libst w) in (o, set_libst l w).

Definition lift {A} (o : outcome A) : M A := λ w, (o, w).

(** [a % b] on Python integers: the sign of the result follows [b]. *)
Definition py_mod (a b : Z) : M Z :=
  if decide (b = 0) then raise ZeroDivisionError else ret (a `mod` b).

(** [range(lo, hi)]: empty when [hi <= lo]. *)
Definition py_range (lo hi : Z) : list Z := seqZ lo (hi - lo).

(** [for x in xs: body]; an exception leaves the loop. *)
Fixpoint for_each {A} (xs : list A) (body : A → M unit) : M unit :=
  match xs with
  | [] => ret tt
  | x :: xs' => body x >> for_each xs' body
  end.

(** ** The log file object *)

(** f = open(path, "w"): the file is created or truncated.  (A file object
    bound to f before is dropped; the notebook flushes after every write, so
    such an object has nothing left to write.) *)
Definition py_open (path : string) : M unit :=
  emit (EvOpen path) >>
  (λ w, (Ret tt,
         set_fobj (Some {| fo_path := path; fo_buffer := ""; fo_closed := false |})
           (set_files (<[path := ""]> (files w)) w))) >>
  assign "f" (VFile path).

Definition flush_to_disk (fo : file_object) (fs : gmap string string)
    : gmap string string :=
  <[fo_path fo := default "" (fs !! fo_path fo) +:+ fo_buffer fo]> fs.

Definition with_file {A} (k : file_object → M A) : M A :=
  λ w, match fobj w with
       | None => (Raise (NameError "f"), w)
       | Some fo =>
         if fo_closed fo
         then (Raise (ValueError "I/O operation on closed file."), w)
         else k fo w
       end.

(** f.write(s) *)
Definition py_write (s : string) : M unit :=
  with_file (λ fo,
    emit (EvWrite s) >>
    (λ w, (Ret tt,
           set_fobj (Some {| fo_path := fo_path fo;
                             fo_buffer := fo_buffer fo +:+ s;
                             fo_closed := false |}) w))).

(** f.flush() *)
Definition py_flush : M unit :=
  with_file (λ fo,
    emit EvFlush >>
    (λ w, (Ret tt,
           set_fobj (Some {| fo_path := fo_path fo; fo_buffer := "";
                             fo_closed := false |})
             (set_files (flush_to_disk fo (files w)) w)))).

(** f.close(): flushes, then closes; closing twice is allowed. *)
Definition py_close : M unit :=
  λ w, match fobj w with
       | None => (Raise (NameError "f"), w)
       | Some fo =>
         if fo_closed fo then (Ret tt, w)
         else (emit EvClose >>
               (λ w, (Ret tt,
                      set_fobj (Some {| fo_path := fo_path fo; fo_buffer := "";
                                        fo_closed := true |})
                        (set_files (flush_to_disk fo (files w)) w)))) w
       end.

(** print(s) *)
Definition py_print (s : string) : M unit :=
  emit (EvPrint s) >>
  (λ w, (Ret tt, set_stdout (stdout w ++ [s]) w)).

(** torch.save(sd, path) *)
Definition torch_save (sd : state_dict) (path : string) : M unit :=
  emit (EvSave path sd) >>
  (λ w, (Ret tt, set_models (<[path := sd]> (models w)) w)).

(** ** Cell 8: the training loop *)

(** The f-string of the loop. *)
Definition stats_string (c : config) (epoch i_step : Z) (loss : tensor) : string :=
  stats_template epoch (num_epochs c) i_step (total_step c)
    (format_4f (item loss)) (format_4f (np_exp (item loss))).

(** The body of the inner loop. *)
Definition training_step (c : config) (epoch i_step : Z) : M unit :=
  (* indices = data_loader.dataset.get_train_indices() *)
  let! indices := call get_train_indices in
  emit (EvGetIndices indices) >>
  assign "indices" (VIndices indices) >>
  (* new_saosmpler = data.sampler.SubsetRandomSampler(indices=indices) *)
  assign "new_saosmpler" (VSampler indices) >>
  (* data_loader.batch_sampler.sampler = new_sampler *)
  let! s := name "new_sampler" in
  emit (EvSetSampler s) >>
  (λ w, (Ret tt, set_loader_sampler s w)) >>
  (* images, captions = next(iter(data_loader)) *)
  let! smp := (λ w, (Ret (loader_sampler w), w)) in
  emit (EvNextBatch smp) >>
  let! batch := try_call (next_batch smp) in
  assign "images" (VObj "Tensor") >>
  assign "captions" (VObj "Tensor") >>
  (* images = images.to(device) *)
  let images := to_device (fst batch) in
  assign "images" (VObj "Tensor") >>
  (* captions = captions.to(device) *)
  let captions := to_device (snd batch) in
  assign "captions" (VObj "Tensor") >>
  (* decoder.zero_grad(); encoder.zero_grad() *)
  emit EvZeroGrad >>
  call (λ l, (tt, decoder_zero_grad l)) >>
  emit EvZeroGrad >>
  call (λ l, (tt, encoder_zero_grad l)) >>
  (* features = encoder(images) *)
  emit (EvEncoder images) >>
  let! features := try_call (encoder_forward images) in
  assign "features" (VObj "Tensor") >>
  (* outputs = decoder(features, captions) *)
  emit (EvDecoder features captions) >>
  let! outputs := try_call (decoder_forward features captions) in
  assign "outputs" (VObj "Tensor") >>
  (* loss = criterion(outputs.view(-1, vocab_size), captions.view(-1)) *)
  let! logits := lift (view outputs [-1; vocab_size c]) in
  let! targets := lift (view captions [-1]) in
  emit (EvCriterion logits targets) >>
  let! loss := try_call (criterion logits targets) in
  assign "loss" (VObj "Tensor") >>
  (* loss.backward() *)
  emit (EvBackward loss) >>
  try_call (backward loss) >>
  (* optimizer.step() *)
  emit EvOptimizerStep >>
  try_call optimizer_step >>
  (* stats = f"..." *)
  let stats := stats_string c epoch i_step loss in
  assign "stats" (VStr stats) >>
  (* f.write(stats + "\n"); f.flush() *)
  py_write (stats +:+ LF) >>
  py_flush >>
  (* if i_step % print_every == 0: print("\r" + stats) *)
  let! r := py_mod i_step (print_every c) in
  if decide (r = 0) then py_print (CR +:+ stats) else ret tt.

(** The block after the inner loop. *)
Definition save_weights (c : config) (epoch : Z) : M unit :=
  (* if epoch % save_every == 0: *)
  let! r := py_mod epoch (save_every c) in
  if decide (r = 0) then
    let! dsd := (λ w, (Ret (decoder_state_dict (libst w)), w)) in
    torch_save dsd (decoder_path epoch) >>
    let! esd := (λ w, (Ret (encoder_state_dict (libst w)), w)) in
    torch_save esd (encoder_path epoch)
  else ret tt.

(** One pass of the outer loop. *)
Definition training_epoch (c : config) (epoch : Z) : M unit :=
  assign "epoch" (VInt epoch) >>
  for_each (py_range 1 (total_step c + 1)) (λ i_step,
    assign "i_step" (VInt i_step) >>
    training_step c epoch i_step) >>
  save_weights c epoch.

(** The whole cell. *)
Definition train (c : config) : M unit :=
  (* f = open(log_file, "w") *)
  py_open (log_file c) >>
  (* for epoch in range(1, num_epochs + 1): *)
  for_each (py_range 1 (num_epochs c + 1)) (training_epoch c) >>
  (* f.close() *)
  py_close.

(** ** Cell 13: captions for the validation images *)

(** pred_result[k].append(sentence) on a defaultdict(list): a missing key
    starts from the empty list. *)
Definition dict_append (k : Z) (sentence : string)
    (d : gmap Z (list string)) : gmap Z (list string) :=
  <[k := default [] (d !! k) ++ [sentence]]> d.

(** The body of the loop, for one (img_id, img) of the loader. *)
Definition infer_caption (item : tensor * tensor) : M unit :=
  let '(img_id, img) := item in
  assign "img_id" (VObj "Tensor") >>
  assign "img" (VObj "Tensor") >>
  (* img = img.to(device) *)
  let img := to_device img in
  assign "img" (VObj "Tensor") >>
  (* features = encoder(img).unsqueeze(1) *)
  emit (EvEncoder img) >>
  let! encoded := try_call (encoder_forward img) in
  let features := unsqueeze encoded 1 in
  assign "features" (VObj "Tensor") >>
  (* output = decoder.sample(features) *)
  emit (EvSample features) >>
  let! output := try_call (decoder_sample features) in
  assign "output" (VObj "list") >>
  (* sentence = clean_sentence(output, val_data_loader.dataset.vocab.idx2word) *)
  let sentence := clean_sentence output idx2word in
  assign "sentence" (VStr sentence) >>
  (* pred_result[img_id.item()].append(sentence) *)
  λ w, (Ret tt, set_pred_result (dict_append (item_int img_id) sentence
                                   (pred_result w)) w).

(** The whole cell; [val_data_loader] is the sequence of pairs the loader
    yields. *)
Definition infer_captions (val_data_loader : list (tensor * tensor)) : M unit :=
  (* pred_result = defaultdict(list) *)
  (λ w, (Ret tt, set_pred_result ∅ w)) >>
  assign "pred_result" (VObj "defaultdict") >>
  (* for img_id, img in tqdm(val_data_loader): *)
  for_each val_data_loader infer_caption.

End Notebook.

Notation "'let!' x ':=' m 'in' k" := (bind m (λ x, k))
  (at level 10, x pattern, m at level 100, k at level 200).
Notation "m '>>' k" := (bind m (λ _, k))
  (at level 60, right associativity).


(** ** Reading a trace *)

Section Traces.
Context {F : Framework}.

Definition is_file_event (e : event) : bool :=
  match e with
  | EvOpen _ | EvWrite _ | EvFlush | EvClose => true
  | _ => false
  end.

(** The events on the log file, in order. *)
Definition file_events (t : list event) : list event :=
  List.filter is_file_event t.

(** The number of calls of open() and of f.close(). *)
Definition opens (t : list event) : nat :=
  length (List.filter (λ e, match e with EvOpen _ => true | _ => false end) t).
Definition closes (t : list event) : nat :=
  length (List.filter (λ e, match e with EvClose => true | _ => false end) t).

(** The checkpoints written, in order. *)
Definition saves (t : list event) : list (string * state_dict) :=
  omap (λ e, match e with EvSave p sd => Some (p, sd) | _ => None end) t.

(** The number of calls of optimizer.step(). *)
Definition optimizer_steps (t : list event) : nat :=
  length (List.filter (λ e, match e with EvOptimizerStep => true | _ => false end) t).

(** The batches fetched. *)
Definition batches (t : list event) : nat :=
  length (List.filter (λ e, match e with EvNextBatch _ => true | _ => false end) t).

(** The images the encoder was called on, in order. *)
Definition encoder_calls (t : list event) : list tensor :=
  omap (λ e, match e with EvEncoder x => Some x | _ => None end) t.

(** The feature tensors the sampler was called on, in order. *)
Definition sample_calls (t : list event) : list tensor :=
  omap (λ e, match e with EvSample x => Some x | _ => None end) t.

(** The log file object right after open() or flush(). *)
Definition open_file (p : string) : file_object :=
  {| fo_path := p; fo_buffer := ""; fo_closed := false |}.

(** A step that reached the log: (epoch, step) and the loss tensor. *)
Definition log_line (c : config) (d : Z * Z * tensor) : string :=
  stats_string c d.1.1 d.1.2 d.2 +:+ LF.

(** [loss] is what criterion returned, on some input and target. *)
Definition computed_loss (loss : tensor) : Prop :=
  ∃ input target l l', criterion input target l = (Ret loss, l').

(** What writing and flushing the lines [ds] leaves in the trace, and on disk
    after [txt]. *)
Definition log_events (c : config) (ds : list (Z * Z * tensor)) : list event :=
  ds ≫= λ d, [EvWrite (log_line c d); EvFlush].
Definition log_text (c : config) (txt : string) (ds : list (Z * Z * tensor)) : string :=
  foldl (λ s d, s +:+ log_line c d) txt ds.

(** The (epoch, step) pairs of a whole run, in order. *)
Definition schedule (c : config) : list (Z * Z) :=
  py_range 1 (num_epochs c + 1) ≫= λ e,
    (λ s, (e, s)) <$> py_range 1 (total_step c + 1).

(** The checkpoints of the epochs [eps], each given with the library state at
    its end. *)
Definition checkpoints (c : config) (eps : list (Z * lib))
    : list (string * state_dict) :=
  eps ≫= λ el,
    if decide (el.1 `mod` save_every c = 0)
    then [(decoder_path el.1, decoder_state_dict el.2);
          (encoder_path el.1, encoder_state_dict el.2)]
    else [].

(** The [./models] directory after the checkpoints [ps] are written, in
    order, over [ms]. *)
Definition store (ps : list (string * state_dict))
    (ms : gmap string state_dict) : gmap string state_dict :=
  foldl (λ m ps, <[ps.1 := ps.2]> m) ms ps.

(** The steps of epoch [e], in order. *)
Definition steps_of (c : config) (e : Z) : list (Z * Z) :=
  (λ s, (e, s)) <$> py_range 1 (total_step c + 1).

(** The events a computation added when it took the world [w] to [w']. *)
Definition new_events (w w' : world) : list event :=
  drop (length (trace w)) (trace w').

(** The strings written to the log file, in order. *)
Definition writes (t : list event) : list string :=
  omap (λ e, match e with EvWrite s => Some s | _ => None end) t.

(** The strings written to the log file object and not yet flushed, after the
    events [t]. *)
Definition buffer_step (buf : list string) (e : event) : list string :=
  match e with
  | EvWrite s => buf ++ [s]
  | EvOpen _ | EvFlush | EvClose => []
  | _ => buf
  end.
Definition unflushed (t : list event) : list string :=
  foldl buffer_step [] t.

(** A pair of the validation loader for which the loop body ran to its end:
    the pair, what the encoder returned for its image and the token IDs the
    sampling returned. *)
Record captioned := {
  c_id : tensor;
  c_img : tensor;
  c_encoded : tensor;
  c_output : list Z;
}.
Definition c_pair (r : captioned) : tensor * tensor := (c_id r, c_img r).
Definition c_features (r : captioned) : tensor := unsqueeze (c_encoded r) 1.
Definition c_sentence (r : captioned) : string :=
  clean_sentence (c_output r) idx2word.

(** [c_encoded r] is what encoder(img) returned and [c_output r] what
    decoder.sample returned on its unsqueezed result, in some library
    states. *)
Definition produced (r : captioned) : Prop :=
  (∃ l l', encoder_forward (to_device (c_img r)) l = (Ret (c_encoded r), l')) ∧
  (∃ l l', decoder_sample (c_features r) l = (Ret (c_output r), l')).

(** Appending the captions of [caps], in order, to the prediction map [d]. *)
Definition collect (caps : list captioned) (d : gmap Z (list string))
    : gmap Z (list string) :=
  foldl (λ d r, dict_append (item_int (c_id r)) (c_sentence r) d) d caps.

(** The number of caption strings a prediction map holds. *)
Definition caption_count (d : gmap Z (list string)) : nat :=
  map_fold (λ _ l n, (length l + n)%nat) 0%nat d.

(** A library call that returns in every library state. *)
Definition returns {A} (op : lib → outcome A * lib) : Prop :=
  ∀ l, ∃ a l', op l = (Ret a, l').

(** No library call of the training loop raises, the batches being fetched
    under the sampler [v]. *)
Record library_returns (v : value) : Prop := {
  lr_batch : returns (next_batch v);
  lr_encoder : ∀ x, returns (encoder_forward x);
  lr_decoder : ∀ x y, returns (decoder_forward x y);
  lr_view : ∀ x shape, ∃ y, view x shape = Ret y;
  lr_criterion : ∀ x y, returns (criterion x y);
  lr_backward : ∀ x, returns (backward x);
  lr_step : returns optimizer_step;
}.

(** What f.close() adds to the trace of a run that ended with [o]. *)
Definition closing (o : outcome unit) : list event :=
  match o with Ret _ => [EvClose] | Raise _ => [] end.

End Traces.

(** ** The order of the calls *)

(** Which call an event records, whatever its arguments. *)
Inductive op :=
| OpOpen | OpWrite | OpFlush | OpClose | OpPrint
| OpGetIndices | OpSetSampler | OpNextBatch | OpZeroGrad
| OpEncoder | OpDecoder | OpCriterion | OpBackward | OpOptimizerStep
| OpSave | OpSample.

#[global] Instance op_eq_dec : EqDecision op.
Proof. solve_decision. Defined.

(** The calls of one pass of the inner loop of cell 8, in the order of its
    statements; print is called when [i_step % print_every == 0]. *)
Definition step_ops (c : config) (i_step : Z) : list op :=
  [OpGetIndices; OpSetSampler; OpNextBatch; OpZeroGrad; OpZeroGrad;
   OpEncoder; OpDecoder; OpCriterion; OpBackward; OpOptimizerStep;
   OpWrite; OpFlush] ++
  (if decide (print_every c ≠ 0 ∧ i_step `mod` print_every c = 0)
   then [OpPrint] else []).

(** The calls of one pass of the outer loop: the steps, then the two
    torch.save when [epoch % save_every == 0]. *)
Definition epoch_ops (c : config) (epoch : Z) : list op :=
  (py_range 1 (total_step c + 1) ≫= step_ops c) ++
  (if decide (save_every c ≠ 0 ∧ epoch `mod` save_every c = 0)
   then [OpSave; OpSave] else []).

(** The calls of the two loops, and of the whole cell. *)
Definition loop_ops (c : config) : list op :=
  py_range 1 (num_epochs c + 1) ≫= epoch_ops c.
Definition cell_ops (c : config) : list op :=
  OpOpen :: loop_ops c ++ [OpClose].

Section Operations.
Context {F : Framework}.

Definition op_of (e : event) : op :=
  match e with
  | EvOpen _ => OpOpen
  | EvWrite _ => OpWrite
  | EvFlush => OpFlush
  | EvClose => OpClose
  | EvPrint _ => OpPrint
  | EvGetIndices _ => OpGetIndices
  | EvSetSampler _ => OpSetSampler
  | EvNextBatch _ => OpNextBatch
  | EvZeroGrad => OpZeroGrad
  | EvEncoder _ => OpEncoder
  | EvDecoder _ _ => OpDecoder
  | EvCriterion _ _ => OpCriterion
  | EvBackward _ => OpBackward
  | EvOptimizerStep => OpOptimizerStep
  | EvSave _ _ => OpSave
  | EvSample _ => OpSample
  end.

(** The strings passed to print, in order. *)
Definition prints (t : list event) : list string :=
  omap (λ e, match e with EvPrint s => Some s | _ => None end) t.

(** What the steps [ds] that reached the log print: the status line after a
    carriage return, for the steps whose number is a multiple of
    [print_every]. *)
Definition printed (c : config) (ds : list (Z * Z * tensor)) : list string :=
  (λ d, CR +:+ stats_string c d.1.1 d.1.2 d.2) <$>
    filter (λ d, print_every c ≠ 0 ∧ d.1.2 `mod` print_every c = 0) ds.

(** The backward passes, optimizer steps and log writes, in order. *)
Definition is_update (e : event) : bool :=
  match e with
  | EvBackward _ | EvOptimizerStep | EvWrite _ => true
  | _ => false
  end.
Definition updates (t : list event) : list event := List.filter is_update t.

(** The three of a step that reached the log. *)
Definition step_updates (c : config) (d : Z * Z * tensor) : list event :=
  [EvBackward d.2; EvOptimizerStep; EvWrite (log_line c d)].

(** The samplers installed in the loader and the samplers the batches were
    fetched under, in order. *)
Definition samplers (t : list event) : list value :=
  omap (λ e, match e with
             | EvSetSampler v | EvNextBatch v => Some v
             | _ => None
             end) t.

(** The index lists get_train_indices() returned, in order. *)
Definition drawn (t : list event) : list (list Z) :=
  omap (λ e, match e with EvGetIndices idx => Some idx | _ => None end) t.

(** What is left of the three of a step that raised before it reached the
    log: nothing, the backward pass, or the backward pass and the optimizer
    step. *)
Definition partial_update (us : list event) : Prop :=
  us = [] ∨ ∃ l, us = [EvBackward l] ∨ us = [EvBackward l; EvOptimizerStep].

(** What a part of cell 8 did between the worlds [w] and [w'], the log file
    being open under [p]: it went through the steps [sched] and made the
    calls [ops], all of them when it returned and a prefix of them when it
    raised. *)
Definition summary (c : config) (p : string) (sched : list (Z * Z))
    (ops : list op) (w : world) (o : outcome unit) (w' : world) : Prop :=
  ∃ (ds : list (Z * Z * tensor)) t extra,
    trace w' = trace w ++ t ∧
    fobj w' = Some (open_file p) ∧
    stdout w' = stdout w ++ prints t ∧
    ds.*1 `prefix_of` sched ∧
    op_of <$> t `prefix_of` ops ∧
    updates t = (ds ≫= step_updates c) ++ extra ∧
    partial_update extra ∧
    prints t = printed c ds ∧
    (o = Ret tt → ds.*1 = sched ∧ op_of <$> t = ops ∧ extra = []).

(** The names cell 8 assigns. *)
Definition cell_names : list string :=
  ["f"; "epoch"; "i_step"; "indices"; "new_saosmpler"; "images"; "captions";
   "features"; "outputs"; "loss"; "stats"].

(** What a part of cell 8 leaves as it was between the worlds [w] and [w'],
    the log file being [p]: the other text files, the files of [./models]
    that are not checkpoints, the prediction map, the names the cell does
    not assign; and where the samplers it used came from. *)
Definition frame (p : string) (w w' : world) : Prop :=
  (∀ q, q ≠ p → files w' !! q = files w !! q) ∧
  (∀ q, (∀ e, q ≠ decoder_path e ∧ q ≠ encoder_path e) →
        models w' !! q = models w !! q) ∧
  pred_result w' = pred_result w ∧
  (∀ x, x ∉ cell_names → globals w' !! x = globals w !! x) ∧
  (loader_sampler w' = loader_sampler w ∨
   globals w !! "new_sampler" = Some (loader_sampler w')) ∧
  ∃ t, trace w' = trace w ++ t ∧
    Forall (λ v, globals w !! "new_sampler" = Some v) (samplers t) ∧
    match last (drawn t) with
    | Some idx => globals w' !! "new_saosmpler" = Some (VSampler idx)
    | None => globals w' !! "new_saosmpler" = globals w !! "new_saosmpler"
    end.

(** The world in which the first epoch starts: the log file is open and
    empty, [f] is bound. *)
Definition opened (c : config) (w : world) : world :=
  set_globals (<["f" := VFile (log_file c)]> (globals w))
    (set_fobj (Some (open_file (log_file c)))
       (set_files (<[log_file c := ""]> (files w))
          (set_trace (trace w ++ [EvOpen (log_file c)]) w))).

End Operations.

(** ** Cell 17: the BLEU aggregation *)

Section BleuModel.

(** The BLEU score of the candidate captions of one image against its
    reference captions.  The specification names it (4.3) and gives no
    formula for it: n-gram order, smoothing and tokenization are left open. *)
Variable image_bleu : list string → list string → Q.

(** Modelled from the spec: the first half of [nlp_utils.bleu_score], whose
    module is not part of the notebook.  "For each key present in both,
    compute a per-image BLEU score between the candidate caption and the set
    of references". *)
Definition image_scores (true_sentences predicted_sentences : gmap Z (list string))
    : gmap Z Q :=
  map_zip_with image_bleu true_sentences predicted_sentences.

(** Modelled from the spec: the aggregate of [nlp_utils.bleu_score],
    "aggregate (mean) across all scored images".  The specification gives no
    value when no image is scored: [None]. *)
Definition mean (xs : list Q) : option Q :=
  match xs with
  | [] => None
  | _ => Some (foldr Qplus 0%Q xs / inject_Z (Z.of_nat (length xs)))%Q
  end.

(** Modelled from the spec: [nlp_utils.bleu_score], which cell 17 calls as
    bleu_score(true_sentences=valid_result, predicted_sentences=pred_result)
    and whose module is not part of the notebook: the mean of the per-image
    scores of the images present in both maps (specification, 4.3). *)
Definition bleu_score (true_sentences predicted_sentences : gmap Z (list string))
    : option Q :=
  mean ((map_to_list (image_scores true_sentences predicted_sentences)).*2).

End BleuModel.

(** Every candidate string of the prediction map is empty. *)
Definition all_empty (predicted_sentences : gmap Z (list string)) : Prop :=
  ∀ k cands, predicted_sentences !! k = Some cands → Forall (λ s, s = "") cands.

(** Every image of the prediction map has references, and each of its
    candidate strings is one of them. *)
Definition all_identical (true_sentences predicted_sentences : gmap Z (list string))
    : Prop :=
  ∀ k cands, predicted_sentences !! k = Some cands →
    ∃ refs, true_sentences !! k = Some refs ∧ Forall (λ s, s ∈ refs) cands.

(** The maps of the specification's scenario. *)
Definition scenario_references : gmap Z (list string) :=
  {[ 1 := ["a dog"]; 2 := ["a cat"] ]}.
Definition scenario_predictions : gmap Z (list string) :=
  {[ 1 := ["a dog"] ]}.

(** ** Cell 5: the number of steps of an epoch *)

(** A finite Python float: the number [f_mant * 2 ^ f_exp]. *)
Record float64 := { f_mant : Z; f_exp : Z }.

Inductive arith_error := DivisionByZero | Overflow.

(** n / d rounded to the nearest integer, a half to the even one, for
    n >= 0 and d > 0. *)
Definition round_half_even (n d : Z) : Z :=
  let q := n `div` d in
  let r := n `mod` d in
  if decide (2 * r < d) then q
  else if decide (d < 2 * r) then q + 1
  else if Z.even q then q else q + 1.

(** The k with 2^k <= a / b < 2^(k+1), for a, b > 0. *)
Definition quotient_exponent (a b : Z) : Z :=
  if decide (b ≤ a) then Z.log2 (a `div` b)
  else - Z.log2_up ((b + a - 1) `div` a).

(** a / b on Python integers: the float nearest to the quotient, a half to
    the even mantissa; 53 bits of mantissa, exponents from -1074 (the
    subnormal numbers) up.  Python raises ZeroDivisionError for b = 0 and
    OverflowError when the result is beyond the floats. *)
Definition true_divide (a b : Z) : arith_error + float64 :=
  if decide (b = 0) then inl DivisionByZero
  else if decide (a = 0) then inr {| f_mant := 0; f_exp := 0 |}
  else
    let e := Z.max (quotient_exponent (Z.abs a) (Z.abs b) - 52) (-1074) in
    let m := round_half_even (Z.abs a * 2 ^ Z.max 0 (- e))
                             (Z.abs b * 2 ^ Z.max 0 e) in
    if decide (0 ≤ e ∧ 2 ^ 1024 ≤ m * 2 ^ e) then inl Overflow
    else inr {| f_mant := Z.sgn a * Z.sgn b * m; f_exp := e |}.

(** math.ceil(x) *)
Definition math_ceil (x : float64) : Z :=
  if decide (0 ≤ f_exp x) then f_mant x * 2 ^ f_exp x
  else - ((- f_mant x) `div` 2 ^ (- f_exp x)).

(** total_step = math.ceil(len(data_loader.dataset) /
                           data_loader.batch_sampler.batch_size) *)
Definition total_step_of (dataset_len batch : Z) : arith_error + Z :=
  match true_divide dataset_len batch with
  | inl e => inl e
  | inr x => inr (math_ceil x)
  end.

(** [true_divide] beside the division of the Standard Library's binary64
    specification, both in units of 2^-1074.  On operands below 2^53, which
    are floats themselves, a / b is the division of two floats. *)
Definition float_units (x : arith_error + float64) : option Z :=
  match x with
  | inr x => Some (f_mant x * 2 ^ (f_exp x + 1074))
  | inl _ => None
  end.

Definition spec_units (x : SpecFloat.spec_float) : option Z :=
  match x with
  | SpecFloat.S754_zero _ => Some 0
  | SpecFloat.S754_finite s m e =>
    Some (SpecFloat.cond_Zopp s (Z.pos m) * 2 ^ (e + 1074))
  | _ => None
  end.

Definition spec_divide (a b : Z) : SpecFloat.spec_float :=
  SpecFloat.SFdiv 53 1024 (SpecFloat.binary_normalize 53 1024 a 0 false)
                          (SpecFloat.binary_normalize 53 1024 b 0 false).

Definition agree (ab : Z * Z) : bool :=
  bool_decide (float_units (true_divide ab.1 ab.2) =
               spec_units (spec_divide ab.1 ab.2)).

(** ** Cell 12: the trained weights, loaded into new models *)

(** The library calls of the cell. *)
Class Reloading (F : Framework) := {
  (* val_get_loader(transform=transform_test, mode="valid", cocoapi_loc=dir) *)
  val_get_loader : string → lib → outcome unit * lib;
  (* EncoderCNN(embed_size), bound to encoder *)
  EncoderCNN : Z → lib → outcome unit * lib;
  (* DecoderRNN(embed_size, hidden_size, vocab_size), bound to decoder *)
  DecoderRNN : Z → Z → Z → lib → outcome unit * lib;
  (* encoder.to(device), decoder.to(device) *)
  encoder_to_device : lib → lib;
  decoder_to_device : lib → lib;
  (* encoder.load_state_dict(sd), decoder.load_state_dict(sd) *)
  encoder_load_state_dict : state_dict → lib → outcome unit * lib;
  decoder_load_state_dict : state_dict → lib → outcome unit * lib;
  (* encoder.eval(), decoder.eval() *)
  encoder_eval : lib → lib;
  decoder_eval : lib → lib;
}.

Definition encoder_file : string := "encoder-3.pkl".
Definition decoder_file : string := "decoder-3.pkl".

Section Reload.
Context {F : Framework} {R : Reloading F}.

(** torch.load(path): the state dict a torch.save left under [path]; without
    such a file, open() inside torch.load raises FileNotFoundError. *)
Definition torch_load (path : string) : M state_dict :=
  λ w, match models w !! path with
       | Some sd => (Ret sd, w)
       | None => (Raise (LibraryError ("FileNotFoundError: " +:+ path)), w)
       end.

(** The first part of the cell: the validation loader and two new models. *)
Definition fresh_models (c : config) : M unit :=
  (* transform_test = transforms.Compose([...]) *)
  assign "transform_test" (VObj "Compose") >>
  (* val_data_loader = val_get_loader(transform=transform_test, mode="valid",
                                      cocoapi_loc=cocoapi_dir) *)
  try_call (val_get_loader (cocoapi_dir c)) >>
  assign "val_data_loader" (VObj "DataLoader") >>
  (* encoder_file = "encoder-3.pkl"; decoder_file = "decoder-3.pkl" *)
  assign "encoder_file" (VStr encoder_file) >>
  assign "decoder_file" (VStr decoder_file) >>
  (* encoder = EncoderCNN(embed_size) *)
  try_call (EncoderCNN (embed_size c)) >>
  assign "encoder" (VObj "EncoderCNN") >>
  (* decoder = DecoderRNN(embed_size, hidden_size, vocab_size) *)
  try_call (DecoderRNN (embed_size c) (hidden_size c) (vocab_size c)) >>
  assign "decoder" (VObj "DecoderRNN") >>
  (* device = torch.device(...); encoder.to(device); decoder.to(device) *)
  assign "device" (VObj "device") >>
  call (λ l, (tt, encoder_to_device l)) >>
  call (λ l, (tt, decoder_to_device l)).

(** The last two statements of the cell. *)
Definition eval_mode : M unit :=
  (* encoder.eval(); decoder.eval() *)
  call (λ l, (tt, encoder_eval l)) >>
  call (λ l, (tt, decoder_eval l)).

(** The whole cell. *)
Definition load_weights (c : config) : M unit :=
  fresh_models c >>
  (* encoder.load_state_dict(torch.load(os.path.join("./models", encoder_file))) *)
  (let! esd := torch_load (path_join "./models" encoder_file) in
   try_call (encoder_load_state_dict esd)) >>
  (* decoder.load_state_dict(torch.load(os.path.join("./models", decoder_file))) *)
  (let! dsd := torch_load (path_join "./models" decoder_file) in
   try_call (decoder_load_state_dict dsd)) >>
  eval_mode.

(** The cell with the two state dicts in hand instead of read from disk. *)
Definition install_weights (c : config) (esd dsd : state_dict) : M unit :=
  fresh_models c >>
  try_call (encoder_load_state_dict esd) >>
  try_call (decoder_load_state_dict dsd) >>
  eval_mode.

End Reload.

(** ** Cell 13: what the validation pass leaves alone *)

(** The names cell 13 assigns. *)
Definition inference_names : list string :=
  ["pred_result"; "img_id"; "img"; "features"; "output"; "sentence"].

Section Validation.
Context {F : Framework}.

(** What cell 13 leaves as it was, and the only calls it makes. *)
Definition inference_frame (w w' : world) : Prop :=
  files w' = files w ∧ models w' = models w ∧ stdout w' = stdout w ∧
  fobj w' = fobj w ∧ loader_sampler w' = loader_sampler w ∧
  (∀ x, x ∉ inference_names → globals w' !! x = globals w !! x) ∧
  ∃ t, trace w' = trace w ++ t ∧
       Forall (λ e, op_of e = OpEncoder ∨ op_of e = OpSample) t.

End Validation.

(** ** Cell 14: the reference captions, by image *)

(** What the cell takes from Python's float and str types: a type for the
    floats json.load reads, the integer a float is equal to when there is
    one, and str.lower(). *)
Class Pythonic := {
  pyfl : Type;
  pyfl_eq_dec :: EqDecision pyfl;
  (* the n with x == n, for an int n *)
  float_int : pyfl → option Z;
  (* s.lower() *)
  str_lower : string → string;
}.

Section References.
Context {P : Pythonic}.

(** What json.load returns. *)
#[warnings="-register-all"] Inductive json :=
| JNull
| JBool (b : bool)
| JInt (n : Z)
| JFloat (x : pyfl)
| JStr (s : string)
| JArr (xs : list json)
| JObj (kvs : gmap string json).

Inductive lookup_error :=
| KeyError (key : string)
| TypeError
| AttributeError.

(** v[k] for a string k: only a dict can be indexed by a string. *)
Definition getitem (v : json) (k : string) : lookup_error + json :=
  match v with
  | JObj kvs =>
    match kvs !! k with
    | Some x => inr x
    | None => inl (KeyError k)
    end
  | _ => inl TypeError
  end.

(** The items [for i in v] goes through: the elements of a list, the keys of
    a dict, the characters of a string; the other values are not iterable.
    (Keys and characters are strings, which is all the loop below depends
    on.) *)
Definition py_iter (v : json) : lookup_error + list json :=
  match v with
  | JArr xs => inr xs
  | JObj kvs => inr (JStr <$> (map_to_list kvs).*1)
  | JStr s => inr ((λ a, JStr (String a EmptyString)) <$> String.list_ascii_of_string s)
  | _ => inl TypeError
  end.

(** The keys of a Python dict: hashable values up to ==.  True, 1 and 1.0
    are one key. *)
Inductive key :=
| KNone
| KNum (n : Z)
| KFloat (x : pyfl)
| KStr (s : string).

#[global] Instance key_eq_dec : EqDecision key.
Proof. solve_decision. Defined.

Definition py_key (v : json) : option key :=
  match v with
  | JNull => Some KNone
  | JBool b => Some (KNum (if b then 1 else 0))
  | JInt n => Some (KNum n)
  | JFloat x => Some (match float_int x with Some n => KNum n | None => KFloat x end)
  | JStr s => Some (KStr s)
  | JArr _ | JObj _ => None
  end.

(** A defaultdict(list), in insertion order. *)
Definition lists : Type := list (key * list string).

(** d[k] on a defaultdict(list): a missing key is inserted with []. *)
Definition touch (k : key) (d : lists) : lists :=
  if decide (k ∈ d.*1) then d else d ++ [(k, [])].

(** d[k].append(s), once d[k] exists. *)
Definition push (k : key) (s : string) (d : lists) : lists :=
  (λ kv : key * list string, if decide (kv.1 = k) then (kv.1, kv.2 ++ [s]) else kv) <$> d.

(** valid_result[i["image_id"]].append(i["caption"].lower()): the list is
    looked up, and created, before the argument is evaluated. *)
Definition add_annotation (i : json) (d : lists) : option lookup_error * lists :=
  match getitem i "image_id" with
  | inl e => (Some e, d)
  | inr id =>
    match py_key id with
    | None => (Some TypeError, d)
    | Some k =>
      let d := touch k d in
      match getitem i "caption" with
      | inl e => (Some e, d)
      | inr (JStr s) => (None, push k (str_lower s) d)
      | inr _ => (Some AttributeError, d)
      end
    end
  end.

(** for i in valid_annot: ... *)
Fixpoint add_annotations (items : list json) (d : lists)
    : option lookup_error * lists :=
  match items with
  | [] => (None, d)
  | i :: items =>
    match add_annotation i d with
    | (None, d) => add_annotations items d
    | r => r
    end
  end.

(** The cell, once json.load has returned [caption]: the exception raised, if
    any, and the dict bound to valid_result, if the cell got that far. *)
Definition valid_result (caption : json) : option lookup_error * option lists :=
  (* valid_annot = caption["annotations"] *)
  match getitem caption "annotations" with
  | inl e => (Some e, None)
  | inr valid_annot =>
    (* valid_result = defaultdict(list); for i in valid_annot: *)
    match py_iter valid_annot with
    | inl e => (Some e, Some [])
    | inr items =>
      let '(e, d) := add_annotations items [] in (e, Some d)
    end
  end.

(** list(valid_result.values())[:3] *)
Definition first_values (n : nat) (d : lists) : list (list string) :=
  take n d.*2.

(** An annotation the loop body accepts: a dict with a hashable image_id and
    a string caption. *)
Definition annotation_of (i : json) : option (key * string) :=
  match i with
  | JObj kvs =>
    match kvs !! "image_id", kvs !! "caption" with
    | Some id, Some (JStr s) => (λ k, (k, s)) <$> py_key id
    | _, _ => None
    end
  | _ => None
  end.

(** The keys of [ks] in the order of their first occurrence. *)
Definition first_seen (ks : list key) : list key :=
  foldl (λ acc k, if decide (k ∈ acc) then acc else acc ++ [k]) [] ks.

(** The captions of image [k] among [pairs], lower-cased, in order. *)
Definition captions_of (k : key) (pairs : list (key * string)) : list string :=
  str_lower <$> (filter (λ p, p.1 = k) pairs).*2.

(** The pairs grouped by image. *)
Definition grouped (pairs : list (key * string)) : lists :=
  (λ k, (k, captions_of k pairs)) <$> first_seen pairs.*1.

(** The number of captions a dict holds. *)
Definition caption_total (d : lists) : nat := length (concat d.*2).

End References.

(** ** A small framework on which the cells can be run

    Tensors are lists of integers, floats are integers, the library state
    counts the optimizer steps taken. *)
Definition toy_next_batch (s : value) (l : nat) : outcome (list Z * list Z) * nat :=
  match s with
  | VSampler idx => (Ret (idx, idx), l)
  | _ => (Raise (LibraryError "TypeError: object is not iterable"), l)
  end.

Definition toy : Framework := {|
  tensor := list Z;
  pyfloat := Z;
  state_dict := nat;
  vocabulary := Z → string;
  lib := nat;
  get_train_indices := λ l, ([Z.of_nat l; Z.of_nat l + 1], l);
  next_batch := toy_next_batch;
  to_device := λ t, t;
  decoder_zero_grad := λ l, l;
  encoder_zero_grad := λ l, l;
  encoder_forward := λ t l, (Ret t, l);
  decoder_forward := λ f c l, (Ret (f ++ c), l);
  view := λ t _, Ret t;
  criterion := λ i t l, (Ret [Z.of_nat (length i)], l);
  backward := λ _ l, (Ret tt, l);
  optimizer_step := λ l, (Ret tt, S l);
  item := λ t, default 0 (head t);
  np_exp := λ x, 2 ^ x;
  format_4f := λ x, pretty x +:+ ".0000";
  decoder_state_dict := λ l, l;
  encoder_state_dict := λ l, (l + 1000)%nat;
  unsqueeze := λ t _, t;
  decoder_sample := λ t l, (Ret (rev t), l);
  item_int := λ t, default 0 (head t);
  idx2word := λ n, "w" +:+ pretty n;
  clean_sentence := λ out voc, String.concat " " (voc <$> out);
|}.

(** A kernel with namespace [g] and library state [l], before cell 8 runs:
    the loader has the sampler get_loader gave it, no file is open, nothing
    is on disk. *)
Definition kernel {F : Framework} (g : gmap string value) (l : lib) : world :=
  {| globals := g; loader_sampler := VObj "Sampler"; libst := l;
     fobj := None; files := ∅; models := ∅; pred_result := ∅;
     stdout := []; trace := [] |}.

(** A kernel in which an earlier execution has left [new_sampler] bound to
    the sampler [v], and cells 2 to 6 have run since. *)
Definition stale_kernel {F : Framework} (c : config) (v : value) (l : lib) : world :=
  kernel (<["new_sampler" := v]> (notebook_globals c)) l.

(** The kernel in which cells 2 to 6 have run, and nothing else. *)
Definition fresh_kernel {F : Framework} (c : config) (l : lib) : world :=
  kernel (notebook_globals c) l.

(** One epoch of one step, checkpoint after every epoch. *)
Definition single_step : config := {|
  batch_size := 128; vocab_threshold := 5; vocab_from_file := true;
  embed_size := 256; hidden_size := 512; num_epochs := 1; save_every := 1;
  print_every := 20; log_file := "training_log.txt";
  cocoapi_dir := "path/to/cocoapi/dir"; vocab_size := 9955;
  total_step := 1 |}.

Definition small : config := {|
  batch_size := 2; vocab_threshold := 5; vocab_from_file := true;
  embed_size := 4; hidden_size := 4; num_epochs := 2; save_every := 2;
  print_every := 2; log_file := "log.txt"; cocoapi_dir := "."; vocab_size := 7;
  total_step := 2 |}.

(** [small] with print_every = 0, with save_every = 0, and without epochs. *)
Definition small_print_never : config := {|
  batch_size := 2; vocab_threshold := 5; vocab_from_file := true;
  embed_size := 4; hidden_size := 4; num_epochs := 2; save_every := 2;
  print_every := 0; log_file := "log.txt"; cocoapi_dir := "."; vocab_size := 7;
  total_step := 2 |}.
Definition small_save_never : config := {|
  batch_size := 2; vocab_threshold := 5; vocab_from_file := true;
  embed_size := 4; hidden_size := 4; num_epochs := 2; save_every := 0;
  print_every := 2; log_file := "log.txt"; cocoapi_dir := "."; vocab_size := 7;
  total_step := 2 |}.

(** A validation loader of three pairs, two of them of the same image. *)
Definition small_loader : list (@tensor toy * @tensor toy) :=
  [([1], [4; 5]); ([2], [7]); ([1], [8; 9])].

(** The toy kernel with a stale [new_sampler], the fresh toy kernel with the
    notebook's own hyperparameters, the world cell 8 leaves when run in the
    stale one, and the world cell 13 leaves on [small_loader]. *)
Definition toy_world : @world toy :=
  @stale_kernel toy small (VSampler [5; 6]) 0%nat.
Definition toy_fresh : @world toy := @fresh_kernel toy hyperparameters 0%nat.
Definition toy_print_never : @world toy :=
  @stale_kernel toy small_print_never (VSampler [5; 6]) 0%nat.
Definition toy_save_never : @world toy :=
  @stale_kernel toy small_save_never (VSampler [5; 6]) 0%nat.
Definition toy_trained : @world toy := (@train toy small toy_world).2.
Definition toy_captioned : @world toy :=
  (@infer_captions toy small_loader toy_world).2.

(** The library calls of cell 12 on the toy framework: a new encoder starts
    the step count again, a state dict is the step count it was taken at, and
    loading one sets the count back to it. *)
Definition toy_new_encoder (embed : Z) (l : nat) : outcome unit * nat :=
  (Ret tt, 0%nat).
Definition toy_load_encoder (sd l : nat) : outcome unit * nat :=
  (Ret tt, (sd - 1000)%nat).
Definition toy_load_decoder (sd l : nat) : outcome unit * nat :=
  (Ret tt, sd).

Definition toy_reloading : Reloading toy :=
  @Build_Reloading toy
    (* val_get_loader *) (λ _ l, (Ret tt, l))
    (* EncoderCNN *) toy_new_encoder
    (* DecoderRNN *) (λ _ _ _ l, (Ret tt, l))
    (* encoder_to_device, decoder_to_device *) (λ l, l) (λ l, l)
    (* encoder_load_state_dict *) toy_load_encoder
    (* decoder_load_state_dict *) toy_load_decoder
    (* encoder_eval, decoder_eval *) (λ l, l) (λ l, l).

(** Three epochs of one step, one checkpoint at the end. *)
Definition three_epochs : config := {|
  batch_size := 2; vocab_threshold := 5; vocab_from_file := true;
  embed_size := 4; hidden_size := 4; num_epochs := 3; save_every := 3;
  print_every := 1; log_file := "log.txt"; cocoapi_dir := "."; vocab_size := 7;
  total_step := 1 |}.

Definition toy_three : @world toy :=
  @stale_kernel toy three_epochs (VSampler [5; 6]) 0%nat.
Definition toy_three_trained : @world toy := (@train toy three_epochs toy_three).2.

(** Python's floats and strings for small examples: the float x / 2 is the
    integer x, and lower() is the one of ASCII. *)
Definition ascii_lower (a : Ascii.ascii) : Ascii.ascii :=
  let n := Ascii.nat_of_ascii a in
  if decide (65 ≤ n ≤ 90)%nat then Ascii.ascii_of_nat (n + 32) else a.

Fixpoint string_lower (s : string) : string :=
  match s with
  | EmptyString => EmptyString
  | String a s => String (ascii_lower a) (string_lower s)
  end.

Definition toy_python : Pythonic := {|
  pyfl := Z;
  pyfl_eq_dec := Z.eq_dec;
  float_int := λ x, if Z.even x then Some (x `div` 2) else None;
  str_lower := string_lower;
|}.

(** A captions file of three annotations for two images, and one whose
    second annotation has no caption. *)
Definition annotation (id : @json toy_python) (s : string) : @json toy_python :=
  JObj {[ "image_id" := id; "caption" := JStr s ]}.

Definition small_annotations : list (@json toy_python) :=
  [annotation (JInt 7) "A Dog"; annotation (JInt 3) "A CAT";
   annotation (@JFloat toy_python 14) "Dog runs"].

Definition small_captions : gmap string (@json toy_python) :=
  {[ "annotations" := JArr small_annotations; "info" := JNull ]}.

Definition small_pairs : list (@key toy_python * string) :=
  [(KNum 7, "A Dog"); (KNum 3, "A CAT"); (KNum 7, "Dog runs")].


(** ** Tactics to run a cell *)

(** Unfolds the monad and the world's setters in [H]. *)
Ltac run_cell H :=
  cbv beta iota zeta delta
    [bind call try_call emit assign name lift ret raise
     py_write py_flush py_print py_mod with_file torch_save
     set_globals set_loader_sampler set_libst set_fobj set_files set_models
     set_pred_result set_stdout set_trace
     globals loader_sampler libst fobj files models pred_result stdout trace
     fo_path fo_buffer fo_closed open_file fst snd] in H.

(** Case analysis on the next library call, name lookup or test of [H]. *)
Ltac next_call H :=
  match type of H with
  | context [get_train_indices ?l] =>
    destruct (get_train_indices l) as [? ?] eqn:?
  | context [next_batch ?v ?l] =>
    destruct (next_batch v l) as [[[? ?]|?] ?] eqn:?
  | context [encoder_forward ?x ?l] =>
    destruct (encoder_forward x l) as [[?|?] ?] eqn:?
  | context [decoder_forward ?x ?y ?l] =>
    destruct (decoder_forward x y l) as [[?|?] ?] eqn:?
  | context [view ?x ?sh] =>
    destruct (view x sh) as [?|?] eqn:?
  | context [criterion ?x ?y ?l] =>
    destruct (criterion x y l) as [[?|?] ?] eqn:?
  | context [backward ?x ?l] =>
    destruct (backward x l) as [[[]|?] ?] eqn:?
  | context [optimizer_step ?l] =>
    destruct (optimizer_step l) as [[[]|?] ?] eqn:?
  | context [decoder_sample ?x ?l] =>
    destruct (decoder_sample x l) as [[?|?] ?] eqn:?
  | context [@lookup string value _ _ ?k ?m] =>
    destruct (@lookup string value _ _ k m) eqn:?
  | context [decide (?a = ?b)] =>
    destruct (decide (a = b))
  end; run_cell H.

(** * Properties *)

Lemma append_cons (a : Ascii.ascii) (s t : string) :
  String a s +:+ t = String a (s +:+ t).
Proof. reflexivity. Qed.

Lemma append_nil_r (s : string) : s +:+ "" = s.
Proof. induction s as [|a s IH]; [done|]. by rewrite append_cons, IH. Qed.


Lemma append_length (s1 s2 : string) :
  String.length (s1 +:+ s2) = (String.length s1 + String.length s2)%nat.
Proof.
  induction s1 as [|a s1 IH]; [done|].
  rewrite append_cons. simpl. by rewrite IH.
Qed.

Lemma append_cancel_r (s1 s2 t : string) : s1 +:+ t = s2 +:+ t → s1 = s2.
Proof.
  revert s2. induction s1 as [|a s1 IH]; intros [|b s2] H.
  - done.
  - apply (f_equal String.length) in H.
    rewrite !append_length in H. simpl in H. lia.
  - apply (f_equal String.length) in H.
    rewrite !append_length in H. simpl in H. lia.
  - rewrite !append_cons in H. injection H as -> H. f_equal. by apply IH.
Qed.

(** The formats on concrete values: a status line, and the checkpoint names
    of epoch 3. *)
Example stats_template_20 :
  stats_template 3 3 20 3236 "2.1234" "8.3597" =
  "Epoch [3/3], Step [20/3236], Loss: 2.1234, Perplexity: 8.3597".
Proof. vm_compute. reflexivity. Qed.

Example checkpoint_paths_3 :
  decoder_path 3 = "./models/decoder-3.pkl" ∧
  encoder_path 3 = "./models/encoder-3.pkl".
Proof. split; vm_compute; reflexivity. Qed.

Section TrainingLoop.
Context {F : Framework}.

(** One pass of the loop body, seen from the log file. *)
Lemma training_step_log c e i w o w' p :
  training_step c e i w = (o, w') →
  fobj w = Some (open_file p) →
  ∃ t, trace w' = trace w ++ t ∧ saves t = [] ∧ models w' = models w ∧
       fobj w' = Some (open_file p) ∧
       ((∃ loss,
           computed_loss loss ∧
           file_events t = [EvWrite (log_line c (e, i, loss)); EvFlush] ∧
           files w' = <[p := default "" (files w !! p) +:+ log_line c (e, i, loss)]> (files w) ∧
           (o = Ret tt ∨ o = Raise ZeroDivisionError))
        ∨ (file_events t = [] ∧ files w' = files w ∧ ∃ x, o = Raise x)).
Proof.
  intros H Hf.
  destruct w as [g smp l fo fs ms pr out tr]. simpl in Hf. subst fo.
  unfold training_step in H. run_cell H.
  repeat next_call H.
  all: simplify_eq; simpl; rewrite <- ?app_assoc; simpl.
  all: eexists; split; [reflexivity|].
  all: split; [reflexivity|]; split; [reflexivity|]; split; [reflexivity|].
  all: try (right; split; [reflexivity|]; split; [reflexivity|]; eauto; fail).
  all: left; eexists; split; [unfold computed_loss; eauto 10|].
  all: split; [reflexivity|]; split; [reflexivity|]; eauto.
Qed.

(** The loop body when the kernel has no binding for [new_sampler]: the
    indices are sampled and bound, the lookup raises. *)
Lemma training_step_unbound c e i w :
  globals w !! "new_sampler" = None →
  training_step c e i w =
    let '(idx, l) := get_train_indices (libst w) in
    (Raise (NameError "new_sampler"),
     set_globals (<["new_saosmpler" := VSampler idx]>
                    (<["indices" := VIndices idx]> (globals w)))
       (set_trace (trace w ++ [EvGetIndices idx]) (set_libst l w))).
Proof.
  intros Hg. unfold training_step.
  cbv beta iota zeta delta [bind call emit assign name].
  destruct (get_train_indices (libst w)) as [idx l]. simpl.
  rewrite !lookup_insert_ne by done. by rewrite Hg.
Qed.

(** The loop body when [new_sampler] is bound, to [v]: the loader's sampler
    becomes [v], not the sampler over the indices just drawn, and the batch
    is fetched under [v]. *)
Lemma training_step_bound c e i w o w' v :
  globals w !! "new_sampler" = Some v →
  training_step c e i w = (o, w') →
  loader_sampler w' = v ∧
  ∃ t, trace w' =
       trace w ++ EvGetIndices (get_train_indices (libst w)).1
               :: EvSetSampler v :: EvNextBatch v :: t.
Proof.
  intros Hg H.
  destruct w as [g smp l fo fs ms pr out tr]. simpl in Hg.
  unfold training_step in H. run_cell H.
  assert (Hl : ∀ a, <["new_saosmpler":=VSampler a]> (<["indices":=VIndices a]> g)
                    !! "new_sampler" = Some v)
    by (intros a; by rewrite !lookup_insert_ne by done).
  destruct (get_train_indices l) as [idx l0] eqn:Hi. run_cell H.
  rewrite Hl in H. run_cell H.
  destruct (next_batch v l0) as [[[? ?]|?] ?] eqn:?; run_cell H;
    [|simplify_eq; simpl; rewrite Hi; split; [done|]; eexists;
      rewrite <- !app_assoc; simpl; reflexivity].
  destruct fo as [[q b [|]]|]; run_cell H; repeat next_call H.
  all: simplify_eq; simpl; rewrite Hi; (split; [done|]).
  all: rewrite <- ?app_assoc; simpl; eexists; reflexivity.
Qed.

(** The loop body when [new_sampler] is bound and no library call raises:
    it returns, and leaves [new_sampler] as it was. *)
Lemma training_step_returns c e i w o w' v p :
  training_step c e i w = (o, w') →
  globals w !! "new_sampler" = Some v →
  library_returns v →
  fobj w = Some (open_file p) →
  print_every c ≠ 0 →
  o = Ret tt ∧ globals w' !! "new_sampler" = Some v.
Proof.
  intros H Hg [Hb He Hd Hv Hc Hbw Hs] Hf Hpe.
  destruct w as [g smp l fo fs ms pr out tr]. simpl in Hg, Hf. subst fo.
  assert (Hl : ∀ a, <["new_saosmpler":=VSampler a]> (<["indices":=VIndices a]> g)
                    !! "new_sampler" = Some v)
    by (intros a; by rewrite !lookup_insert_ne by done).
  unfold training_step in H. run_cell H.
  destruct (get_train_indices l) as [idx l0] eqn:Hi. run_cell H.
  rewrite Hl in H. run_cell H.
  repeat next_call H.
  all: try match goal with
    | E : next_batch _ ?l = (Raise _, _) |- _ =>
      destruct (Hb l) as (? & ? & E'); congruence
    | E : encoder_forward ?x ?l = (Raise _, _) |- _ =>
      destruct (He x l) as (? & ? & E'); congruence
    | E : decoder_forward ?x ?y ?l = (Raise _, _) |- _ =>
      destruct (Hd x y l) as (? & ? & E'); congruence
    | E : view ?x ?sh = Raise _ |- _ =>
      destruct (Hv x sh) as (? & E'); congruence
    | E : criterion ?x ?y ?l = (Raise _, _) |- _ =>
      destruct (Hc x y l) as (? & ? & E'); congruence
    | E : backward ?x ?l = (Raise _, _) |- _ =>
      destruct (Hbw x l) as (? & ? & E'); congruence
    | E : optimizer_step ?l = (Raise _, _) |- _ =>
      destruct (Hs l) as (? & ? & E'); congruence
    end.
  all: simplify_eq; simpl; (split; [done|]).
  all: by rewrite !lookup_insert_ne by done.
Qed.

(** The steps of one epoch, seen from the log file. *)
Lemma epoch_steps_log c e p steps : ∀ w o w' txt,
  for_each steps (λ i_step,
    assign "i_step" (VInt i_step) >> training_step c e i_step) w = (o, w') →
  fobj w = Some (open_file p) →
  files w !! p = Some txt →
  ∃ (done : list (Z * Z * tensor)) t,
    trace w' = trace w ++ t ∧ saves t = [] ∧ models w' = models w ∧
    fobj w' = Some (open_file p) ∧
    file_events t = log_events c done ∧
    files w' !! p = Some (log_text c txt done) ∧
    done.*1 `prefix_of` ((λ s, (e, s)) <$> steps) ∧
    Forall (λ d, computed_loss d.2) done ∧
    (o = Ret tt → done.*1 = (λ s, (e, s)) <$> steps).
Proof.
  induction steps as [|i rest IH]; intros w o w' txt H Hf Hp.
  - cbv in H. simplify_eq. exists [], []. rewrite app_nil_r.
    repeat split; try done.
  - simpl in H. unfold bind at 1 in H. unfold bind at 1 in H.
    unfold assign at 1 in H.
    destruct (training_step c e i _) as [o1 w1] eqn:Hs.
    apply (training_step_log _ _ _ _ _ _ p) in Hs; [|done].
    destruct Hs as (t1 & Ht1 & Hs1 & Hm1 & Hf1 & Hcase). simpl in *.
    destruct Hcase as [(loss & Hloss & Hfe & Hfs & Ho)|(Hfe & Hfs & x & ->)].
    + assert (Hp1 : files w1 !! p = Some (txt +:+ log_line c (e, i, loss))).
      { rewrite Hfs, lookup_insert_eq, Hp. done. }
      destruct Ho as [->| ->].
      * destruct (IH _ _ _ _ H Hf1 Hp1)
          as (done & t & Ht & Hs & Hm & Hf' & Hfe' & Hp' & Hpre & Hcl & Hall).
        exists ((e, i, loss) :: done), (t1 ++ t).
        rewrite Ht, Ht1, app_assoc. unfold saves, file_events in *.
        rewrite omap_app, List.filter_app, Hs1, Hs, Hfe, Hfe', Hm, Hm1.
        split_and!; try done.
        -- simpl. by apply prefix_cons.
        -- by constructor.
        -- intros Ho. rewrite !fmap_cons. f_equal. by apply Hall.
      * simplify_eq. exists [(e, i, loss)], t1.
        split_and!; try done.
        -- simpl. apply prefix_cons, prefix_nil.
        -- by repeat constructor.
    + simplify_eq. exists [], t1. rewrite Hfs.
      split_and!; try done. apply prefix_nil.
Qed.

(** The block that saves the weights. *)
Lemma save_weights_run c e w :
  save_weights c e w =
    if decide (save_every c = 0) then (Raise ZeroDivisionError, w)
    else if decide (e `mod` save_every c = 0) then
      (Ret tt,
       set_models (store [(decoder_path e, decoder_state_dict (libst w));
                          (encoder_path e, encoder_state_dict (libst w))]
                     (models w))
         (set_trace (trace w ++ [EvSave (decoder_path e) (decoder_state_dict (libst w));
                                 EvSave (encoder_path e) (encoder_state_dict (libst w))])
            w))
    else (Ret tt, w).
Proof.
  unfold save_weights, py_mod, bind. destruct w.
  destruct (decide (save_every c = 0)); [done|].
  unfold ret. destruct (decide (e `mod` save_every c = 0)); [|done].
  cbv beta iota zeta delta [bind torch_save emit set_trace set_models store
    trace models libst globals loader_sampler fobj files pred_result stdout].
  simpl. by rewrite <- app_assoc.
Qed.

(** One epoch, seen from the log file and the [./models] directory. *)
Lemma training_epoch_log c e p w o w' txt :
  training_epoch c e w = (o, w') →
  fobj w = Some (open_file p) →
  files w !! p = Some txt →
  ∃ (done : list (Z * Z * tensor)) t,
    trace w' = trace w ++ t ∧
    fobj w' = Some (open_file p) ∧
    file_events t = log_events c done ∧
    files w' !! p = Some (log_text c txt done) ∧
    done.*1 `prefix_of` steps_of c e ∧
    Forall (λ d, computed_loss d.2) done ∧
    models w' = store (saves t) (models w) ∧
    ((o = Ret tt ∧ done.*1 = steps_of c e ∧
      saves t = checkpoints c [(e, libst w')])
     ∨ ((∃ x, o = Raise x) ∧ saves t = [])).
Proof.
  unfold training_epoch. intros H Hf Hp.
  unfold bind at 1 in H. unfold assign at 1 in H.
  unfold bind at 1 in H.
  destruct (for_each _ _ _) as [o1 w1] eqn:Hloop.
  eapply epoch_steps_log in Hloop; [|done..].
  destruct Hloop as (done & t & Ht & Hs & Hm & Hf' & Hfe & Hp' & Hpre & Hcl & Hall).
  simpl in *. destruct o1 as [[]|x].
  - rewrite save_weights_run in H.
    destruct (decide (save_every c = 0)).
    { simplify_eq. exists done, t. rewrite Hs. repeat split; eauto. }
    destruct (decide (e `mod` save_every c = 0)) as [Hmod|Hmod]; simplify_eq.
    + exists done, (t ++ [EvSave (decoder_path e) (decoder_state_dict (libst w1));
                          EvSave (encoder_path e) (encoder_state_dict (libst w1))]).
      simpl.
      rewrite Ht, <- app_assoc. unfold saves, file_events in *.
      rewrite omap_app, List.filter_app, Hs, Hfe, Hm. simpl.
      rewrite ?app_nil_r.
      repeat split; try done. left. repeat split; auto.
    + exists done, t. rewrite Hs. repeat split; try done.
      left. repeat split; auto.
  - simplify_eq. exists done, t. rewrite Hs. repeat split; eauto.
Qed.

(** The epochs of a run, seen from the log file and the [./models]
    directory. *)
Lemma epochs_log c p epochs : ∀ w o w' txt,
  for_each epochs (training_epoch c) w = (o, w') →
  fobj w = Some (open_file p) →
  files w !! p = Some txt →
  ∃ (done : list (Z * Z * tensor)) (eps : list (Z * lib)) t,
    trace w' = trace w ++ t ∧
    fobj w' = Some (open_file p) ∧
    file_events t = log_events c done ∧
    files w' !! p = Some (log_text c txt done) ∧
    done.*1 `prefix_of` (epochs ≫= steps_of c) ∧
    Forall (λ d, computed_loss d.2) done ∧
    eps.*1 `prefix_of` epochs ∧
    saves t = checkpoints c eps ∧
    models w' = store (saves t) (models w) ∧
    (o = Ret tt → done.*1 = epochs ≫= steps_of c ∧ eps.*1 = epochs).
Proof.
  induction epochs as [|e rest IH]; intros w o w' txt H Hf Hp.
  - cbv in H. simplify_eq. exists [], [], []. rewrite app_nil_r.
    repeat split; done.
  - simpl in H. unfold bind at 1 in H.
    destruct (training_epoch c e w) as [o1 w1] eqn:He.
    eapply training_epoch_log in He; [|done..].
    destruct He as (d1 & t1 & Ht1 & Hf1 & Hfe1 & Hp1 & Hpre1 & Hcl1 & Hm1 & Hcase).
    destruct Hcase as [(-> & Hall1 & Hs1)|((x & ->) & Hs1)].
    + destruct (IH _ _ _ _ H Hf1 Hp1)
        as (d2 & eps & t2 & Ht2 & Hf2 & Hfe2 & Hp2 & Hpre2 & Hcl2 & Hpe & Hs2
            & Hm2 & Hall2).
      exists (d1 ++ d2), ((e, libst w1) :: eps), (t1 ++ t2).
      rewrite Ht2, Ht1, app_assoc. unfold saves, file_events in *.
      rewrite omap_app, List.filter_app, Hfe1, Hfe2, Hs1, Hs2, Hm2, Hm1, Hs1.
      unfold log_events, log_text, store, checkpoints in *.
      rewrite !bind_app, !foldl_app, fmap_app, Hall1. simpl.
      rewrite app_nil_r.
      split_and!; try done.
      * by apply prefix_app.
      * by apply Forall_app.
      * by apply prefix_cons.
      * by rewrite Hs2.
      * intros Ho. destruct (Hall2 Ho) as [E1 E2].
        split; f_equal; [exact E1 | exact E2].
    + simplify_eq. exists d1, [], t1. rewrite Hs1.
      split_and!; try done.
      * simpl. by apply prefix_app_r.
      * apply prefix_nil.
      * by rewrite Hm1, Hs1.
Qed.

(** The whole cell: what a run from the world [w] leaves behind, whether it
    returns or raises. *)
Lemma train_summary c w o w' :
  train c w = (o, w') →
  ∃ (done : list (Z * Z * tensor)) (eps : list (Z * lib)) t,
    trace w' = trace w ++ EvOpen (log_file c) :: t ++ closing o ∧
    file_events t = log_events c done ∧
    saves t = checkpoints c eps ∧
    files w' !! log_file c = Some (log_text c "" done) ∧
    fobj w' = Some {| fo_path := log_file c; fo_buffer := "";
                      fo_closed := if o is Ret _ then true else false |} ∧
    models w' = store (checkpoints c eps) (models w) ∧
    done.*1 `prefix_of` schedule c ∧
    Forall (λ d, computed_loss d.2) done ∧
    eps.*1 `prefix_of` py_range 1 (num_epochs c + 1) ∧
    (o = Ret tt →
     done.*1 = schedule c ∧ eps.*1 = py_range 1 (num_epochs c + 1)).
Proof.
  unfold train. intros H.
  unfold bind at 1 in H.
  destruct (py_open (log_file c) w) as [o0 w0] eqn:Hopen.
  assert (o0 = Ret tt ∧ trace w0 = trace w ++ [EvOpen (log_file c)] ∧
          fobj w0 = Some (open_file (log_file c)) ∧
          files w0 !! log_file c = Some "" ∧ models w0 = models w)
    as (-> & Ht0 & Hf0 & Hp0 & Hm0).
  { destruct w. cbv beta iota zeta delta [py_open bind emit assign set_trace
      set_fobj set_files set_globals trace fobj files models globals
      loader_sampler libst pred_result stdout] in Hopen.
    simplify_eq. simpl. by rewrite lookup_insert_eq. }
  unfold bind at 1 in H.
  destruct (for_each _ _ w0) as [o1 w1] eqn:Hloop.
  eapply epochs_log in Hloop; [|done..].
  destruct Hloop as (done & eps & t & Ht & Hf & Hfe & Hp & Hpre & Hcl & Hpe & Hs
                     & Hm & Hall).
  exists done, eps, t. rewrite Hs, Hm0 in Hm.
  destruct o1 as [[]|x].
  - unfold py_close in H. rewrite Hf in H. simpl in H.
    cbv beta iota zeta delta [bind emit] in H. simplify_eq. simpl.
    rewrite Ht, Ht0, <- !app_assoc. simpl.
    unfold flush_to_disk. simpl. rewrite lookup_insert_eq, Hp. simpl.
    rewrite append_nil_r. split_and!; done.
  - simplify_eq. simpl. rewrite Ht, Ht0, <- !app_assoc, app_nil_r. simpl.
    split_and!; done.
Qed.

(** When [new_sampler] is bound, no library call raises and neither
    [print_every] nor [save_every] is 0, the loops run to their end. *)
Lemma epoch_steps_return c e p v steps : ∀ w o w',
  for_each steps (λ i_step,
    assign "i_step" (VInt i_step) >> training_step c e i_step) w = (o, w') →
  globals w !! "new_sampler" = Some v →
  library_returns v →
  fobj w = Some (open_file p) →
  print_every c ≠ 0 →
  o = Ret tt ∧ globals w' !! "new_sampler" = Some v ∧
  fobj w' = Some (open_file p).
Proof.
  induction steps as [|i rest IH]; intros w o w' H Hg Hlib Hf Hpe.
  - cbv in H. by simplify_eq.
  - simpl in H. unfold bind at 1 in H. unfold bind at 1 in H.
    unfold assign at 1 in H.
    destruct (training_step c e i _) as [o1 w1] eqn:Hs.
    pose proof (training_step_log _ _ _ _ _ _ p Hs Hf)
      as (_ & _ & _ & _ & Hf1 & _).
    eapply training_step_returns in Hs as [-> Hg1]; [|simpl|done..].
    + by apply (IH w1).
    + by rewrite lookup_insert_ne.
Qed.




Lemma new_events_app w w' t : trace w' = trace w ++ t → new_events w w' = t.
Proof. intros H. unfold new_events. by rewrite H, drop_app_length. Qed.



Lemma writes_app t1 t2 : writes (t1 ++ t2) = writes t1 ++ writes t2.
Proof. apply omap_app. Qed.

Lemma writes_closing o : writes (closing o) = [].
Proof. by destruct o. Qed.






Lemma unflushed_file_events t buf :
  foldl buffer_step buf (file_events t) = foldl buffer_step buf t.
Proof.
  revert buf. induction t as [|ev t IH]; intros buf; [done|].
  destruct ev; simpl; by rewrite IH.
Qed.

Lemma prefix_file_events t1 t2 :
  t1 `prefix_of` t2 → file_events t1 `prefix_of` file_events t2.
Proof.
  intros [k ->]. unfold file_events. rewrite List.filter_app.
  by apply prefix_app_r.
Qed.

Lemma unflushed_log_events c done tail q :
  (tail = [] ∨ tail = [EvClose]) →
  q `prefix_of` log_events c done ++ tail →
  (length (foldl buffer_step [] q) ≤ 1)%nat.
Proof.
  intros Htail. revert q. induction done as [|d ds IH]; intros q Hq.
  - simpl in Hq. destruct Htail as [-> | ->].
    + apply prefix_nil_inv in Hq as ->. simpl. lia.
    + destruct q as [|a q]; [simpl; lia|].
      apply prefix_cons_inv_1 in Hq as Ha. apply prefix_cons_inv_2 in Hq.
      apply prefix_nil_inv in Hq as ->. subst a. simpl. lia.
  - change (log_events c (d :: ds) ++ tail)
      with (EvWrite (log_line c d) :: EvFlush :: log_events c ds ++ tail) in Hq.
    destruct q as [|a q]; [simpl; lia|].
    apply prefix_cons_inv_1 in Hq as Ha. apply prefix_cons_inv_2 in Hq.
    subst a. destruct q as [|b q]; [simpl; lia|].
    apply prefix_cons_inv_1 in Hq as Hb. apply prefix_cons_inv_2 in Hq.
    subst b. simpl. by apply IH.
Qed.

Lemma opens_closes_file_events t :
  opens (file_events t) = opens t ∧ closes (file_events t) = closes t.
Proof.
  unfold opens, closes, file_events.
  induction t as [|ev t [IH1 IH2]]; [done|].
  destruct ev; simpl; rewrite ?IH1, ?IH2; done.
Qed.

Lemma opens_closes_app t1 t2 :
  opens (t1 ++ t2) = (opens t1 + opens t2)%nat ∧
  closes (t1 ++ t2) = (closes t1 + closes t2)%nat.
Proof. unfold opens, closes. by rewrite !List.filter_app, !length_app. Qed.

Lemma opens_closes_log_events c done :
  opens (log_events c done) = 0%nat ∧ closes (log_events c done) = 0%nat.
Proof. induction done as [|d ds IH]; [done|]. exact IH. Qed.

(** C9. The events of a run on the log file are: open(log_file, "w") as the
    very first event of the cell, and no other open; then, for each step that
    reached the log, one write immediately followed by one flush; and
    f.close() as the very last event of a run that returns, and not at all in
    a run that raises.  A run that returns has logged every step of every
    epoch before it closes.  At every moment of the run at most one written
    line is not yet flushed, and at its end none is. *)
Theorem log_file_lifecycle c w o w' :
  train c w = (o, w') →
  ∃ (done : list (Z * Z * tensor)) t,
    new_events w w' = EvOpen (log_file c) :: t ++ closing o ∧
    file_events t = log_events c done ∧
    opens (new_events w w') = 1%nat ∧
    closes (new_events w w') = (if o is Ret _ then 1 else 0)%nat ∧
    (o = Ret tt → done.*1 = schedule c) ∧
    (∀ t1, t1 `prefix_of` new_events w w' → (length (unflushed t1) ≤ 1)%nat) ∧
    unflushed (new_events w w') = [] ∧
    fobj w' = Some {| fo_path := log_file c; fo_buffer := "";
                      fo_closed := if o is Ret _ then true else false |}.
Proof.
  intros H. apply train_summary in H.
  destruct H as (done & eps & t & Ht & Hfe & _ & _ & Hf & _ & _ & _ & _ & Hall).
  exists done, t. rewrite (new_events_app _ _ _ Ht).
  assert (Hall' : file_events (EvOpen (log_file c) :: t ++ closing o) =
                  EvOpen (log_file c) :: log_events c done ++ closing o).
  { unfold file_events in *. simpl. rewrite List.filter_app, Hfe.
    by destruct o. }
  assert (Hb : ∀ t1, t1 `prefix_of` EvOpen (log_file c) :: t ++ closing o →
                     (length (unflushed t1) ≤ 1)%nat).
  { intros t1 Hpre. apply prefix_file_events in Hpre. rewrite Hall' in Hpre.
    unfold unflushed. rewrite <- unflushed_file_events.
    destruct (file_events t1) as [|a q]; [simpl; lia|].
    apply prefix_cons_inv_1 in Hpre as Ha. apply prefix_cons_inv_2 in Hpre.
    subst a. simpl.
    eapply unflushed_log_events; [|exact Hpre]. destruct o; auto. }
  split_and!; [done|done| | |by intros Ho''; apply Hall|done| |done].
  - rewrite <- (proj1 (opens_closes_file_events _)), Hall'.
    change (S (opens (log_events c done ++ closing o)) = 1%nat).
    rewrite (proj1 (opens_closes_app _ _)), (proj1 (opens_closes_log_events _ _)).
    by destruct o.
  - rewrite <- (proj2 (opens_closes_file_events _)), Hall'.
    change (closes (log_events c done ++ closing o) =
            (if o is Ret _ then 1 else 0)%nat).
    rewrite (proj2 (opens_closes_app _ _)), (proj2 (opens_closes_log_events _ _)).
    by destruct o.
  - unfold unflushed. rewrite <- unflushed_file_events, Hall'. simpl.
    clear. induction done as [|d ds IH]; [by destruct o|]. exact IH.
Qed.


Lemma encoder_path_inj e1 e2 : encoder_path e1 = encoder_path e2 → e1 = e2.
Proof.
  unfold encoder_path, path_join. intros H.
  do 3 apply String.app_inj in H.
  apply append_cancel_r in H. by apply pretty_Z_inj.
Qed.


Lemma py_range_cons lo hi : lo < hi → py_range lo hi = lo :: py_range (lo + 1) hi.
Proof.
  intros Hlt. unfold py_range. rewrite seqZ_cons by lia.
  do 2 f_equal; lia.
Qed.

(** The whole cell in a kernel that has no binding for [new_sampler], when
    there is at least one step to run. *)
Lemma train_unbound c w :
  globals w !! "new_sampler" = None →
  1 ≤ num_epochs c → 1 ≤ total_step c →
  train c w =
    let '(idx, l) := get_train_indices (libst w) in
    (Raise (NameError "new_sampler"),
     {| globals :=
          <["new_saosmpler" := VSampler idx]>
            (<["indices" := VIndices idx]>
               (<["i_step" := VInt 1]>
                  (<["epoch" := VInt 1]>
                     (<["f" := VFile (log_file c)]> (globals w)))));
        loader_sampler := loader_sampler w;
        libst := l;
        fobj := Some (open_file (log_file c));
        files := <[log_file c := ""]> (files w);
        models := models w;
        pred_result := pred_result w;
        stdout := stdout w;
        trace := trace w ++ [EvOpen (log_file c); EvGetIndices idx] |}).
Proof.
  intros Hg HE HS. unfold train, training_epoch.
  rewrite (py_range_cons 1 (num_epochs c + 1)) by lia.
  rewrite (py_range_cons 1 (total_step c + 1)) by lia.
  destruct w as [g smp l0 fo fs ms pr out tr]. cbn [globals] in Hg.
  cbn [for_each]. unfold py_open.
  cbv beta iota zeta delta [bind emit assign set_globals set_trace set_fobj
    set_files globals trace fobj files loader_sampler libst models
    pred_result stdout].
  rewrite training_step_unbound.
  2:{ cbn [globals]. by rewrite !lookup_insert_ne by done. }
  cbn [libst globals trace set_globals set_trace set_libst loader_sampler
       fobj files models pred_result stdout].
  destruct (get_train_indices l0) as [idx l].
  by rewrite <- app_assoc.
Qed.

(** Cells 2 to 6 do not bind [new_sampler]. *)
Lemma notebook_globals_unbound c : notebook_globals c !! "new_sampler" = None.
Proof.
  unfold notebook_globals. apply not_elem_of_list_to_map_1.
  apply (bool_decide_unpack _). vm_compute. reflexivity.
Qed.

(** C10. Cells 2 to 6 leave [new_sampler] unbound, and in every kernel
    where it is unbound, with at least one epoch and one step: the first step
    binds the sampler over the sampled indices to [new_saosmpler],
    [new_sampler] stays unbound, and the cell raises NameError for it.  By
    then the log file has been created, or emptied, and only the indices have
    been drawn: no batch was fetched, nothing was written, optimizer.step()
    was not called, no checkpoint was saved. *)
Theorem name_error_on_first_step c w :
  globals w !! "new_sampler" = None →
  1 ≤ num_epochs c → 1 ≤ total_step c →
  let idx := (get_train_indices (libst w)).1 in
  notebook_globals c !! "new_sampler" = None ∧
  ∃ w', train c w = (Raise (NameError "new_sampler"), w') ∧
    globals w' !! "new_saosmpler" = Some (VSampler idx) ∧
    globals w' !! "new_sampler" = None ∧
    new_events w w' = [EvOpen (log_file c); EvGetIndices idx] ∧
    batches (new_events w w') = 0%nat ∧
    writes (new_events w w') = [] ∧
    optimizer_steps (new_events w w') = 0%nat ∧
    saves (new_events w w') = [] ∧
    files w' = <[log_file c := ""]> (files w) ∧
    fobj w' = Some (open_file (log_file c)) ∧
    models w' = models w.
Proof.
  intros Hn HE HS idx. subst idx.
  split; [apply notebook_globals_unbound|].
  rewrite (train_unbound c w Hn HE HS).
  destruct (get_train_indices (libst w)) as [idx l'].
  eexists. split; [reflexivity|].
  cbn [globals trace files fobj models fst].
  rewrite (new_events_app w _ [EvOpen (log_file c); EvGetIndices idx])
    by reflexivity.
  split_and!; try reflexivity.
  - by rewrite lookup_insert_eq.
  - by rewrite !lookup_insert_ne by done.
Qed.

(** C1, on the code as written.  With one epoch of one step in the
    notebook's own kernel, the first iteration stops at the NameError: no
    batch is fetched, the encoder is not called, no loss is computed, nothing
    is backpropagated, optimizer.step() is not called, and nothing is
    logged or saved. *)
Theorem first_iteration_stops_before_the_batch (l : lib) :
  let r := train single_step (fresh_kernel single_step l) in
  r.1 = Raise (NameError "new_sampler") ∧
  batches (trace r.2) = 0%nat ∧
  encoder_calls (trace r.2) = [] ∧
  optimizer_steps (trace r.2) = 0%nat ∧
  writes (trace r.2) = [] ∧
  saves (trace r.2) = [].
Proof.
  intros r. subst r.
  rewrite (train_unbound single_step (fresh_kernel single_step l)
             (notebook_globals_unbound single_step)) by done.
  cbn [fresh_kernel kernel libst trace].
  destruct (get_train_indices l) as [idx l']. by cbn.
Qed.

End TrainingLoop.

Section ValidationPass.
Context {F : Framework}.

(** The loop body of cell 13 on one pair. *)
Lemma infer_caption_run id img w o w' :
  infer_caption (id, img) w = (o, w') →
  (∃ encoded output l1,
     encoder_forward (to_device img) (libst w) = (Ret encoded, l1) ∧
     decoder_sample (unsqueeze encoded 1) l1 = (Ret output, libst w') ∧
     o = Ret tt ∧
     trace w' = trace w ++ [EvEncoder (to_device img);
                            EvSample (unsqueeze encoded 1)] ∧
     pred_result w' = dict_append (item_int id) (clean_sentence output idx2word)
                        (pred_result w))
  ∨ ((∃ x, o = Raise x) ∧ pred_result w' = pred_result w ∧
     ∃ t, trace w' = trace w ++ EvEncoder (to_device img) :: t ∧
          encoder_calls t = [] ∧ (length (sample_calls t) ≤ 1)%nat).
Proof.
  intros H. destruct w as [g smp l fo fs ms pr out tr].
  unfold infer_caption in H.
  cbv beta iota zeta delta [bind try_call emit assign set_trace set_libst
    set_globals set_pred_result globals loader_sampler libst fobj files
    models pred_result stdout trace] in H.
  destruct (encoder_forward (to_device img) l) as [[encoded|x] l1] eqn:He;
    cbv beta iota zeta in H.
  - destruct (decoder_sample (unsqueeze encoded 1) l1) as [[output|x] l2] eqn:Hs;
      cbv beta iota zeta in H; simplify_eq; cbn.
    + left. exists encoded, output, l1. by rewrite <- app_assoc.
    + right. split; [eauto|]. split; [done|].
      exists [EvSample (unsqueeze encoded 1)]. by rewrite <- app_assoc.
  - simplify_eq. cbn. right. split; [eauto|]. split; [done|].
    exists []. cbn. auto.
Qed.

Lemma caption_count_append k s d :
  caption_count (dict_append k s d) = S (caption_count d).
Proof.
  unfold caption_count, dict_append.
  destruct (d !! k) as [l|] eqn:Hk; simpl.
  - rewrite <- (insert_delete_eq d k (l ++ [s])).
    rewrite <- (insert_id d k l Hk) at 2.
    rewrite <- (insert_delete_eq d k l).
    rewrite !map_fold_insert_L;
      [|intros; lia|apply lookup_delete_eq|intros; lia|apply lookup_delete_eq].
    rewrite length_app. simpl. lia.
  - rewrite map_fold_insert_L; [done|intros; lia|done].
Qed.

Lemma caption_count_collect caps d :
  caption_count (collect caps d) = (caption_count d + length caps)%nat.
Proof.
  revert d. induction caps as [|r caps IH]; intros d; simpl; [lia|].
  unfold collect in *. simpl. rewrite IH, caption_count_append. lia.
Qed.

Lemma collect_lookup caps d k :
  default [] (collect caps d !! k) =
  default [] (d !! k) ++
    (c_sentence <$> filter (λ r, item_int (c_id r) = k) caps).
Proof.
  revert d. induction caps as [|r caps IH]; intros d; simpl.
  - by rewrite app_nil_r.
  - unfold collect in *. simpl. rewrite IH. unfold dict_append.
    rewrite filter_cons. destruct (decide (item_int (c_id r) = k)) as [->|Hne].
    + rewrite lookup_insert_eq. simpl. by rewrite <- app_assoc.
    + by rewrite lookup_insert_ne.
Qed.

(** The loop body returns when the encoder and the sampling do. *)
Lemma infer_caption_returns it w o w' :
  (∀ x, returns (encoder_forward x)) →
  (∀ x, returns (decoder_sample x)) →
  infer_caption it w = (o, w') → o = Ret tt.
Proof.
  intros He Hs H. destruct it as [id img].
  destruct w as [g smp l fo fs ms pr out tr].
  unfold infer_caption in H.
  cbv beta iota zeta delta [bind try_call emit assign set_trace set_libst
    set_globals set_pred_result globals loader_sampler libst fobj files
    models pred_result stdout trace] in H.
  destruct (He (to_device img) l) as (encoded & l1 & E1).
  rewrite E1 in H. cbv beta iota zeta in H.
  destruct (Hs (unsqueeze encoded 1) l1) as (output & l2 & E2).
  rewrite E2 in H. cbv beta iota zeta in H. by simplify_eq.
Qed.

Lemma infer_loop_returns loader : ∀ w o w',
  (∀ x, returns (encoder_forward x)) →
  (∀ x, returns (decoder_sample x)) →
  for_each loader infer_caption w = (o, w') → o = Ret tt.
Proof.
  induction loader as [|it rest IH]; intros w o w' He Hs H.
  - cbv in H. by simplify_eq.
  - cbn [for_each] in H. unfold bind at 1 in H.
    destruct (infer_caption it w) as [o1 w1] eqn:H1.
    apply infer_caption_returns in H1 as ->; [|done..].
    by apply (IH w1 o w').
Qed.

(** The loop of cell 13 from any world. *)
Lemma infer_loop loader : ∀ w o w',
  for_each loader infer_caption w = (o, w') →
  ∃ (caps : list captioned) (failed : list (tensor * tensor))
    (extra : list tensor) t,
    trace w' = trace w ++ t ∧
    (c_pair <$> caps) ++ failed `prefix_of` loader ∧
    (length extra ≤ length failed ≤ 1)%nat ∧
    (o = Ret tt → failed = [] ∧ c_pair <$> caps = loader) ∧
    Forall produced caps ∧
    encoder_calls t = (λ it, to_device it.2) <$> ((c_pair <$> caps) ++ failed) ∧
    sample_calls t = (c_features <$> caps) ++ extra ∧
    pred_result w' = collect caps (pred_result w).
Proof.
  induction loader as [|[id img] rest IH]; intros w o w' H.
  - cbv in H. simplify_eq. exists [], [], [], []. rewrite app_nil_r.
    split_and!; try done. simpl. lia.
  - cbn [for_each] in H. unfold bind at 1 in H.
    destruct (infer_caption (id, img) w) as [o1 w1] eqn:H1.
    apply infer_caption_run in H1.
    destruct H1 as [(encoded & output & l1 & He & Hs & -> & Ht & Hp)
                   |((x & ->) & Hp & t & Ht & Hec & Hsc)].
    + destruct (IH _ _ _ H)
        as (caps & failed & extra & t & Ht' & Hpre & Hlen & Hall & Hprod
            & Hec & Hsc & Hp').
      exists ({| c_id := id; c_img := img; c_encoded := encoded;
                 c_output := output |} :: caps), failed, extra,
             ([EvEncoder (to_device img); EvSample (unsqueeze encoded 1)] ++ t).
      rewrite Ht', Ht, <- app_assoc. unfold encoder_calls, sample_calls in *.
      rewrite !omap_app, Hec, Hsc, Hp', Hp. simpl.
      split_and!; try done.
      * by apply prefix_cons.
      * lia.
      * lia.
      * intros Ho. destruct (Hall Ho) as [E1 E2]. split; [done|].
        unfold c_pair at 1. simpl. f_equal. exact E2.
      * constructor; [|done]. split; simpl; eauto.
    + simplify_eq. exists [], [(id, img)], (sample_calls t),
        (EvEncoder (to_device img) :: t).
      split_and!; try done.
      * apply prefix_cons, prefix_nil.
      * change (to_device img :: encoder_calls t = [to_device img]).
        by rewrite Hec.
Qed.

(** C5. The validation pass starts from an empty prediction map and works
    through the pairs of the loader in order.  For every pair whose loop
    body runs to its end the encoder is called once, on the pair's image; the
    sampling is called once, on the unsqueezed tensor the encoder returned;
    the token IDs it returned are turned into one string by clean_sentence,
    and that string is appended to the list kept under img_id.item().  So
    the map holds one string per such pair, and the list of an image ID holds
    the strings of the pairs with that ID in loader order.  A pass that
    returns has done this for every pair of the loader, and the pass does
    return when the encoder and the sampling return.  (A pair on which one of
    them raises ends the pass and adds no string.) *)
Theorem one_caption_per_validation_pair loader w o w' :
  infer_captions loader w = (o, w') →
  ∃ (caps : list captioned) (failed : list (tensor * tensor))
    (extra : list tensor),
    (c_pair <$> caps) ++ failed `prefix_of` loader ∧
    (length extra ≤ length failed ≤ 1)%nat ∧
    (o = Ret tt → failed = [] ∧ c_pair <$> caps = loader) ∧
    ((∀ x, returns (encoder_forward x)) → (∀ x, returns (decoder_sample x)) →
     o = Ret tt) ∧
    Forall produced caps ∧
    encoder_calls (new_events w w') =
      (λ it, to_device it.2) <$> ((c_pair <$> caps) ++ failed) ∧
    sample_calls (new_events w w') = (c_features <$> caps) ++ extra ∧
    pred_result w' = collect caps ∅ ∧
    (∀ k, default [] (pred_result w' !! k) =
          c_sentence <$> filter (λ r, item_int (c_id r) = k) caps) ∧
    caption_count (pred_result w') = length caps.
Proof.
  unfold infer_captions. intros H.
  cbv beta iota zeta delta [bind assign] in H.
  pose proof (λ He Hs, infer_loop_returns loader _ o w' He Hs H) as Hret.
  apply infer_loop in H.
  destruct H as (caps & failed & extra & t & Ht & Hpre & Hlen & Hall & Hprod
                 & Hec & Hsc & Hp).
  exists caps, failed, extra. destruct w. simpl in *.
  rewrite (new_events_app _ w' t) by done.
  split_and!; try done; try lia.
  - intros k. rewrite Hp, collect_lookup. by rewrite lookup_empty.
  - rewrite Hp, caption_count_collect. unfold caption_count.
    by rewrite map_fold_empty.
Qed.

End ValidationPass.

Section BleuScore.
Variable image_bleu : list string → list string → Q.

Lemma image_scores_common (refs preds : gmap Z (list string)) :
  image_scores image_bleu refs preds =
  image_scores image_bleu
    (filter (λ kv, is_Some (preds !! kv.1)) refs)
    (filter (λ kv, is_Some (refs !! kv.1)) preds).
Proof.
  apply map_eq. intros k. unfold image_scores.
  rewrite !map_lookup_zip_with, !map_lookup_filter.
  destruct (refs !! k) as [r|] eqn:Hr, (preds !! k) as [c|] eqn:Hc; simpl;
    try done.
  - rewrite !option_guard_True by (simpl; eauto). done.
  - rewrite option_guard_False; [done|]. simpl. rewrite Hc. by intros [? ?].
Qed.

Lemma image_scores_extra_reference (refs preds : gmap Z (list string)) k v :
  preds !! k = None →
  image_scores image_bleu (<[k := v]> refs) preds = image_scores image_bleu refs preds.
Proof.
  intros Hk. apply map_eq. intros i. unfold image_scores.
  rewrite !map_lookup_zip_with.
  destruct (decide (i = k)) as [->|Hne].
  - rewrite Hk. by destruct (<[k:=v]> refs !! k), (refs !! k).
  - by rewrite lookup_insert_ne.
Qed.

Lemma image_scores_extra_prediction (refs preds : gmap Z (list string)) k v :
  refs !! k = None →
  image_scores image_bleu refs (<[k := v]> preds) = image_scores image_bleu refs preds.
Proof.
  intros Hk. apply map_eq. intros i. unfold image_scores.
  rewrite !map_lookup_zip_with.
  destruct (decide (i = k)) as [->|Hne].
  - by rewrite Hk.
  - by rewrite lookup_insert_ne.
Qed.

Lemma bleu_score_defined (refs preds : gmap Z (list string)) :
  is_Some (bleu_score image_bleu refs preds) ↔
  ∃ k, is_Some (refs !! k) ∧ is_Some (preds !! k).
Proof.
  unfold bleu_score.
  destruct (map_to_list (image_scores image_bleu refs preds))
    as [|[k q] rest] eqn:Hl.
  - apply map_to_list_empty_iff in Hl. simpl. split; [by intros [? ?]|].
    intros (k & [r Hr] & [c Hc]).
    assert (image_scores image_bleu refs preds !! k = Some (image_bleu r c)) as Hk.
    { unfold image_scores. by rewrite map_lookup_zip_with, Hr, Hc. }
    by rewrite Hl, lookup_empty in Hk.
  - simpl. split; [|eauto]. intros _.
    assert (image_scores image_bleu refs preds !! k = Some q) as Hk.
    { apply elem_of_map_to_list. rewrite Hl. left. }
    unfold image_scores in Hk. rewrite map_lookup_zip_with in Hk.
    exists k. destruct (refs !! k), (preds !! k); simplify_eq/=; eauto.
Qed.

(** C4. The aggregate only sees the image IDs present in both maps: it is
    unchanged when each map is cut down to the keys of the other, and when a
    key is added to one map alone; keys of one map alone raise nothing, the
    aggregate being defined exactly when some image is in both maps.  For the
    references {1: ["a dog"], 2: ["a cat"]} and the predictions
    {1: ["a dog"]}, image 2 is left out: the aggregate is the mean of the
    score of image 1 alone, the same as without image 2. *)
Theorem bleu_score_skips_unmatched_keys :
  (∀ refs preds : gmap Z (list string),
     bleu_score image_bleu refs preds =
     bleu_score image_bleu
       (filter (λ kv, is_Some (preds !! kv.1)) refs)
       (filter (λ kv, is_Some (refs !! kv.1)) preds)) ∧
  (∀ (refs preds : gmap Z (list string)) k v,
     preds !! k = None →
     bleu_score image_bleu (<[k := v]> refs) preds = bleu_score image_bleu refs preds) ∧
  (∀ (refs preds : gmap Z (list string)) k v,
     refs !! k = None →
     bleu_score image_bleu refs (<[k := v]> preds) = bleu_score image_bleu refs preds) ∧
  (∀ refs preds : gmap Z (list string),
     is_Some (bleu_score image_bleu refs preds) ↔
     ∃ k, is_Some (refs !! k) ∧ is_Some (preds !! k)) ∧
  bleu_score image_bleu scenario_references scenario_predictions =
    mean [image_bleu ["a dog"] ["a dog"]] ∧
  bleu_score image_bleu scenario_references scenario_predictions =
    bleu_score image_bleu {[ 1 := ["a dog"] ]} scenario_predictions.
Proof.
  split_and!.
  - intros refs preds. unfold bleu_score. by rewrite <- image_scores_common.
  - intros refs preds k v Hk. unfold bleu_score.
    by rewrite image_scores_extra_reference.
  - intros refs preds k v Hk. unfold bleu_score.
    by rewrite image_scores_extra_prediction.
  - apply bleu_score_defined.
  - vm_compute. reflexivity.
  - vm_compute. reflexivity.
Qed.

(** Whatever the per-image score is, the aggregate cannot be 0 for all
    empty candidates and 1 for all candidates identical to a reference: an
    empty candidate of an image whose reference is empty is both. *)
Remark empty_and_identical_candidates_conflict :
  ¬ ((∀ refs preds, all_empty preds →
        ∃ q, bleu_score image_bleu refs preds = Some q ∧ (q == 0)%Q) ∧
     (∀ refs preds, all_identical refs preds →
        ∃ q, bleu_score image_bleu refs preds = Some q ∧ (q == 1)%Q)).
Proof.
  intros [Hempty Hsame].
  pose (m := ({[ 1 := [""] ]} : gmap Z (list string))).
  destruct (Hempty m m) as (q0 & E0 & Hq0).
  { intros k cands Hk. apply lookup_singleton_Some in Hk as [_ <-].
    by repeat constructor. }
  destruct (Hsame m m) as (q1 & E1 & Hq1).
  { intros k cands Hk. exists cands. split; [done|].
    apply lookup_singleton_Some in Hk as [_ <-].
    repeat constructor. }
  rewrite E0 in E1. injection E1 as <-.
  rewrite Hq0 in Hq1. discriminate Hq1.
Qed.

End BleuScore.

(** * Further properties of the cells *)

(** ** Loops *)

Section Loops.
Context {F : Framework}.

(** A loop keeps what each pass that returns keeps; a loop that raises has
    raised in one pass, after the passes before it returned. *)
Lemma for_each_inv {A} (body : A → M unit) (I : list A → world → Prop) xs :
  ∀ pre w o w',
  (∀ done x w1 w2, I done w1 → body x w1 = (Ret tt, w2) → I (done ++ [x]) w2) →
  I pre w →
  for_each xs body w = (o, w') →
  (o = Ret tt ∧ I (pre ++ xs) w') ∨
  (∃ done x rest w1 e, xs = done ++ x :: rest ∧ I (pre ++ done) w1 ∧
     body x w1 = (Raise e, w') ∧ o = Raise e).
Proof.
  induction xs as [|x xs IH]; intros pre w o w' Hstep HI H.
  - cbv in H. simplify_eq. left. by rewrite app_nil_r.
  - cbn [for_each] in H. unfold bind at 1 in H.
    destruct (body x w) as [[[]|e] w1] eqn:Hb.
    + destruct (IH (pre ++ [x]) w1 o w' Hstep (Hstep _ _ _ _ HI Hb) H)
        as [[-> HI']|(done & y & rest & w2 & e & -> & HI' & Hy & ->)].
      * left. by rewrite <- app_assoc in HI'.
      * right. exists (x :: done), y, rest, w2, e.
        rewrite <- app_assoc in HI'. by split_and!.
    + simplify_eq. right. exists [], x, xs, w, e.
      rewrite app_nil_r. by split_and!.
Qed.

(** A relation between the worlds before and after that every pass
    establishes, whether it returns or raises, holds across the loop. *)
Lemma for_each_preserves {A} (body : A → M unit) (R : world → world → Prop) xs :
  (∀ w, R w w) →
  (∀ w1 w2 w3, R w1 w2 → R w2 w3 → R w1 w3) →
  (∀ x w o w', body x w = (o, w') → R w w') →
  ∀ w o w', for_each xs body w = (o, w') → R w w'.
Proof.
  intros Hrefl Htrans Hbody.
  induction xs as [|x xs IH]; intros w o w' H.
  - cbv in H. by simplify_eq.
  - cbn [for_each] in H. unfold bind at 1 in H.
    destruct (body x w) as [[[]|e] w1] eqn:Hb.
    + eapply Htrans; [by eapply Hbody|by eapply IH].
    + simplify_eq. by eapply Hbody.
Qed.

End Loops.

(** ** Cell 8: the calls, the console and what is left alone *)

Section TrainingRuns.
Context {F : Framework}.

Lemma step_ops_print c i :
  print_every c ≠ 0 → i `mod` print_every c = 0 →
  step_ops c i = [OpGetIndices; OpSetSampler; OpNextBatch; OpZeroGrad; OpZeroGrad;
   OpEncoder; OpDecoder; OpCriterion; OpBackward; OpOptimizerStep;
   OpWrite; OpFlush; OpPrint].
Proof. intros. unfold step_ops. by rewrite decide_True. Qed.

Lemma step_ops_quiet c i :
  ¬ (print_every c ≠ 0 ∧ i `mod` print_every c = 0) →
  step_ops c i = [OpGetIndices; OpSetSampler; OpNextBatch; OpZeroGrad; OpZeroGrad;
   OpEncoder; OpDecoder; OpCriterion; OpBackward; OpOptimizerStep;
   OpWrite; OpFlush].
Proof. intros. unfold step_ops. by rewrite decide_False. Qed.

Lemma step_ops_prefix c i :
  [OpGetIndices; OpSetSampler; OpNextBatch; OpZeroGrad; OpZeroGrad;
   OpEncoder; OpDecoder; OpCriterion; OpBackward; OpOptimizerStep;
   OpWrite; OpFlush] `prefix_of` step_ops c i.
Proof. by eexists. Qed.

Lemma printed_one c e i loss :
  printed c [(e, i, loss)] =
  if decide (print_every c ≠ 0 ∧ i `mod` print_every c = 0)
  then [CR +:+ stats_string c e i loss] else [].
Proof.
  unfold printed. rewrite filter_cons. simpl.
  destruct (decide _); done.
Qed.

Lemma training_step_ops c e i w o w' p :
  training_step c e i w = (o, w') →
  fobj w = Some (open_file p) →
  ∃ t, trace w' = trace w ++ t ∧
    fobj w' = Some (open_file p) ∧
    stdout w' = stdout w ++ prints t ∧
    op_of <$> t `prefix_of` step_ops c i ∧
    ((∃ loss, o = Ret tt ∧ print_every c ≠ 0 ∧
        op_of <$> t = step_ops c i ∧
        updates t = step_updates c (e, i, loss) ∧
        prints t = printed c [(e, i, loss)])
     ∨ (∃ loss, o = Raise ZeroDivisionError ∧ print_every c = 0 ∧
        updates t = step_updates c (e, i, loss) ∧ prints t = [])
     ∨ ((∃ x, o = Raise x) ∧ partial_update (updates t) ∧ prints t = [])).
Proof.
  intros H Hf.
  destruct w as [g smp l fo fs ms pr out tr]. simpl in Hf. subst fo.
  unfold training_step in H. run_cell H.
  repeat next_call H.
  all: simplify_eq; simpl; rewrite <- ?app_assoc; simpl.
  all: eexists; split; [reflexivity|].
  all: split; [reflexivity|].
  all: split; [by rewrite ?app_nil_r|].
  all: cbn [fmap list_fmap op_of].
  1: { split; [apply step_ops_prefix|]. right. left. exists a3. by split_and!. }
  1: { split; [by rewrite step_ops_print|]. left. exists a3.
       rewrite printed_one, decide_True, step_ops_print; [by split_and!|done..]. }
  1: { split; [apply step_ops_prefix|]. left. exists a3.
       rewrite printed_one, decide_False, step_ops_quiet; [by split_and!|by intros [? ?]..]. }
  all: (split; [unfold step_ops; eexists; reflexivity|]).
  all: right; right; split_and!; [by eexists| |done].
  all: unfold partial_update; cbn; eauto.
Qed.

Lemma prints_app t1 t2 : prints (t1 ++ t2) = prints t1 ++ prints t2.
Proof. apply omap_app. Qed.

Lemma updates_app t1 t2 : updates (t1 ++ t2) = updates t1 ++ updates t2.
Proof. apply List.filter_app. Qed.

Lemma printed_app c ds1 ds2 : printed c (ds1 ++ ds2) = printed c ds1 ++ printed c ds2.
Proof. unfold printed. by rewrite filter_app, fmap_app. Qed.

Lemma partial_update_nil : partial_update [].
Proof. by left. Qed.


Lemma step_summary c e i p w o w' :
  training_step c e i w = (o, w') →
  fobj w = Some (open_file p) →
  summary c p [(e, i)] (step_ops c i) w o w'.
Proof.
  intros H Hf. apply (training_step_ops _ _ _ _ _ _ p) in H; [|done].
  destruct H as (t & Ht & Hf' & Hout & Hpre & Hcase).
  destruct Hcase as [(loss & -> & Hp0 & Hops & Hup & Hpr)
                    |[(loss & -> & Hp0 & Hup & Hpr)|((x & ->) & Hup & Hpr)]].
  - exists [(e, i, loss)], t, []. rewrite Hup, app_nil_r.
    split_and!; try done. by left.
  - exists [(e, i, loss)], t, []. rewrite Hup, app_nil_r.
    rewrite Hpr, app_nil_r in Hout.
    split_and!; try done; [by rewrite Hpr, app_nil_r|by left|].
    rewrite Hpr, printed_one, decide_False; [done|by intros [? ?]].
  - exists [], t, (updates t). split_and!; try done. apply prefix_nil.
Qed.

(** A loop whose passes have summaries has the summary of the passes in
    sequence. *)
Lemma loop_summary {A} c p (body : A → M unit) (sched : A → list (Z * Z))
    (ops : A → list op) xs :
  (∀ x w o w', body x w = (o, w') → fobj w = Some (open_file p) →
               summary c p (sched x) (ops x) w o w') →
  ∀ w o w', for_each xs body w = (o, w') → fobj w = Some (open_file p) →
            summary c p (xs ≫= sched) (xs ≫= ops) w o w'.
Proof.
  intros Hbody. induction xs as [|x xs IH]; intros w o w' H Hf.
  - cbv in H. simplify_eq. exists [], [], []. rewrite !app_nil_r.
    split_and!; try done. by left.
  - cbn [for_each] in H. unfold bind at 1 in H.
    destruct (body x w) as [o1 w1] eqn:Hx.
    apply Hbody in Hx; [|done].
    destruct Hx as (ds1 & t1 & ex1 & Ht1 & Hf1 & Hout1 & Hds1 & Hops1 & Hup1
                    & Hex1 & Hpr1 & Hret1).
    rewrite !bind_cons.
    destruct o1 as [[]|x1].
    + destruct (Hret1 eq_refl) as (Eds & Eops & ->).
      destruct (IH _ _ _ H Hf1)
        as (ds2 & t2 & ex2 & Ht2 & Hf2 & Hout2 & Hds2 & Hops2 & Hup2
            & Hex2 & Hpr2 & Hret2).
      exists (ds1 ++ ds2), (t1 ++ t2), ex2.
      rewrite Ht2, Ht1, Hout2, Hout1, !prints_app, updates_app, Hup1, Hup2,
        Hpr1, Hpr2, printed_app, !fmap_app, bind_app, Eds, Eops, !app_nil_r,
        <- !app_assoc.
      split_and!; try done; [by apply prefix_app..|].
      intros Ho. destruct (Hret2 Ho) as (-> & -> & ->). done.
    + simplify_eq. exists ds1, t1, ex1.
      split_and!; try done; by apply prefix_app_r.
Qed.


Lemma bind_singleton_fmap {A B} (f : A → B) (xs : list A) :
  xs ≫= (λ x, [f x]) = f <$> xs.
Proof. induction xs as [|x xs IH]; [done|]. rewrite bind_cons, IH. done. Qed.

Lemma epoch_summary c e p w o w' :
  training_epoch c e w = (o, w') →
  fobj w = Some (open_file p) →
  summary c p (steps_of c e) (epoch_ops c e) w o w'.
Proof.
  unfold training_epoch. intros H Hf.
  unfold bind at 1 in H. unfold assign at 1 in H.
  unfold bind at 1 in H.
  destruct (for_each _ _ _) as [o1 w1] eqn:Hloop.
  apply (loop_summary c p _ (λ i, [(e, i)]) (step_ops c)) in Hloop; [| |done].
  2:{ intros x w0 o0 w0' Hx Hf0. unfold bind at 1 in Hx. unfold assign at 1 in Hx.
      by apply (step_summary _ _ _ p) in Hx. }
  rewrite bind_singleton_fmap in Hloop. fold (steps_of c e) in Hloop.
  destruct Hloop as (ds & t & ex & Ht & Hf1 & Hout & Hds & Hops & Hup & Hex
                     & Hpr & Hret).
  cbn [trace stdout set_globals] in Ht, Hout.
  unfold epoch_ops. destruct o1 as [[]|x].
  - destruct (Hret eq_refl) as (Eds & Eops & ->). rewrite app_nil_r in Hup.
    rewrite save_weights_run in H.
    destruct (decide (save_every c = 0)) as [Hs0|Hs0].
    { simplify_eq. exists ds, t, []. rewrite Eops, app_nil_r.
      split_and!; try done; try (by left); by apply prefix_app_r. }
    destruct (decide (e `mod` save_every c = 0)) as [Hmod|Hmod]; simplify_eq.
    + rewrite decide_True by done.
      exists ds, (t ++ [EvSave (decoder_path e) (decoder_state_dict (libst w1));
                        EvSave (encoder_path e) (encoder_state_dict (libst w1))]), [].
      cbn [trace fobj stdout set_models set_trace].
      rewrite Ht, Hout, prints_app, updates_app, fmap_app, Eops, <- app_assoc.
      cbn. rewrite !app_nil_r. split_and!; try done; by left.
    + rewrite decide_False by (by intros [? ?]).
      exists ds, t, []. rewrite !app_nil_r, Eops. split_and!; try done; by left.
  - simplify_eq. exists ds, t, ex. split_and!; try done. by apply prefix_app_r.
Qed.

(** The whole cell: events, console, schedule and calls of a run. *)
Lemma train_run c w o w' :
  train c w = (o, w') →
  ∃ (ds : list (Z * Z * tensor)) t extra,
    new_events w w' = EvOpen (log_file c) :: t ++ closing o ∧
    stdout w' = stdout w ++ prints t ∧
    ds.*1 `prefix_of` schedule c ∧
    op_of <$> t `prefix_of` loop_ops c ∧
    updates t = (ds ≫= step_updates c) ++ extra ∧
    partial_update extra ∧
    prints t = printed c ds ∧
    (o = Ret tt → ds.*1 = schedule c ∧ op_of <$> t = loop_ops c ∧ extra = []).
Proof.
  unfold train. intros H.
  unfold bind at 1 in H.
  destruct (py_open (log_file c) w) as [o0 w0] eqn:Hopen.
  assert (o0 = Ret tt ∧ trace w0 = trace w ++ [EvOpen (log_file c)] ∧
          fobj w0 = Some (open_file (log_file c)) ∧ stdout w0 = stdout w)
    as (-> & Ht0 & Hf0 & Hout0).
  { destruct w as [g smp l fo fs ms pr out tr].
    cbv beta iota zeta delta [py_open bind emit assign set_trace
      set_fobj set_files set_globals trace fobj files models globals
      loader_sampler libst pred_result stdout] in Hopen.
    by simplify_eq. }
  unfold bind at 1 in H.
  destruct (for_each _ _ w0) as [o1 w1] eqn:Hloop.
  apply (loop_summary c (log_file c) _ (steps_of c) (epoch_ops c)) in Hloop;
    [|intros; by apply epoch_summary|done].
  destruct Hloop as (ds & t & ex & Ht & Hf1 & Hout & Hds & Hops & Hup & Hex
                     & Hpr & Hret).
  exists ds, t, ex. rewrite Hout0 in Hout.
  destruct o1 as [[]|x].
  - unfold py_close in H. rewrite Hf1 in H. simpl in H.
    cbv beta iota zeta delta [bind emit] in H. simplify_eq. simpl.
    rewrite (new_events_app w _ (EvOpen (log_file c) :: t ++ [EvClose])).
    + by split_and!.
    + simpl. rewrite Ht, Ht0, <- !app_assoc. done.
  - simplify_eq. simpl.
    rewrite (new_events_app w _ (EvOpen (log_file c) :: t ++ [])).
    + by split_and!.
    + rewrite Ht, Ht0, <- !app_assoc, app_nil_r. done.
Qed.


Lemma cell_names_ne x :
  x ∉ cell_names →
  x ≠ "f" ∧ x ≠ "epoch" ∧ x ≠ "i_step" ∧ x ≠ "indices" ∧ x ≠ "new_saosmpler" ∧
  x ≠ "images" ∧ x ≠ "captions" ∧ x ≠ "features" ∧ x ≠ "outputs" ∧
  x ≠ "loss" ∧ x ≠ "stats".
Proof.
  unfold cell_names. intros H.
  repeat (apply not_elem_of_cons in H as [? H]). by split_and!.
Qed.

Lemma frame_refl p w : frame p w w.
Proof.
  unfold frame. split_and!; try done; [by left|].
  exists []. rewrite app_nil_r. by split_and!.
Qed.

Lemma samplers_app t1 t2 : samplers (t1 ++ t2) = samplers t1 ++ samplers t2.
Proof. apply omap_app. Qed.

Lemma drawn_app t1 t2 : drawn (t1 ++ t2) = drawn t1 ++ drawn t2.
Proof. apply omap_app. Qed.

Lemma frame_trans p w1 w2 w3 : frame p w1 w2 → frame p w2 w3 → frame p w1 w3.
Proof.
  intros (Hf1 & Hm1 & Hp1 & Hg1 & Hl1 & t1 & Ht1 & Hs1 & Hd1)
         (Hf2 & Hm2 & Hp2 & Hg2 & Hl2 & t2 & Ht2 & Hs2 & Hd2).
  assert (Hn : globals w2 !! "new_sampler" = globals w1 !! "new_sampler").
  { apply Hg1. apply (bool_decide_unpack _). vm_compute. reflexivity. }
  rewrite Hn in *.
  split_and!.
  - intros q Hq. by rewrite Hf2, Hf1.
  - intros q Hq. by rewrite Hm2, Hm1.
  - congruence.
  - intros x Hx. by rewrite Hg2, Hg1.
  - destruct Hl2 as [->|?]; [done|by right].
  - exists (t1 ++ t2). rewrite Ht2, Ht1, app_assoc, samplers_app, drawn_app.
    split_and!; [done|by apply Forall_app|].
    destruct (drawn t2) as [|d ds _] using rev_ind.
    + rewrite app_nil_r. simpl in Hd2. rewrite Hd2. done.
    + rewrite app_assoc, last_snoc. by rewrite last_snoc in Hd2.
Qed.

Lemma training_step_frame c e i w o w' p :
  training_step c e i w = (o, w') →
  fobj w = Some (open_file p) →
  frame p w w'.
Proof.
  intros H Hf.
  destruct w as [g smp l fo fs ms pr out tr]. simpl in Hf. subst fo.
  unfold training_step in H. run_cell H.
  repeat next_call H.
  all: simplify_eq; unfold frame; cbn [files models pred_result globals
         loader_sampler trace]; rewrite <- ?app_assoc; cbn [app].
  all: try match goal with
    | H : _ !! "new_sampler" = _ |- _ =>
      rewrite !lookup_insert_ne in H by done
    end.
  all: split_and!.
  all: try done.
  all: try (intros q Hq; unfold flush_to_disk; cbn; by rewrite ?lookup_insert_ne).
  all: try (intros x Hx; apply cell_names_ne in Hx; destruct_and!;
     by rewrite !lookup_insert_ne).
  all: auto.
  all: eexists; split; [reflexivity|]; cbn; split.
  all: try (rewrite ?Forall_cons; split_and?; first [done|apply Forall_nil]).
  all: rewrite ?lookup_insert_ne by done; apply lookup_insert_eq.
Qed.

Lemma save_weights_frame c e p w o w' :
  save_weights c e w = (o, w') → frame p w w'.
Proof.
  rewrite save_weights_run. intros H.
  destruct (decide (save_every c = 0)); [simplify_eq; apply frame_refl|].
  destruct (decide (e `mod` save_every c = 0)); simplify_eq; [|apply frame_refl].
  unfold frame. cbn. split_and!; try done; [|by left|].
  - intros q Hq. destruct (Hq e) as [Hd He].
    by rewrite !lookup_insert_ne.
  - eexists. split; [reflexivity|]. cbn. split; [constructor|done].
Qed.

Lemma assign_frame x v p w o w' :
  x ∈ cell_names → x ≠ "new_saosmpler" →
  assign x v w = (o, w') → frame p w w'.
Proof.
  intros Hx Hne H. unfold assign in H. simplify_eq.
  unfold frame. cbn. split_and!; try done; [|by left|].
  - intros y Hy. rewrite lookup_insert_ne; [done|]. by intros ->.
  - exists []. rewrite app_nil_r. split_and!; [done|constructor|].
    cbn. by rewrite lookup_insert_ne.
Qed.

Lemma loop_frame {A} p (body : A → M unit) xs :
  (∀ x w o w', body x w = (o, w') → fobj w = Some (open_file p) →
               fobj w' = Some (open_file p) ∧ frame p w w') →
  ∀ w o w', for_each xs body w = (o, w') → fobj w = Some (open_file p) →
            fobj w' = Some (open_file p) ∧ frame p w w'.
Proof.
  intros Hbody w o w' H.
  apply (for_each_preserves body
           (λ w w', fobj w = Some (open_file p) →
                    fobj w' = Some (open_file p) ∧ frame p w w') xs)
    with (o := o); [| | |done].
  - intros w2 Hf2. split; [done|apply frame_refl].
  - intros w2 w3 w4 H23 H34 Hf2. destruct (H23 Hf2) as [Hf3 ?].
    destruct (H34 Hf3) as [Hf4 ?]. split; [done|by eapply frame_trans].
  - intros x w2 o2 w3 Hx Hf2. by eapply Hbody.
Qed.

Lemma epoch_frame c e p w o w' :
  training_epoch c e w = (o, w') →
  fobj w = Some (open_file p) →
  fobj w' = Some (open_file p) ∧ frame p w w'.
Proof.
  unfold training_epoch. intros H Hf.
  unfold bind at 1 in H.
  destruct (assign "epoch" (VInt e) w) as [o0 w0] eqn:H0.
  assert (Hf0 : fobj w0 = Some (open_file p)) by (by unfold assign in H0; simplify_eq).
  assert (o0 = Ret tt) as -> by (by unfold assign in H0; simplify_eq).
  apply (assign_frame _ _ p) in H0; [|apply (bool_decide_unpack _); by vm_compute|done].
  unfold bind at 1 in H.
  destruct (for_each _ _ w0) as [o1 w1] eqn:Hloop.
  apply (loop_frame p) in Hloop as [Hf1 Hfr1]; [| |done].
  - assert (Hfr : frame p w w1) by (by eapply frame_trans).
    destruct o1 as [[]|x]; [|by simplify_eq].
    pose proof (save_weights_frame _ _ p _ _ _ H) as Hsv.
    split; [|by eapply frame_trans].
    rewrite save_weights_run in H. repeat case_decide; by simplify_eq.
  - intros x w2 o2 w3 Hx Hf2. unfold bind at 1 in Hx.
    destruct (assign "i_step" (VInt x) w2) as [o3 w4] eqn:H4.
    assert (Hf4 : fobj w4 = Some (open_file p))
      by (by unfold assign in H4; simplify_eq).
    assert (o3 = Ret tt) as -> by (by unfold assign in H4; simplify_eq).
    apply (assign_frame _ _ p) in H4;
      [|apply (bool_decide_unpack _); by vm_compute|done].
    pose proof (training_step_ops _ _ _ _ _ _ p Hx Hf4) as (_ & _ & Hf3 & _).
    split; [done|]. eapply frame_trans; [done|].
    by eapply training_step_frame.
Qed.

(** The whole cell: what it leaves untouched. *)
Lemma train_frame c w o w' :
  train c w = (o, w') → frame (log_file c) w w'.
Proof.
  unfold train. intros H.
  unfold bind at 1 in H.
  destruct (py_open (log_file c) w) as [o0 w0] eqn:Hopen.
  assert (o0 = Ret tt ∧ fobj w0 = Some (open_file (log_file c)) ∧
          frame (log_file c) w w0) as (-> & Hf0 & Hfr0).
  { destruct w as [g smp l fo fs ms pr out tr].
    cbv beta iota zeta delta [py_open bind emit assign set_trace
      set_fobj set_files set_globals trace fobj files models globals
      loader_sampler libst pred_result stdout] in Hopen.
    simplify_eq. split_and!; try done.
    unfold frame. cbn. split_and!; try done; [| |by left|].
    - intros q Hq. by rewrite lookup_insert_ne.
    - intros x Hx. apply cell_names_ne in Hx. destruct_and!.
      by rewrite lookup_insert_ne.
    - eexists. split; [reflexivity|]. cbn. split; [constructor|].
      by rewrite lookup_insert_ne. }
  unfold bind at 1 in H.
  destruct (for_each _ _ w0) as [o1 w1] eqn:Hloop.
  apply (loop_frame (log_file c)) in Hloop as [Hf1 Hfr1];
    [|intros; by eapply epoch_frame|done].
  assert (Hfr : frame (log_file c) w w1) by (by eapply frame_trans).
  destruct o1 as [[]|x]; [|by simplify_eq].
  eapply frame_trans; [done|].
  unfold py_close in H. rewrite Hf1 in H. simpl in H.
  cbv beta iota zeta delta [bind emit] in H. simplify_eq.
  unfold frame. cbn. split_and!; try done; [|by left|].
  + intros q Hq. unfold flush_to_disk. cbn. by rewrite lookup_insert_ne.
  + eexists. split; [reflexivity|]. cbn. split; [constructor|done].
Qed.


(** *** Counting *)

Lemma length_filter_bind {A B} (P : B → Prop) `{∀ x, Decision (P x)}
    (f : A → list B) (n : nat) (xs : list A) :
  (∀ x, length (filter P (f x)) = n) →
  length (filter P (xs ≫= f)) = (length xs * n)%nat.
Proof.
  intros Hf. induction xs as [|x xs IH]; [done|].
  rewrite bind_cons, filter_app, length_app, IH, Hf. simpl. lia.
Qed.

Lemma length_py_range n : length (py_range 1 (n + 1)) = Z.to_nat n.
Proof. unfold py_range. rewrite length_seqZ. f_equal. lia. Qed.

Lemma count_cell_ops c (o : op) :
  o ∈ [OpNextBatch; OpEncoder; OpBackward; OpOptimizerStep; OpWrite; OpFlush] →
  length (filter (λ x, x = o) (cell_ops c)) =
  (Z.to_nat (num_epochs c) * Z.to_nat (total_step c))%nat.
Proof.
  intros Ho. unfold cell_ops, loop_ops.
  assert (Hstep : ∀ i, length (filter (λ x, x = o) (step_ops c i)) = 1%nat).
  { intros i. unfold step_ops. rewrite filter_app, length_app.
    replace (length (filter (λ x, x = o)
               (if decide (print_every c ≠ 0 ∧ i `mod` print_every c = 0)
                then [OpPrint] else []))) with 0%nat.
    - repeat (apply elem_of_cons in Ho as [->|Ho]); try done.
      by apply elem_of_nil in Ho.
    - destruct (decide _); [|done].
      repeat (apply elem_of_cons in Ho as [->|Ho]); try done.
      by apply elem_of_nil in Ho. }
  assert (Hepoch : ∀ e, length (filter (λ x, x = o) (epoch_ops c e)) =
                        Z.to_nat (total_step c)).
  { intros e. unfold epoch_ops. rewrite filter_app, length_app.
    rewrite (length_filter_bind _ _ 1) by done. rewrite length_py_range.
    replace (length (filter (λ x, x = o)
               (if decide (save_every c ≠ 0 ∧ e `mod` save_every c = 0)
                then [OpSave; OpSave] else []))) with 0%nat; [lia|].
    destruct (decide _); [|done].
    repeat (apply elem_of_cons in Ho as [->|Ho]); try done.
    by apply elem_of_nil in Ho. }
  rewrite filter_cons, decide_False.
  2:{ repeat (apply elem_of_cons in Ho as [->|Ho]); try done.
      by apply elem_of_nil in Ho. }
  rewrite filter_app, length_app.
  rewrite (length_filter_bind _ _ (Z.to_nat (total_step c))) by done.
  rewrite length_py_range.
  replace (length (filter (λ x, x = o) [OpClose])) with 0%nat; [lia|].
  repeat (apply elem_of_cons in Ho as [->|Ho]); try done.
  by apply elem_of_nil in Ho.
Qed.

Lemma optimizer_steps_ops t :
  optimizer_steps t = length (filter (λ x, x = OpOptimizerStep) (op_of <$> t)).
Proof.
  unfold optimizer_steps. induction t as [|ev t IH]; [done|].
  rewrite fmap_cons, filter_cons. destruct ev; simpl;
    rewrite ?decide_True, ?decide_False by done; simpl; by rewrite IH.
Qed.

Lemma batches_ops t :
  batches t = length (filter (λ x, x = OpNextBatch) (op_of <$> t)).
Proof.
  unfold batches. induction t as [|ev t IH]; [done|].
  rewrite fmap_cons, filter_cons. destruct ev; simpl;
    rewrite ?decide_True, ?decide_False by done; simpl; by rewrite IH.
Qed.

Lemma cell_ops_events c w o w' t :
  new_events w w' = EvOpen (log_file c) :: t ++ closing o →
  op_of <$> new_events w w' = OpOpen :: (op_of <$> t) ++ (op_of <$> closing o).
Proof. intros ->. by rewrite fmap_cons, fmap_app. Qed.

(** X1. The calls of a run of cell 8, in order and without their arguments,
    are a prefix of one list that the hyperparameters fix: open; for each
    epoch 1..num_epochs and each step 1..total_step the twelve calls of the
    loop body in the order of its statements, then print when
    i_step % print_every == 0; after the steps of an epoch the two torch.save
    when epoch % save_every == 0; close.  The run returns exactly when it has
    made the whole list, and it has then fetched num_epochs * total_step
    batches and taken as many optimizer steps. *)
Theorem calls_follow_the_cell c w o w' :
  train c w = (o, w') →
  op_of <$> new_events w w' `prefix_of` cell_ops c ∧
  (o = Ret tt ↔ op_of <$> new_events w w' = cell_ops c) ∧
  (o = Ret tt →
   batches (new_events w w') =
     (Z.to_nat (num_epochs c) * Z.to_nat (total_step c))%nat ∧
   optimizer_steps (new_events w w') =
     (Z.to_nat (num_epochs c) * Z.to_nat (total_step c))%nat).
Proof.
  intros H. apply train_run in H.
  destruct H as (ds & t & ex & Hne & _ & _ & Hops & _ & _ & _ & Hret).
  rewrite batches_ops, optimizer_steps_ops.
  rewrite (cell_ops_events _ _ _ _ _ Hne). unfold cell_ops.
  assert (Hfull : o = Ret tt →
            OpOpen :: (op_of <$> t) ++ (op_of <$> closing o) =
            OpOpen :: loop_ops c ++ [OpClose]).
  { intros ->. destruct (Hret eq_refl) as (_ & -> & _). done. }
  split_and!.
  - destruct o as [[]|x].
    + by rewrite Hfull.
    + simpl. rewrite app_nil_r. apply prefix_cons.
      by apply prefix_app_r.
  - split; [done|]. intros Heq. destruct o as [[]|x]; [done|].
    simpl in Heq. rewrite app_nil_r in Heq. injection Heq as Heq.
    apply prefix_length in Hops. rewrite Heq, length_app in Hops.
    simpl in Hops. lia.
  - intros Ho. rewrite (Hfull Ho). fold (cell_ops c).
    split; apply count_cell_ops; by repeat constructor.
Qed.

Lemma writes_updates t : writes (updates t) = writes t.
Proof.
  unfold updates. induction t as [|ev t IH]; [done|].
  destruct ev; simpl; by rewrite ?IH.
Qed.

Lemma writes_step_updates c ds :
  writes (ds ≫= step_updates c) = log_line c <$> ds.
Proof.
  induction ds as [|d ds IH]; [done|].
  rewrite bind_cons, writes_app, IH. done.
Qed.

Lemma writes_partial_update ex : partial_update ex → writes ex = [].
Proof. by intros [->|(l & [->| ->])]. Qed.

Lemma run_writes c ds t ex :
  updates t = (ds ≫= step_updates c) ++ ex → partial_update ex →
  writes t = log_line c <$> ds.
Proof.
  intros Hup Hex. rewrite <- writes_updates, Hup, writes_app,
    writes_step_updates, (writes_partial_update _ Hex), app_nil_r. done.
Qed.

Lemma mod_abs (i p : Z) : p ≠ 0 → i `mod` p = 0 ↔ i `mod` Z.abs p = 0.
Proof.
  intros Hp. rewrite !Z.mod_divide by lia. by rewrite Z.divide_abs_l.
Qed.

Lemma div_succ (k q : Z) :
  0 < q → 0 ≤ k →
  (k + 1) `div` q = k `div` q + (if decide ((k + 1) `mod` q = 0) then 1 else 0).
Proof.
  intros Hq Hk.
  pose proof (Z.div_mod (k + 1) q ltac:(lia)) as H1.
  pose proof (Z.div_mod k q ltac:(lia)) as H2.
  pose proof (Z.mod_pos_bound (k + 1) q Hq) as B1.
  pose proof (Z.mod_pos_bound k q Hq) as B2.
  destruct (decide _) as [E|E]; nia.
Qed.

(** The multiples of [p] among 1, ..., n. *)
Lemma count_multiples (p n : Z) :
  length (filter (λ i, p ≠ 0 ∧ i `mod` p = 0) (seqZ 1 n)) = Z.to_nat (n `div` Z.abs p).
Proof.
  destruct (decide (p = 0)) as [->|Hp].
  { rewrite Z.div_0_r. simpl.
    induction (seqZ 1 n) as [|i l IH]; [done|].
    rewrite filter_cons, decide_False; [done|by intros [? ?]]. }
  destruct (decide (n < 0)) as [Hn|Hn].
  { rewrite seqZ_nil by lia.
    assert (n `div` Z.abs p < 0) by (apply Z.div_lt_upper_bound; lia).
    simpl. lia. }
  replace n with (Z.of_nat (Z.to_nat n)) by lia.
  induction (Z.to_nat n) as [|k IH].
  { simpl. rewrite Z.div_0_l by lia. done. }
  rewrite Nat2Z.inj_succ, <- Z.add_1_r.
  rewrite seqZ_app by lia. rewrite filter_app, length_app, IH.
  replace (seqZ (1 + Z.of_nat k) 1) with [Z.of_nat k + 1]
    by (rewrite seqZ_cons, seqZ_nil by lia; f_equal; lia).
  assert (Hq : 0 ≤ Z.of_nat k `div` Z.abs p) by (apply Z.div_pos; lia).
  rewrite div_succ by lia.
  rewrite filter_cons.
  destruct (decide ((Z.of_nat k + 1) `mod` Z.abs p = 0)) as [E|E].
  - rewrite decide_True by (by rewrite mod_abs). simpl. lia.
  - rewrite decide_False; [simpl; lia|].
    intros [_ E']. by rewrite mod_abs in E'.
Qed.

Lemma length_printed_schedule c ds :
  ds.*1 = schedule c →
  length (printed c ds) =
  (Z.to_nat (num_epochs c) *
   Z.to_nat (total_step c `div` Z.abs (print_every c)))%nat.
Proof.
  intros Hds. unfold printed. rewrite length_fmap.
  transitivity (length (filter (λ es : Z * Z, print_every c ≠ 0 ∧
                                  es.2 `mod` print_every c = 0) (ds.*1))).
  { clear. induction ds as [|d ds IH]; [done|].
    rewrite fmap_cons, !filter_cons. simpl.
    destruct (decide _); simpl; by rewrite IH. }
  rewrite Hds. unfold schedule.
  rewrite (length_filter_bind _ _
             (Z.to_nat (total_step c `div` Z.abs (print_every c)))).
  - by rewrite length_py_range.
  - intros e. unfold py_range.
    replace (total_step c + 1 - 1) with (total_step c) by lia.
    rewrite <- count_multiples.
    induction (seqZ 1 (total_step c)) as [|i l IH]; [done|].
    rewrite fmap_cons, !filter_cons. simpl.
    destruct (decide _); simpl; by rewrite IH.
Qed.

(** X2. What cell 8 prints: for the steps that reached the log, in order,
    the status line of the step after a carriage return, for exactly the
    steps whose number i_step has i_step % print_every == 0; standard output
    grows by these strings and nothing else.  A run that returns has printed
    num_epochs * (total_step // |print_every|) lines. *)
Theorem console_shows_every_print_every_th_step c w o w' :
  train c w = (o, w') →
  ∃ ds : list (Z * Z * tensor),
    ds.*1 `prefix_of` schedule c ∧
    writes (new_events w w') = (λ d, stats_string c d.1.1 d.1.2 d.2 +:+ LF) <$> ds ∧
    prints (new_events w w') =
      (λ d, CR +:+ stats_string c d.1.1 d.1.2 d.2) <$>
        filter (λ d, print_every c ≠ 0 ∧ d.1.2 `mod` print_every c = 0) ds ∧
    stdout w' = stdout w ++ prints (new_events w w') ∧
    (o = Ret tt →
     ds.*1 = schedule c ∧
     length (prints (new_events w w')) =
       (Z.to_nat (num_epochs c) *
        Z.to_nat (total_step c `div` Z.abs (print_every c)))%nat).
Proof.
  intros H. apply train_run in H.
  destruct H as (ds & t & ex & Hne & Hout & Hds & _ & Hup & Hex & Hpr & Hret).
  exists ds.
  assert (Hp : prints (new_events w w') = prints t).
  { rewrite Hne. change (EvOpen (log_file c) :: t ++ closing o)
      with ([EvOpen (log_file c)] ++ t ++ closing o).
    rewrite !prints_app. simpl. destruct o; simpl; by rewrite app_nil_r. }
  assert (Hw : writes (new_events w w') = writes t).
  { rewrite Hne. change (EvOpen (log_file c) :: t ++ closing o)
      with ([EvOpen (log_file c)] ++ t ++ closing o).
    rewrite !writes_app, writes_closing. simpl. by rewrite app_nil_r. }
  rewrite Hpr in Hout.
  rewrite Hp, Hw, (run_writes _ _ _ _ Hup Hex), Hpr.
  split_and!; try done.
  intros Ho. destruct (Hret Ho) as (E & _). split; [done|].
  by apply length_printed_schedule.
Qed.

(** X3. Every line of the log stands for one update of the weights made
    just before it was written: restricted to backward, optimizer.step() and
    f.write, the events of a run are, for each logged step in order, the
    backward pass on the loss whose value the line shows, one optimizer step,
    the write of the line; followed, in a run that raised inside a step, by
    at most the backward pass and the optimizer step of that step.  So the
    number of optimizer steps is the number of lines, or one more. *)
Theorem every_logged_loss_was_backpropagated c w o w' :
  train c w = (o, w') →
  ∃ (ds : list (Z * Z * tensor)) extra,
    updates (new_events w w') =
      (ds ≫= λ d, [EvBackward d.2; EvOptimizerStep;
                   EvWrite (stats_string c d.1.1 d.1.2 d.2 +:+ LF)]) ++ extra ∧
    (extra = [] ∨
     ∃ loss, extra = [EvBackward loss] ∨ extra = [EvBackward loss; EvOptimizerStep]) ∧
    ds.*1 `prefix_of` schedule c ∧
    (o = Ret tt → ds.*1 = schedule c ∧ extra = []) ∧
    (length (writes (new_events w w')) ≤ optimizer_steps (new_events w w')
       ≤ length (writes (new_events w w')) + 1)%nat.
Proof.
  intros H. apply train_run in H.
  destruct H as (ds & t & ex & Hne & _ & Hds & _ & Hup & Hex & _ & Hret).
  exists ds, ex.
  assert (Hu : updates (new_events w w') = updates t).
  { rewrite Hne. change (EvOpen (log_file c) :: t ++ closing o)
      with ([EvOpen (log_file c)] ++ t ++ closing o).
    rewrite !updates_app. simpl. destruct o; simpl; by rewrite app_nil_r. }
  assert (Hos : ∀ t0, optimizer_steps (updates t0) = optimizer_steps t0).
  { unfold optimizer_steps, updates. intros t0.
    induction t0 as [|ev t0 IH]; [done|]. destruct ev; simpl; by rewrite ?IH. }
  split; [by rewrite Hu|]. split; [exact Hex|]. split; [done|]. split.
  - intros Ho. by destruct (Hret Ho) as (? & _ & ?).
  - rewrite <- writes_updates, <- Hos, Hu, Hup.
    rewrite writes_app, writes_step_updates, (writes_partial_update _ Hex),
      app_nil_r, length_fmap.
    assert (optimizer_steps ((ds ≫= step_updates c) ++ ex) =
            (length ds + optimizer_steps ex)%nat) as ->.
    { unfold optimizer_steps. rewrite List.filter_app, length_app. f_equal.
      clear. induction ds as [|d ds IH]; [done|].
      rewrite bind_cons, List.filter_app, length_app, IH. done. }
    destruct Hex as [->|(l & [->| ->])]; unfold optimizer_steps; simpl; lia.
Qed.

(** X4. Cell 8 never uses the indices it draws.  Every sampler it installs in
    the loader and every sampler a batch is fetched under is the value the
    name [new_sampler] had before the cell ran; the cell leaves that name as
    it was; the sampler built on the indices drawn last is bound to
    [new_saosmpler] and goes nowhere else. *)
Theorem batches_are_fetched_under_the_old_sampler c w o w' :
  train c w = (o, w') →
  Forall (λ v, globals w !! "new_sampler" = Some v) (samplers (new_events w w')) ∧
  globals w' !! "new_sampler" = globals w !! "new_sampler" ∧
  (loader_sampler w' = loader_sampler w ∨
   globals w !! "new_sampler" = Some (loader_sampler w')) ∧
  match last (drawn (new_events w w')) with
  | Some idx => globals w' !! "new_saosmpler" = Some (VSampler idx)
  | None => globals w' !! "new_saosmpler" = globals w !! "new_saosmpler"
  end.
Proof.
  intros H. apply train_frame in H.
  destruct H as (_ & _ & _ & Hg & Hl & t & Ht & Hs & Hd).
  rewrite (new_events_app _ _ _ Ht). split_and!; try done.
  apply Hg. apply (bool_decide_unpack _). by vm_compute.
Qed.



(** *** The first pass *)

Lemma py_open_run c w : py_open (log_file c) w = (Ret tt, opened c w).
Proof.
  destruct w as [g smp l fo fs ms pr out tr].
  by cbv beta iota zeta delta [py_open bind emit assign set_trace opened
      set_fobj set_files set_globals trace fobj files models globals
      loader_sampler libst pred_result stdout open_file].
Qed.

(** A cell whose first epoch raises stops there. *)
Lemma train_first_epoch c w x w1 :
  1 ≤ num_epochs c →
  training_epoch c 1 (opened c w) = (Raise x, w1) →
  train c w = (Raise x, w1).
Proof.
  intros HE H1. unfold train.
  rewrite (py_range_cons 1 (num_epochs c + 1)) by lia.
  unfold bind at 1. rewrite py_open_run.
  unfold bind at 1. cbn [for_each]. unfold bind at 1. by rewrite H1.
Qed.

(** An epoch whose first step raises stops there. *)
Lemma epoch_first_step c e w x w1 :
  1 ≤ total_step c →
  training_step c e 1
    (set_globals (<["i_step" := VInt 1]> (<["epoch" := VInt e]> (globals w))) w)
    = (Raise x, w1) →
  training_epoch c e w = (Raise x, w1).
Proof.
  intros HS H1. unfold training_epoch.
  rewrite (py_range_cons 1 (total_step c + 1)) by lia.
  unfold bind at 1. unfold assign at 1.
  unfold bind at 1. cbn [for_each]. unfold bind at 1. unfold bind at 1.
  unfold assign at 1.
  destruct w as [g smp l fo fs ms pr out tr].
  cbv beta iota delta [set_globals globals loader_sampler libst fobj files
    models pred_result stdout trace] in H1 |- *.
  by rewrite H1.
Qed.

(** One pass of the loop body with [print_every = 0], when [new_sampler] is
    bound and no library call raises: the weights are updated and the line
    is written and flushed, then the test of [i_step % print_every]
    raises. *)
Lemma training_step_zero_print c e i w o w' v p :
  training_step c e i w = (o, w') →
  print_every c = 0 →
  globals w !! "new_sampler" = Some v →
  library_returns v →
  fobj w = Some (open_file p) →
  o = Raise ZeroDivisionError ∧
  ∃ loss t,
    trace w' = trace w ++ t ∧
    updates t = step_updates c (e, i, loss) ∧
    prints t = [] ∧ saves t = [] ∧
    files w' = <[p := default "" (files w !! p) +:+ log_line c (e, i, loss)]> (files w) ∧
    fobj w' = Some (open_file p) ∧
    stdout w' = stdout w ∧ models w' = models w.
Proof.
  intros H Hp0 Hg [Hb He Hd Hv Hc Hbw Hs] Hf.
  destruct w as [g smp l fo fs ms pr out tr]. simpl in Hg, Hf. subst fo.
  assert (Hl : ∀ a, <["new_saosmpler":=VSampler a]> (<["indices":=VIndices a]> g)
                    !! "new_sampler" = Some v)
    by (intros a; by rewrite !lookup_insert_ne by done).
  unfold training_step in H. run_cell H.
  destruct (get_train_indices l) as [idx l0] eqn:Hi. run_cell H.
  rewrite Hl in H. run_cell H.
  repeat next_call H.
  all: try match goal with
    | E : next_batch _ ?l = (Raise _, _) |- _ =>
      destruct (Hb l) as (? & ? & E'); congruence
    | E : encoder_forward ?x ?l = (Raise _, _) |- _ =>
      destruct (He x l) as (? & ? & E'); congruence
    | E : decoder_forward ?x ?y ?l = (Raise _, _) |- _ =>
      destruct (Hd x y l) as (? & ? & E'); congruence
    | E : view ?x ?sh = Raise _ |- _ =>
      destruct (Hv x sh) as (? & E'); congruence
    | E : criterion ?x ?y ?l = (Raise _, _) |- _ =>
      destruct (Hc x y l) as (? & ? & E'); congruence
    | E : backward ?x ?l = (Raise _, _) |- _ =>
      destruct (Hbw x l) as (? & ? & E'); congruence
    | E : optimizer_step ?l = (Raise _, _) |- _ =>
      destruct (Hs l) as (? & ? & E'); congruence
    end.
  all: try done.
  simplify_eq. split; [done|]. simpl. rewrite <- ?app_assoc. simpl.
  eexists _, _. split; [reflexivity|]. by split_and!.
Qed.


(** X6. With print_every = 0, in a kernel where [new_sampler] is bound and no
    library call raises: the first step updates the weights, writes and
    flushes its line, and the test i_step % print_every raises
    ZeroDivisionError.  The log holds that one line, nothing is printed,
    nothing is saved and the log file is left open. *)
Theorem print_every_zero_stops_after_one_step c w v :
  print_every c = 0 → 1 ≤ num_epochs c → 1 ≤ total_step c →
  globals w !! "new_sampler" = Some v → library_returns v →
  ∃ w' loss,
    train c w = (Raise ZeroDivisionError, w') ∧
    updates (new_events w w') =
      [EvBackward loss; EvOptimizerStep;
       EvWrite (stats_string c 1 1 loss +:+ LF)] ∧
    files w' !! log_file c = Some (stats_string c 1 1 loss +:+ LF) ∧
    prints (new_events w w') = [] ∧ stdout w' = stdout w ∧
    saves (new_events w w') = [] ∧ models w' = models w ∧
    fobj w' = Some (open_file (log_file c)).
Proof.
  intros Hp0 HE HS Hg Hlib.
  destruct (training_step c 1 1
    (set_globals (<["i_step" := VInt 1]>
                    (<["epoch" := VInt 1]> (globals (opened c w))))
       (opened c w))) as [o1 w1] eqn:H1.
  pose proof H1 as H1'.
  apply (training_step_zero_print _ _ _ _ _ _ v (log_file c)) in H1';
    [|done| |done|by destruct w].
  2:{ destruct w. cbn in *. by rewrite !lookup_insert_ne. }
  destruct H1' as (-> & loss & t & Ht & Hup & Hpr & Hsv & Hfs & Hf & Hout & Hm).
  apply epoch_first_step in H1; [|done].
  apply train_first_epoch in H1; [|done].
  exists w1, loss. split; [done|].
  assert (Hne : new_events w w1 = EvOpen (log_file c) :: t).
  { apply new_events_app. rewrite Ht. destruct w. cbn.
    by rewrite <- app_assoc. }
  rewrite Hne. split_and!; try done.
  rewrite Hfs. destruct w. cbn. by rewrite lookup_insert_eq, lookup_insert_eq.
Qed.


Lemma decoder_encoder_path_ne e1 e2 : decoder_path e1 ≠ encoder_path e2.
Proof.
  unfold decoder_path, encoder_path, path_join. intros H.
  apply (f_equal (λ s, String.get 9 s)) in H. by cbn in H.
Qed.

(** An epoch that returns with [epoch % save_every == 0] leaves the current
    weights in its two files. *)
Lemma epoch_saved c e w w' :
  training_epoch c e w = (Ret tt, w') →
  e `mod` save_every c = 0 →
  models w' !! decoder_path e = Some (decoder_state_dict (libst w')) ∧
  models w' !! encoder_path e = Some (encoder_state_dict (libst w')).
Proof.
  unfold training_epoch. intros H Hmod.
  unfold bind at 1 in H. unfold assign at 1 in H. unfold bind at 1 in H.
  destruct (for_each _ _ _) as [[[]|x] w1]; [|done].
  rewrite save_weights_run in H.
  destruct (decide (save_every c = 0)); [done|].
  rewrite decide_True in H by done. simplify_eq. cbn.
  rewrite lookup_insert_eq, lookup_insert_ne, lookup_insert_eq; [done|].
  intros E. by apply (decoder_encoder_path_ne e e).
Qed.

(** The file of the last epoch is written in the last pass of the loop. *)
Lemma epochs_last_saved c w w1 :
  for_each (py_range 1 (num_epochs c + 1)) (training_epoch c) w = (Ret tt, w1) →
  1 ≤ num_epochs c →
  num_epochs c `mod` save_every c = 0 →
  models w1 !! decoder_path (num_epochs c) = Some (decoder_state_dict (libst w1)) ∧
  models w1 !! encoder_path (num_epochs c) = Some (encoder_state_dict (libst w1)).
Proof.
  intros Hloop HE Hmod.
  apply (for_each_inv _
    (λ done w1, ∀ e, last done = Some e → e `mod` save_every c = 0 →
       models w1 !! decoder_path e = Some (decoder_state_dict (libst w1)) ∧
       models w1 !! encoder_path e = Some (encoder_state_dict (libst w1)))
    _ []) in Hloop; [| |done].
  - destruct Hloop as [[_ HI]|(? & ? & ? & ? & ? & _ & _ & _ & ?)]; [|done].
    assert (Hlast : last (py_range 1 (num_epochs c + 1)) = Some (num_epochs c)).
    { unfold py_range. replace (num_epochs c + 1 - 1) with (num_epochs c) by lia.
      replace (num_epochs c) with ((num_epochs c - 1) + 1) at 1 by lia.
      rewrite seqZ_app by lia. rewrite last_app.
      replace (seqZ (1 + (num_epochs c - 1)) 1) with [num_epochs c]
        by (rewrite seqZ_cons, seqZ_nil by lia; f_equal; lia).
      done. }
    exact (HI _ Hlast Hmod).
  - intros done x w2 w3 _ Hx e He. rewrite last_snoc in He. simplify_eq.
    by apply (epoch_saved c e w2).
Qed.

(** A run that returns is the loop, between open and close; close touches
    neither the models directory nor the library. *)
Lemma train_loop c w w' :
  train c w = (Ret tt, w') →
  ∃ w1, for_each (py_range 1 (num_epochs c + 1)) (training_epoch c) (opened c w)
          = (Ret tt, w1) ∧
        models w' = models w1 ∧ libst w' = libst w1.
Proof.
  unfold train. intros H.
  unfold bind at 1 in H. rewrite py_open_run in H.
  unfold bind at 1 in H.
  destruct (for_each _ _ _) as [[[]|x] w1] eqn:Hloop; [|done].
  exists w1. split; [done|].
  unfold py_close in H. destruct (fobj w1) as [fo|]; [|done].
  destruct (fo_closed fo); [by simplify_eq|].
  cbv beta iota zeta delta [bind emit] in H. simplify_eq. by cbn.
Qed.

(** X7. After a run that returns, when the last epoch is a multiple of
    save_every, the two files named after the last epoch hold the state of
    the decoder and of the encoder as training left them. *)
Theorem last_checkpoint_holds_the_final_weights c w w' :
  train c w = (Ret tt, w') →
  1 ≤ num_epochs c →
  num_epochs c `mod` save_every c = 0 →
  models w' !! decoder_path (num_epochs c) = Some (decoder_state_dict (libst w')) ∧
  models w' !! encoder_path (num_epochs c) = Some (encoder_state_dict (libst w')).
Proof.
  intros H HE Hmod.
  destruct (train_loop c w w' H) as (w1 & Hloop & -> & ->).
  by apply (epochs_last_saved c (opened c w)).
Qed.


(** X8. With save_every = 0, in a kernel where [new_sampler] is bound and no
    library call raises: the first epoch runs all its steps, logging each,
    and the test epoch % save_every then raises ZeroDivisionError.  Nothing
    was saved: the weights of total_step optimizer steps are in memory only,
    and the log file is left open. *)
Theorem save_every_zero_loses_the_first_epoch c w v :
  save_every c = 0 → print_every c ≠ 0 → 1 ≤ num_epochs c →
  globals w !! "new_sampler" = Some v → library_returns v →
  ∃ w' (ds : list (Z * Z * tensor)),
    train c w = (Raise ZeroDivisionError, w') ∧
    ds.*1 = (λ s, (1, s)) <$> py_range 1 (total_step c + 1) ∧
    writes (new_events w w') =
      (λ d, stats_string c d.1.1 d.1.2 d.2 +:+ LF) <$> ds ∧
    optimizer_steps (new_events w w') = Z.to_nat (total_step c) ∧
    saves (new_events w w') = [] ∧ models w' = models w ∧
    fobj w' = Some (open_file (log_file c)).
Proof.
  intros Hs0 Hp0 HE Hg Hlib.
  destruct (training_epoch c 1 (opened c w)) as [o1 w1] eqn:H1.
  pose proof H1 as H1'. unfold training_epoch in H1'.
  unfold bind at 1 in H1'. unfold assign at 1 in H1'. unfold bind at 1 in H1'.
  destruct (for_each _ _ _) as [o2 w2] eqn:Hloop.
  assert (Hf0 : fobj (set_globals (<["epoch":=VInt 1]> (globals (opened c w)))
                        (opened c w)) = Some (open_file (log_file c)))
    by (by destruct w).
  pose proof (epoch_steps_return _ _ (log_file c) v _ _ _ _ Hloop) as Hret.
  destruct Hret as (-> & _ & Hf2); [|done|done|done|].
  { destruct w. cbn in *. by rewrite !lookup_insert_ne. }
  rewrite save_weights_run, decide_True in H1' by done. simplify_eq.
  apply train_first_epoch in H1; [|done].
  pose proof (epoch_steps_log _ _ (log_file c) _ _ _ _ "" Hloop Hf0)
    as (done & t & Ht & Hsv & Hm & _); [by destruct w; cbn; rewrite lookup_insert_eq|].
  apply (loop_summary c (log_file c) _ (λ i, [(1, i)]) (step_ops c)) in Hloop;
    [| |done].
  2:{ intros x w0 o0 w0' Hx Hfx. unfold bind at 1 in Hx.
      unfold assign at 1 in Hx. by apply (step_summary _ _ _ (log_file c)) in Hx. }
  destruct Hloop as (ds & t' & ex & Ht' & _ & _ & _ & _ & Hup & Hex & _ & Hall).
  destruct (Hall eq_refl) as (Hds & Hops & ->).
  assert (t' = t) as -> by (rewrite Ht in Ht'; by apply app_inv_head in Ht').
  rewrite bind_singleton_fmap in Hds.
  exists w1, ds. split; [done|].
  assert (Hne : new_events w w1 = EvOpen (log_file c) :: t).
  { apply new_events_app. rewrite Ht. destruct w. cbn. by rewrite <- app_assoc. }
  rewrite Hne. split_and!; try done.
  - change (EvOpen (log_file c) :: t) with ([EvOpen (log_file c)] ++ t).
    rewrite writes_app. simpl. by apply (run_writes _ _ _ []).
  - rewrite optimizer_steps_ops, fmap_cons, filter_cons, decide_False by done.
    rewrite Hops, (length_filter_bind _ _ 1), length_py_range; [lia|].
    intros i. unfold step_ops. rewrite filter_app, length_app.
    by destruct (decide _).
Qed.



End TrainingRuns.

(** ** Cell 5: the number of steps of an epoch *)

(** The division behind total_step on the values the notebook's outputs
    record (414113 captions, batches of 128, 3236 steps), and on the edges
    of the floats. *)
Example true_divide_samples :
  true_divide 414113 128 = inr {| f_mant := 7114407167393792; f_exp := -41 |} ∧
  true_divide 1 3 = inr {| f_mant := 6004799503160661; f_exp := -54 |} ∧
  true_divide 2 3 = inr {| f_mant := 6004799503160661; f_exp := -53 |} ∧
  true_divide (-7) 2 = inr {| f_mant := -7881299347898368; f_exp := -51 |} ∧
  true_divide 1 0 = inl DivisionByZero ∧
  true_divide (10 ^ 400) 1 = inl Overflow ∧
  total_step_of 414113 128 = inr 3236.
Proof. vm_compute. by split_and!. Qed.

Example true_divide_agrees :
  forallb agree
    [(414113, 128); (1, 3); (2, 3); (-7, 2); (7, -2); (0, 5); (1, 10);
     (2 ^ 53 - 1, 3); (3, 2 ^ 53 - 1); (1, 2 ^ 52 + 1); (5, 7); (123456789, 1000);
     (9007199254740991, 9007199254740990); (1, 1); (6, 3)] = true.
Proof. vm_compute. reflexivity. Qed.

(** Past the bounds of the theorem below the float loses the remainder: one
    step too few. *)
Example total_step_beyond_the_floats :
  total_step_of (2 ^ 53 + 1) (2 ^ 53) = inr 1 ∧
  total_step_of 1 (2 ^ 1075) = inr 0.
Proof. vm_compute. by split. Qed.

Lemma round_half_even_le n d K :
  0 < d → n ≤ K * d → round_half_even n d ≤ K.
Proof.
  intros Hd Hn. unfold round_half_even.
  pose proof (Z.div_mod n d ltac:(lia)) as Hdm.
  pose proof (Z.mod_pos_bound n d Hd) as Hr.
  assert (n `div` d ≤ K) by nia.
  assert (0 < n `mod` d → n `div` d + 1 ≤ K) by nia.
  repeat case_decide; try destruct (Z.even _); lia.
Qed.

Lemma round_half_even_gt n d K :
  0 < d → (2 * K + 1) * d < 2 * n → K + 1 ≤ round_half_even n d.
Proof.
  intros Hd Hn. unfold round_half_even.
  pose proof (Z.div_mod n d ltac:(lia)) as Hdm.
  pose proof (Z.mod_pos_bound n d Hd) as Hr.
  assert (K ≤ n `div` d) by nia.
  destruct (decide (n `div` d = K)) as [Hq|Hq].
  - rewrite Hq in *. assert (d < 2 * (n `mod` d)) by nia.
    repeat case_decide; try destruct (Z.even _); lia.
  - repeat case_decide; try destruct (Z.even _); lia.
Qed.

Lemma quotient_exponent_le a b :
  0 < a → 0 < b →
  b * 2 ^ Z.max 0 (quotient_exponent a b) ≤ a * 2 ^ Z.max 0 (- quotient_exponent a b).
Proof.
  intros Ha Hb. unfold quotient_exponent. case_decide as Hab.
  - assert (0 < a `div` b) as Hq by (apply Z.div_str_pos; lia).
    pose proof (Z.log2_spec _ Hq) as [Hl _].
    pose proof (Z.log2_nonneg (a `div` b)).
    rewrite Z.max_r, Z.max_l by lia. rewrite Z.mul_1_r.
    pose proof (Z.mul_div_le a b Hb). nia.
  - set (c := (b + a - 1) `div` a).
    assert (2 ≤ c) as Hc by (apply Z.div_le_lower_bound; lia).
    pose proof (Z.log2_up_spec c ltac:(lia)) as [_ Hl].
    pose proof (Z.log2_up_pos c ltac:(lia)).
    rewrite Z.max_l, Z.max_r, Z.opp_involutive by lia. rewrite Z.mul_1_r.
    assert (b ≤ a * c); [|nia].
    pose proof (Z.div_mod (b + a - 1) a ltac:(lia)).
    pose proof (Z.mod_pos_bound (b + a - 1) a Ha). subst c. nia.
Qed.

Lemma ceil_div_bounds n d :
  0 < d → ((n + d - 1) `div` d - 1) * d < n ≤ (n + d - 1) `div` d * d.
Proof.
  intros Hd. pose proof (Z.div_mod (n + d - 1) d ltac:(lia)).
  pose proof (Z.mod_pos_bound (n + d - 1) d Hd). nia.
Qed.

Lemma neg_div_neg m P K :
  0 < P → (K - 1) * P < m ≤ K * P → - ((- m) `div` P) = K.
Proof.
  intros HP Hm. pose proof (Z.div_mod (- m) P ltac:(lia)).
  pose proof (Z.mod_pos_bound (- m) P HP). nia.
Qed.

(** X10. total_step, computed through a float, is the exact number of
    batches an epoch needs: for a dataset of fewer than 2^53 items and a
    batch size below 2^1075, the least k with k * batch_size >= len(dataset);
    no step for an empty dataset.  A batch size of 0 raises
    ZeroDivisionError, and nothing else raises. *)
Theorem total_step_is_the_ceiling (n bs : Z) :
  0 ≤ n < 2 ^ 53 → 0 ≤ bs < 2 ^ 1075 →
  match total_step_of n bs with
  | inl e => bs = 0 ∧ e = DivisionByZero
  | inr k => 0 < bs ∧ (k - 1) * bs < n ≤ k * bs
  end.
Proof.
  intros [Hn0 Hn] [Hb0 Hb]. unfold total_step_of, true_divide.
  case_decide as Hbz; [done|]. case_decide as Hnz.
  { subst n. unfold math_ceil. cbn [f_exp f_mant]. rewrite decide_True by done.
    lia. }
  rewrite !Z.abs_eq by lia.
  pose proof (quotient_exponent_le n bs ltac:(lia) ltac:(lia)) as HE.
  set (E := quotient_exponent n bs) in *.
  assert (E ≤ 52) as HE52.
  { destruct (decide (E ≤ 52)) as [|HE']; [done|exfalso].
    rewrite Z.max_r, Z.max_l, Z.mul_1_r in HE by lia.
    pose proof (Z.pow_le_mono_r 2 53 E ltac:(lia) ltac:(lia)). nia. }
  set (e := Z.max (E - 52) (-1074)).
  replace (Z.sgn n) with 1 by lia. replace (Z.sgn bs) with 1 by lia.
  destruct (decide (0 ≤ e)) as [He|He].
  - assert (E = 52) as HE' by lia. assert (e = 0) as -> by lia.
    rewrite HE', Z.max_r, Z.max_l, Z.mul_1_r in HE by lia.
    assert (bs = 1) as -> by (change (2 ^ 53) with (2 * 2 ^ 52) in Hn; nia).
    cbn [Z.opp Z.max Z.compare Z.pow Z.pow_pos Pos.iter Z.mul Pos.mul].
    rewrite !Z.mul_1_r.
    assert (round_half_even n 1 = n) as ->.
    { unfold round_half_even. rewrite Z.div_1_r, Z.mod_1_r. by case_decide. }
    case_decide as Ho.
    { exfalso. destruct Ho as [_ Ho].
      pose proof (Z.pow_lt_mono_r 2 53 1024 ltac:(lia) ltac:(lia) ltac:(lia)). lia. }
    unfold math_ceil. cbn [f_exp f_mant]. rewrite decide_True by lia.
    rewrite Z.pow_0_r. lia.
  - set (s := - e) in *. assert (1 ≤ s ≤ 1074) as Hs by lia.
    rewrite (Z.max_r 0 s), (Z.max_l 0 e), Z.pow_0_r, Z.mul_1_r by lia.
    rewrite decide_False by lia.
    unfold math_ceil. cbn [f_exp f_mant]. rewrite decide_False by lia.
    rewrite !Z.mul_1_l. fold s.
    assert (0 < 2 ^ s) as HP by (apply Z.pow_pos_nonneg; lia).
    assert (bs < 2 * 2 ^ s) as Hbs.
    { rewrite <- Z.pow_succ_r by lia.
      destruct (decide (s = 1074)) as [->|Hs']; [done|].
      assert (s = 52 - E) as -> by lia.
      destruct (decide (0 ≤ E)) as [HE0|HE0].
      - rewrite Z.max_r, Z.max_l, Z.mul_1_r in HE by lia.
        assert (2 ^ 53 = 2 ^ E * 2 ^ Z.succ (52 - E)) as Hp.
        { rewrite <- Z.pow_add_r by lia. f_equal. lia. }
        assert (0 < 2 ^ E) by (apply Z.pow_pos_nonneg; lia).
        nia.
      - rewrite Z.max_l, Z.max_r, Z.pow_0_r, Z.mul_1_r in HE by lia.
        assert (2 ^ Z.succ (52 - E) = 2 ^ 53 * 2 ^ (- E)) as ->.
        { rewrite <- Z.pow_add_r by lia. f_equal. lia. }
        assert (0 < 2 ^ (- E)) by (apply Z.pow_pos_nonneg; lia).
        nia. }
    pose proof (ceil_div_bounds n bs ltac:(lia)) as HK.
    set (K := (n + bs - 1) `div` bs) in *.
    pose proof (round_half_even_le (n * 2 ^ s) bs (K * 2 ^ s) ltac:(lia) ltac:(nia)).
    pose proof (round_half_even_gt (n * 2 ^ s) bs ((K - 1) * 2 ^ s)
                  ltac:(lia) ltac:(nia)).
    rewrite (neg_div_neg _ (2 ^ s) K); [lia|done|lia].
Qed.

(** ** Cell 12: the trained weights, loaded into new models *)

Section Reloads.
Context {F : Framework} {R : Reloading F}.

Lemma fresh_models_models c w o w' :
  fresh_models c w = (o, w') → models w' = models w.
Proof.
  intros H. destruct w as [g smp l fo fs ms pr out tr].
  unfold fresh_models in H. run_cell H.
  destruct (val_get_loader (cocoapi_dir c) l) as [[[]|?] ?]; run_cell H;
    [|by simplify_eq].
  destruct (EncoderCNN (embed_size c) _) as [[[]|?] ?]; run_cell H;
    [|by simplify_eq].
  destruct (DecoderRNN _ _ _ _) as [[[]|?] ?]; run_cell H; by simplify_eq.
Qed.

Lemma reload_paths :
  path_join "./models" encoder_file = encoder_path 3 ∧
  path_join "./models" decoder_file = decoder_path 3.
Proof. split; vm_compute; reflexivity. Qed.

Lemma load_weights_found c w esd dsd :
  models w !! encoder_path 3 = Some esd →
  models w !! decoder_path 3 = Some dsd →
  load_weights c w = install_weights c esd dsd w.
Proof.
  intros He Hd. unfold load_weights, install_weights.
  destruct reload_paths as [-> ->].
  unfold bind.
  destruct (fresh_models c w) as [[[]|x] w1] eqn:H1; [|done].
  apply fresh_models_models in H1.
  unfold torch_load at 1. rewrite H1, He. unfold try_call.
  destruct (encoder_load_state_dict esd (libst w1)) as [[[]|x] l1]; [|done].
  unfold torch_load. cbn [models set_libst]. rewrite H1, Hd. done.
Qed.

(** X11. After a run of cell 8 that returns, with num_epochs = 3 and
    save_every dividing 3, cell 12 reads back what training ended with: the
    two torch.load calls return the state dicts of the encoder and of the
    decoder as the last optimizer step left them, whatever else the first
    part of the cell did, and the cell is the one that installs these two
    state dicts in the new models. *)
Theorem trained_weights_are_loaded_back c w w1 :
  train c w = (Ret tt, w1) →
  num_epochs c = 3 →
  3 `mod` save_every c = 0 →
  (∀ w2, models w2 = models w1 →
     torch_load (path_join "./models" encoder_file) w2 =
       (Ret (encoder_state_dict (libst w1)), w2) ∧
     torch_load (path_join "./models" decoder_file) w2 =
       (Ret (decoder_state_dict (libst w1)), w2)) ∧
  load_weights c w1 =
    install_weights c (encoder_state_dict (libst w1))
      (decoder_state_dict (libst w1)) w1.
Proof.
  intros H HE Hmod.
  destruct (train_loop c w w1 H) as (w0 & Hloop & Hm0 & Hl0).
  destruct (epochs_last_saved c _ _ Hloop) as [Hd He]; [lia|by rewrite HE|].
  rewrite <- Hm0, <- Hl0, HE in Hd, He. split.
  - intros w2 Hm. destruct reload_paths as [-> ->].
    unfold torch_load. by rewrite Hm, He, Hd.
  - by apply load_weights_found.
Qed.


Lemma store_other (ps : list (string * state_dict)) q : ∀ ms,
  Forall (λ kv, kv.1 ≠ q) ps → store ps ms !! q = ms !! q.
Proof.
  induction ps as [|[k v] ps IH]; intros ms Hps; [done|].
  apply Forall_cons in Hps as [Hk Hps]. unfold store in *. simpl.
  rewrite IH by done. by rewrite lookup_insert_ne.
Qed.

Lemma checkpoints_other c eps e0 :
  Forall (λ el : Z * lib, el.1 `mod` save_every c = 0 → el.1 ≠ e0) eps →
  Forall (λ kv, kv.1 ≠ encoder_path e0) (checkpoints c eps).
Proof.
  induction eps as [|[e l] eps IH]; intros Heps; [constructor|].
  apply Forall_cons in Heps as [He Heps]. unfold checkpoints in *.
  rewrite bind_cons. apply Forall_app. split; [|by apply IH].
  simpl. destruct (decide (e `mod` save_every c = 0)) as [Hm|Hm]; [|constructor].
  repeat constructor; simpl.
  - apply decoder_encoder_path_ne.
  - intros E. apply encoder_path_inj in E. by apply He.
Qed.

Lemma load_weights_missing c w :
  models w !! encoder_path 3 = None →
  ∀ o2 w2, load_weights c w = (o2, w2) →
    (∃ x, o2 = Raise x) ∧
    ∀ w0, fresh_models c w = (Ret tt, w0) →
      o2 = Raise (LibraryError "FileNotFoundError: ./models/encoder-3.pkl") ∧
      w2 = w0.
Proof.
  intros He o2 w2 H. unfold load_weights in H.
  destruct reload_paths as [Hpe _]. rewrite Hpe in H.
  unfold bind in H.
  destruct (fresh_models c w) as [[[]|x] w1] eqn:H1.
  - pose proof (fresh_models_models _ _ _ _ H1) as Hm.
    unfold torch_load at 1 in H. rewrite Hm, He in H. simplify_eq.
    split; [by eexists|]. intros w0 ?. by simplify_eq.
  - simplify_eq. split; [by eexists|]. by intros w0 ?.
Qed.

(** X12. Cell 12 after a run of cell 8 that left no file of epoch 3: fewer
    than three epochs, save_every not dividing 3, or the NameError of a
    kernel without [new_sampler].  When no such file was there before, the
    cell raises; when its first part returns, what it raises is
    FileNotFoundError for ./models/encoder-3.pkl, before any weight is
    loaded: the new models keep their initial weights. *)
Theorem reload_fails_without_the_third_epoch c w o w1 :
  train c w = (o, w1) →
  models w !! encoder_path 3 = None →
  num_epochs c < 3 ∨ 3 `mod` save_every c ≠ 0 ∨
    (globals w !! "new_sampler" = None ∧ 1 ≤ num_epochs c ∧ 1 ≤ total_step c) →
  ∀ o2 w2, load_weights c w1 = (o2, w2) →
    (∃ x, o2 = Raise x) ∧
    ∀ w0, fresh_models c w1 = (Ret tt, w0) →
      o2 = Raise (LibraryError "FileNotFoundError: ./models/encoder-3.pkl") ∧
      w2 = w0.
Proof.
  intros H Hnone Hcase. apply load_weights_missing.
  destruct Hcase as [HE|[Hmod|(Hg & HE & HS)]].
  - apply train_summary in H.
    destruct H as (_ & eps & _ & _ & _ & _ & _ & _ & -> & _ & _ & Hpe & _).
    rewrite store_other; [done|]. apply checkpoints_other.
    apply Forall_forall. intros [e l] Hin _. simpl.
    assert (e ∈ py_range 1 (num_epochs c + 1)) as He.
    { eapply elem_of_prefix; [|exact Hpe]. apply list_elem_of_fmap.
      by exists (e, l). }
    unfold py_range in He. apply elem_of_seqZ in He. lia.
  - apply train_summary in H.
    destruct H as (_ & eps & _ & _ & _ & _ & _ & _ & -> & _).
    rewrite store_other; [done|]. apply checkpoints_other.
    apply Forall_forall. intros [e l] Hin Hm E. simpl in *. by subst.
  - rewrite (train_unbound c w Hg HE HS) in H.
    destruct (get_train_indices (libst w)) as [idx l]. by simplify_eq.
Qed.

End Reloads.

(** ** Cell 13: what the validation pass leaves alone *)

Section ValidationRuns.
Context {F : Framework}.

Lemma inference_frame_refl w : inference_frame w w.
Proof.
  unfold inference_frame. split_and!; try done.
  exists []. by rewrite app_nil_r.
Qed.

Lemma inference_frame_trans w1 w2 w3 :
  inference_frame w1 w2 → inference_frame w2 w3 → inference_frame w1 w3.
Proof.
  intros (Hf1 & Hm1 & Ho1 & Hb1 & Hl1 & Hg1 & t1 & Ht1 & Hk1)
         (Hf2 & Hm2 & Ho2 & Hb2 & Hl2 & Hg2 & t2 & Ht2 & Hk2).
  unfold inference_frame. split_and!; try congruence.
  - intros x Hx. by rewrite Hg2, Hg1.
  - exists (t1 ++ t2). rewrite Ht2, Ht1, app_assoc. split; [done|].
    by apply Forall_app.
Qed.

Lemma inference_names_ne x :
  x ∉ inference_names →
  x ≠ "pred_result" ∧ x ≠ "img_id" ∧ x ≠ "img" ∧ x ≠ "features" ∧
  x ≠ "output" ∧ x ≠ "sentence".
Proof.
  unfold inference_names. intros H.
  repeat (apply not_elem_of_cons in H as [? H]). by split_and!.
Qed.

Lemma infer_caption_frame it w o w' :
  infer_caption it w = (o, w') → inference_frame w w'.
Proof.
  intros H. destruct it as [id img].
  destruct w as [g smp l fo fs ms pr out tr].
  unfold infer_caption in H.
  cbv beta iota zeta delta [bind try_call emit assign set_trace set_libst
    set_globals set_pred_result globals loader_sampler libst fobj files
    models pred_result stdout trace] in H.
  destruct (encoder_forward (to_device img) l) as [[encoded|x] l1];
    cbv beta iota zeta in H.
  1: destruct (decoder_sample (unsqueeze encoded 1) l1) as [[output|x] l2];
    cbv beta iota zeta in H.
  all: simplify_eq; unfold inference_frame; cbn; rewrite <- ?app_assoc.
  all: split_and!; try done.
  all: try (intros x' Hx; apply inference_names_ne in Hx; destruct_and!;
            by rewrite !lookup_insert_ne).
  all: eexists; split; [reflexivity|].
  all: repeat first [apply Forall_nil_2|apply Forall_cons_2; [cbn; auto|]].
Qed.

Lemma inference_calls_silent t :
  Forall (λ e, op_of e = OpEncoder ∨ op_of e = OpSample) t →
  optimizer_steps t = 0%nat ∧ saves t = [] ∧ writes t = [].
Proof.
  unfold optimizer_steps, saves, writes.
  induction 1 as [|e t [He|He] Hk IH]; [done|..]; destruct e; done.
Qed.

(** X13. Cell 13, whether it returns or raises, only runs the models: its
    calls are encoder forward passes and decoder.sample; it takes no
    optimizer step, saves no weights, writes no log line, prints nothing,
    leaves the files, the models directory, the log file object and the
    loader's sampler as they were, and binds no name but pred_result,
    img_id, img, features, output and sentence. *)
Theorem validation_only_runs_the_models loader w o w' :
  infer_captions loader w = (o, w') →
  Forall (λ e, op_of e = OpEncoder ∨ op_of e = OpSample) (new_events w w') ∧
  optimizer_steps (new_events w w') = 0%nat ∧
  saves (new_events w w') = [] ∧
  writes (new_events w w') = [] ∧
  files w' = files w ∧ models w' = models w ∧ stdout w' = stdout w ∧
  fobj w' = fobj w ∧ loader_sampler w' = loader_sampler w ∧
  (∀ x, x ∉ ["pred_result"; "img_id"; "img"; "features"; "output"; "sentence"] →
        globals w' !! x = globals w !! x).
Proof.
  unfold infer_captions. intros H.
  unfold bind at 1 in H. unfold bind at 1 in H. unfold assign at 1 in H.
  apply (for_each_preserves _ inference_frame) in H;
    [|apply inference_frame_refl|apply inference_frame_trans
     |apply infer_caption_frame].
  destruct H as (Hf & Hm & Ho & Hb & Hl & Hg & t & Ht & Hk).
  destruct w as [g smp l fo fs ms pr out tr]. cbn in Hf, Hm, Ho, Hb, Hl, Hg, Ht.
  rewrite (new_events_app _ _ t) by done.
  split_and!; try done.
  - by apply inference_calls_silent.
  - by apply inference_calls_silent.
  - by apply inference_calls_silent.
  - intros x Hx. rewrite Hg.
    + apply lookup_insert_ne. apply inference_names_ne in Hx. by destruct_and!.
    + done.
Qed.

End ValidationRuns.

(** ** Cell 14: the reference captions, by image *)

Section ReferencesProps.
Context {P : Pythonic}.

Lemma first_seen_snoc ks k :
  first_seen (ks ++ [k]) =
  if decide (k ∈ first_seen ks) then first_seen ks else first_seen ks ++ [k].
Proof. unfold first_seen. by rewrite foldl_app. Qed.

Lemma elem_of_first_seen ks k : k ∈ first_seen ks ↔ k ∈ ks.
Proof.
  induction ks as [|k' ks IH] using rev_ind; [done|].
  rewrite first_seen_snoc, elem_of_app, list_elem_of_singleton.
  destruct (decide (k' ∈ first_seen ks)) as [Hin|Hin].
  - rewrite IH. split; [tauto|]. intros [?| ->]; [done|]. by apply IH.
  - by rewrite elem_of_app, list_elem_of_singleton, IH.
Qed.

Lemma NoDup_first_seen ks : NoDup (first_seen ks).
Proof.
  induction ks as [|k ks IH] using rev_ind; [constructor|].
  rewrite first_seen_snoc. destruct (decide _) as [Hin|Hin]; [done|].
  apply NoDup_app. split_and!; [done| |apply NoDup_singleton].
  intros x Hx Hk. apply list_elem_of_singleton in Hk as ->. done.
Qed.

Lemma captions_of_snoc k k' s pairs :
  captions_of k' (pairs ++ [(k, s)]) =
  captions_of k' pairs ++ (if decide (k = k') then [str_lower s] else []).
Proof.
  unfold captions_of. rewrite filter_app, !fmap_app. f_equal.
  rewrite filter_cons. simpl. destruct (decide (k = k')); done.
Qed.

Lemma captions_of_absent k pairs : k ∉ pairs.*1 → captions_of k pairs = [].
Proof.
  intros Hk. unfold captions_of.
  induction pairs as [|[k' s] pairs IH]; [done|].
  apply not_elem_of_cons in Hk as [Hne Hk].
  rewrite filter_cons. simpl. rewrite decide_False by done. by apply IH.
Qed.

Lemma grouped_keys pairs : (grouped pairs).*1 = first_seen pairs.*1.
Proof.
  unfold grouped.
  induction (first_seen pairs.*1) as [|k ks IH]; [done|].
  rewrite !fmap_cons. simpl. by rewrite IH.
Qed.

(** One more pair: the list of its image is found, or created, and the
    caption is appended to it. *)
Lemma grouped_snoc pairs k s :
  grouped (pairs ++ [(k, s)]) = push k (str_lower s) (touch k (grouped pairs)).
Proof.
  unfold touch. rewrite grouped_keys.
  unfold grouped at 1. rewrite fmap_app. simpl. rewrite first_seen_snoc.
  destruct (decide (k ∈ first_seen pairs.*1)) as [Hin|Hin].
  - unfold push, grouped. rewrite <- list_fmap_compose.
    apply list_fmap_ext. intros i k' _. simpl.
    rewrite captions_of_snoc.
    destruct (decide (k' = k)) as [->|Hne].
    + by rewrite decide_True.
    + rewrite decide_False by done. by rewrite app_nil_r.
  - unfold push. rewrite !fmap_app. simpl. rewrite decide_True by done.
    f_equal.
    + unfold grouped. rewrite <- list_fmap_compose.
      apply list_fmap_ext. intros i k' Hk'%list_elem_of_lookup_2. simpl.
      rewrite captions_of_snoc.
      destruct (decide (k' = k)) as [->|Hne]; [done|].
      rewrite decide_False by done. by rewrite app_nil_r.
    + rewrite captions_of_snoc, decide_True by done.
      rewrite captions_of_absent; [done|]. by rewrite <- elem_of_first_seen.
Qed.

Lemma annotation_of_Some i k s :
  annotation_of i = Some (k, s) →
  ∃ kvs id, i = JObj kvs ∧ kvs !! "image_id" = Some id ∧ py_key id = Some k ∧
            kvs !! "caption" = Some (JStr s).
Proof.
  destruct i as [| | | | | |kvs]; try done. simpl.
  destruct (kvs !! "image_id") as [id|] eqn:Hid; [|done].
  destruct (kvs !! "caption") as [[| | | |s'| |]|] eqn:Hc; try done.
  destruct (py_key id) as [k'|] eqn:Hk; [|done]. simpl. intros [= -> ->].
  by exists kvs, id.
Qed.

Lemma add_annotation_grouped i k s pairs :
  annotation_of i = Some (k, s) →
  add_annotation i (grouped pairs) = (None, grouped (pairs ++ [(k, s)])).
Proof.
  intros (kvs & id & -> & Hid & Hk & Hc)%annotation_of_Some.
  unfold add_annotation. simpl. rewrite Hid, Hk, Hc. by rewrite grouped_snoc.
Qed.

Lemma add_annotations_grouped items : ∀ pre pairs,
  annotation_of <$> items = Some <$> pairs →
  add_annotations items (grouped pre) = (None, grouped (pre ++ pairs)).
Proof.
  induction items as [|i items IH]; intros pre pairs Hp.
  - destruct pairs; [|done]. by rewrite app_nil_r.
  - destruct pairs as [|[k s] pairs]; [done|].
    rewrite !fmap_cons in Hp. injection Hp as Hi Hp.
    simpl. rewrite (add_annotation_grouped _ _ _ _ Hi).
    rewrite (IH _ _ Hp). by rewrite <- app_assoc.
Qed.


Lemma push_absent k s (d : lists) : k ∉ d.*1 → push k s d = d.
Proof.
  intros Hk. unfold push. induction d as [|[k' l] d IH]; [done|].
  apply not_elem_of_cons in Hk as [Hne Hk].
  rewrite fmap_cons. simpl. rewrite decide_False by done. by rewrite IH.
Qed.

Lemma caption_total_cons k l (d : lists) :
  caption_total ((k, l) :: d) = (length l + caption_total d)%nat.
Proof. unfold caption_total. simpl. by rewrite length_app. Qed.

Lemma caption_total_push k s (d : lists) :
  NoDup d.*1 → k ∈ d.*1 → caption_total (push k s d) = S (caption_total d).
Proof.
  induction d as [|[k' l] d IH]; intros Hnd Hk; [by apply elem_of_nil in Hk|].
  apply NoDup_cons in Hnd as [Hk' Hnd]. simpl in Hk'.
  unfold push in *. rewrite fmap_cons. simpl.
  destruct (decide (k' = k)) as [->|Hne].
  - rewrite !caption_total_cons, length_app. simpl.
    fold (push k s d). rewrite push_absent by done. lia.
  - rewrite !caption_total_cons. apply elem_of_cons in Hk as [?|Hk]; [done|].
    rewrite IH by done. lia.
Qed.

Lemma caption_total_grouped pairs : caption_total (grouped pairs) = length pairs.
Proof.
  induction pairs as [|[k s] pairs IH] using rev_ind; [done|].
  rewrite grouped_snoc, length_app. simpl.
  assert (Hnd : NoDup (grouped pairs).*1)
    by (rewrite grouped_keys; apply NoDup_first_seen).
  unfold touch. destruct (decide (k ∈ (grouped pairs).*1)) as [Hin|Hin].
  - rewrite caption_total_push by done. lia.
  - unfold push. rewrite fmap_app. simpl. rewrite decide_True by done.
    fold (push k (str_lower s) (grouped pairs)). rewrite push_absent by done.
    unfold caption_total in *. rewrite fmap_app, concat_app, length_app, IH.
    simpl. lia.
Qed.

(** X14. On a file whose "annotations" is a list of dicts, each with a
    hashable image_id and a string caption, cell 14 raises nothing and
    valid_result has one entry per distinct image_id, in the order the ids
    first occur; an entry holds the captions of its image, lower-cased, in
    file order, and is never empty; the entries hold as many captions as
    the file has annotations.  Cell 15 shows the captions of the first
    three ids of the file. *)
Theorem references_are_grouped_by_image kvs annots pairs :
  kvs !! "annotations" = Some (JArr annots) →
  annotation_of <$> annots = Some <$> pairs →
  valid_result (JObj kvs) = (None, Some (grouped pairs)) ∧
  (grouped pairs).*1 = first_seen pairs.*1 ∧
  NoDup (grouped pairs).*1 ∧
  (∀ k caps, (k, caps) ∈ grouped pairs →
     caps = str_lower <$> (filter (λ p, p.1 = k) pairs).*2 ∧ caps ≠ []) ∧
  length (concat (grouped pairs).*2) = length annots ∧
  (∀ n, first_values n (grouped pairs) =
        (λ k, str_lower <$> (filter (λ p, p.1 = k) pairs).*2) <$>
          take n (first_seen pairs.*1)).
Proof.
  intros Ha Hp. split_and!.
  - unfold valid_result. simpl. rewrite Ha. simpl.
    change (@nil (key * list string)) with (grouped []).
    by rewrite (add_annotations_grouped _ _ _ Hp).
  - apply grouped_keys.
  - rewrite grouped_keys. apply NoDup_first_seen.
  - intros k caps Hin. unfold grouped in Hin.
    apply list_elem_of_fmap in Hin as (k' & [= -> ->] & Hk').
    split; [done|]. rewrite elem_of_first_seen in Hk'.
    apply list_elem_of_fmap in Hk' as ([k0 s] & -> & Hin).
    unfold captions_of. intros Hnil.
    apply fmap_nil_inv, fmap_nil_inv in Hnil. simpl in Hnil.
    assert ((k0, s) ∈ filter (λ p : key * string, p.1 = k0) pairs) as Hf
      by (by apply list_elem_of_filter).
    rewrite Hnil in Hf. by apply elem_of_nil in Hf.
  - fold (caption_total (grouped pairs)). rewrite caption_total_grouped.
    apply (f_equal length) in Hp. by rewrite !length_fmap in Hp.
  - intros n. unfold first_values, grouped.
    rewrite <- list_fmap_compose, fmap_take. done.
Qed.





End ReferencesProps.

(** * The theorems at work on the toy framework *)

Section ToyRuns.
#[local] Existing Instance toy.

Lemma toy_trained_run : train small toy_world = (Ret tt, toy_trained).
Proof.
  unfold toy_trained. rewrite (surjective_pairing (train small toy_world)) at 1.
  apply (f_equal2 pair); [vm_compute; reflexivity|reflexivity].
Qed.

Lemma toy_captioned_run :
  infer_captions small_loader toy_world = (Ret tt, toy_captioned).
Proof.
  unfold toy_captioned.
  rewrite (surjective_pairing (infer_captions small_loader toy_world)) at 1.
  apply (f_equal2 pair); [vm_compute; reflexivity|reflexivity].
Qed.

Lemma toy_library_returns : library_returns (VSampler [5; 6]).
Proof. split; intros; try intros ?; simpl; eauto. Qed.



Lemma log_file_lifecycle_toy :
  train small toy_world = (Ret tt, toy_trained) ∧
  ∃ (done : list (Z * Z * tensor)) t,
    new_events toy_world toy_trained = EvOpen (log_file small) :: t ++ closing (Ret tt) ∧
    file_events t = log_events small done ∧
    opens (new_events toy_world toy_trained) = 1%nat ∧
    closes (new_events toy_world toy_trained) = 1%nat ∧
    (Ret tt = Ret tt → done.*1 = schedule small) ∧
    (∀ t1, t1 `prefix_of` new_events toy_world toy_trained →
           (length (unflushed t1) ≤ 1)%nat) ∧
    unflushed (new_events toy_world toy_trained) = [] ∧
    fobj toy_trained = Some {| fo_path := log_file small; fo_buffer := "";
                               fo_closed := true |}.
Proof.
  split; [exact toy_trained_run|].
  apply (log_file_lifecycle small toy_world (Ret tt) toy_trained).
  exact toy_trained_run.
Defined.


Lemma name_error_on_first_step_toy :
  globals toy_fresh !! "new_sampler" = None ∧
  1 ≤ num_epochs hyperparameters ∧ 1 ≤ total_step hyperparameters ∧
  notebook_globals hyperparameters !! "new_sampler" = None ∧
  ∃ w', train hyperparameters toy_fresh = (Raise (NameError "new_sampler"), w') ∧
    globals w' !! "new_saosmpler" = Some (VSampler [0; 1]) ∧
    globals w' !! "new_sampler" = None ∧
    new_events toy_fresh w' =
      [EvOpen (log_file hyperparameters); EvGetIndices [0; 1]] ∧
    batches (new_events toy_fresh w') = 0%nat ∧
    writes (new_events toy_fresh w') = [] ∧
    optimizer_steps (new_events toy_fresh w') = 0%nat ∧
    saves (new_events toy_fresh w') = [] ∧
    files w' = <[log_file hyperparameters := ""]> (files toy_fresh) ∧
    fobj w' = Some (open_file (log_file hyperparameters)) ∧
    models w' = models toy_fresh.
Proof.
  assert (Hn : globals toy_fresh !! "new_sampler" = None)
    by (vm_compute; reflexivity).
  assert (HE : 1 ≤ num_epochs hyperparameters) by (simpl; lia).
  assert (HS : 1 ≤ total_step hyperparameters) by (simpl; lia).
  split_and!; [exact Hn|exact HE|exact HS|..];
    apply (name_error_on_first_step hyperparameters toy_fresh Hn HE HS).
Defined.

Lemma one_caption_per_validation_pair_toy :
  infer_captions small_loader toy_world = (Ret tt, toy_captioned) ∧
  map_to_list (pred_result toy_captioned) =
    [(2, ["w7"]); (1, ["w5 w4"; "w9 w8"])] ∧
  ∃ (caps : list captioned) (failed : list (tensor * tensor))
    (extra : list tensor),
    (c_pair <$> caps) ++ failed `prefix_of` small_loader ∧
    (length extra ≤ length failed ≤ 1)%nat ∧
    (Ret tt = Ret tt → failed = [] ∧ c_pair <$> caps = small_loader) ∧
    ((∀ x, returns (encoder_forward x)) → (∀ x, returns (decoder_sample x)) →
     Ret tt = Ret tt) ∧
    Forall produced caps ∧
    encoder_calls (new_events toy_world toy_captioned) =
      (λ it, to_device it.2) <$> ((c_pair <$> caps) ++ failed) ∧
    sample_calls (new_events toy_world toy_captioned) = (c_features <$> caps) ++ extra ∧
    pred_result toy_captioned = collect caps ∅ ∧
    (∀ k, default [] (pred_result toy_captioned !! k) =
          c_sentence <$> filter (λ r, item_int (c_id r) = k) caps) ∧
    caption_count (pred_result toy_captioned) = length caps.
Proof.
  split; [exact toy_captioned_run|]. split; [vm_compute; reflexivity|].
  apply (one_caption_per_validation_pair small_loader toy_world (Ret tt) toy_captioned).
  exact toy_captioned_run.
Defined.

(** ** Cell 8 on the toy framework: calls, console, edge cases *)

Lemma calls_follow_the_cell_toy :
  train small toy_world = (Ret tt, toy_trained) ∧
  op_of <$> new_events toy_world toy_trained `prefix_of` cell_ops small ∧
  (Ret tt = Ret tt ↔ op_of <$> new_events toy_world toy_trained = cell_ops small) ∧
  (Ret tt = Ret tt →
   batches (new_events toy_world toy_trained) =
     (Z.to_nat (num_epochs small) * Z.to_nat (total_step small))%nat ∧
   optimizer_steps (new_events toy_world toy_trained) =
     (Z.to_nat (num_epochs small) * Z.to_nat (total_step small))%nat).
Proof.
  split; [exact toy_trained_run|].
  apply (calls_follow_the_cell small toy_world (Ret tt) toy_trained).
  exact toy_trained_run.
Defined.

Lemma console_shows_every_print_every_th_step_toy :
  train small toy_world = (Ret tt, toy_trained) ∧
  stdout toy_trained =
    [CR +:+ "Epoch [1/2], Step [2/2], Loss: 4.0000, Perplexity: 16.0000";
     CR +:+ "Epoch [2/2], Step [2/2], Loss: 4.0000, Perplexity: 16.0000"] ∧
  ∃ ds : list (Z * Z * tensor),
    ds.*1 `prefix_of` schedule small ∧
    writes (new_events toy_world toy_trained) =
      (λ d, stats_string small d.1.1 d.1.2 d.2 +:+ LF) <$> ds ∧
    prints (new_events toy_world toy_trained) =
      (λ d, CR +:+ stats_string small d.1.1 d.1.2 d.2) <$>
        filter (λ d, print_every small ≠ 0 ∧ d.1.2 `mod` print_every small = 0) ds ∧
    stdout toy_trained = stdout toy_world ++ prints (new_events toy_world toy_trained) ∧
    (Ret tt = Ret tt →
     ds.*1 = schedule small ∧
     length (prints (new_events toy_world toy_trained)) =
       (Z.to_nat (num_epochs small) *
        Z.to_nat (total_step small `div` Z.abs (print_every small)))%nat).
Proof.
  split; [exact toy_trained_run|]. split; [vm_compute; reflexivity|].
  apply (console_shows_every_print_every_th_step small toy_world (Ret tt) toy_trained).
  exact toy_trained_run.
Defined.

Lemma every_logged_loss_was_backpropagated_toy :
  train small toy_world = (Ret tt, toy_trained) ∧
  ∃ (ds : list (Z * Z * tensor)) extra,
    updates (new_events toy_world toy_trained) =
      (ds ≫= λ d, [EvBackward d.2; EvOptimizerStep;
                   EvWrite (stats_string small d.1.1 d.1.2 d.2 +:+ LF)]) ++ extra ∧
    (extra = [] ∨
     ∃ loss, extra = [EvBackward loss] ∨ extra = [EvBackward loss; EvOptimizerStep]) ∧
    ds.*1 `prefix_of` schedule small ∧
    (Ret tt = Ret tt → ds.*1 = schedule small ∧ extra = []) ∧
    (length (writes (new_events toy_world toy_trained))
       ≤ optimizer_steps (new_events toy_world toy_trained)
       ≤ length (writes (new_events toy_world toy_trained)) + 1)%nat.
Proof.
  split; [exact toy_trained_run|].
  apply (every_logged_loss_was_backpropagated small toy_world (Ret tt) toy_trained).
  exact toy_trained_run.
Defined.

Lemma batches_are_fetched_under_the_old_sampler_toy :
  train small toy_world = (Ret tt, toy_trained) ∧
  samplers (new_events toy_world toy_trained) =
    [VSampler [5; 6]; VSampler [5; 6]; VSampler [5; 6]; VSampler [5; 6];
     VSampler [5; 6]; VSampler [5; 6]; VSampler [5; 6]; VSampler [5; 6]] ∧
  drawn (new_events toy_world toy_trained) = [[0; 1]; [1; 2]; [2; 3]; [3; 4]] ∧
  Forall (λ v, globals toy_world !! "new_sampler" = Some v)
    (samplers (new_events toy_world toy_trained)) ∧
  globals toy_trained !! "new_sampler" = globals toy_world !! "new_sampler" ∧
  (loader_sampler toy_trained = loader_sampler toy_world ∨
   globals toy_world !! "new_sampler" = Some (loader_sampler toy_trained)) ∧
  match last (drawn (new_events toy_world toy_trained)) with
  | Some idx => globals toy_trained !! "new_saosmpler" = Some (VSampler idx)
  | None => globals toy_trained !! "new_saosmpler" = globals toy_world !! "new_saosmpler"
  end.
Proof.
  split; [exact toy_trained_run|]. split; [vm_compute; reflexivity|].
  split; [vm_compute; reflexivity|].
  apply (batches_are_fetched_under_the_old_sampler small toy_world (Ret tt) toy_trained).
  exact toy_trained_run.
Defined.


Lemma print_every_zero_stops_after_one_step_toy :
  print_every small_print_never = 0 ∧
  1 ≤ num_epochs small_print_never ∧ 1 ≤ total_step small_print_never ∧
  globals toy_print_never !! "new_sampler" = Some (VSampler [5; 6]) ∧
  library_returns (VSampler [5; 6]) ∧
  ∃ w' loss,
    train small_print_never toy_print_never = (Raise ZeroDivisionError, w') ∧
    updates (new_events toy_print_never w') =
      [EvBackward loss; EvOptimizerStep;
       EvWrite (stats_string small_print_never 1 1 loss +:+ LF)] ∧
    files w' !! log_file small_print_never =
      Some (stats_string small_print_never 1 1 loss +:+ LF) ∧
    prints (new_events toy_print_never w') = [] ∧
    stdout w' = stdout toy_print_never ∧
    saves (new_events toy_print_never w') = [] ∧
    models w' = models toy_print_never ∧
    fobj w' = Some (open_file (log_file small_print_never)).
Proof.
  assert (H0 : print_every small_print_never = 0) by reflexivity.
  assert (HE : 1 ≤ num_epochs small_print_never) by (simpl; lia).
  assert (HS : 1 ≤ total_step small_print_never) by (simpl; lia).
  assert (Hg : globals toy_print_never !! "new_sampler" = Some (VSampler [5; 6]))
    by (vm_compute; reflexivity).
  split_and!; [exact H0|exact HE|exact HS|exact Hg|exact toy_library_returns|].
  exact (print_every_zero_stops_after_one_step small_print_never toy_print_never
           (VSampler [5; 6]) H0 HE HS Hg toy_library_returns).
Defined.

Lemma last_checkpoint_holds_the_final_weights_toy :
  train small toy_world = (Ret tt, toy_trained) ∧
  1 ≤ num_epochs small ∧
  num_epochs small `mod` save_every small = 0 ∧
  models toy_trained !! decoder_path (num_epochs small) =
    Some (decoder_state_dict (libst toy_trained)) ∧
  models toy_trained !! encoder_path (num_epochs small) =
    Some (encoder_state_dict (libst toy_trained)).
Proof.
  assert (HE : 1 ≤ num_epochs small) by (simpl; lia).
  assert (Hm : num_epochs small `mod` save_every small = 0) by reflexivity.
  split_and!; [exact toy_trained_run|exact HE|exact Hm|..];
    apply (last_checkpoint_holds_the_final_weights small toy_world toy_trained
             toy_trained_run HE Hm).
Defined.

Lemma save_every_zero_loses_the_first_epoch_toy :
  save_every small_save_never = 0 ∧ print_every small_save_never ≠ 0 ∧
  1 ≤ num_epochs small_save_never ∧
  globals toy_save_never !! "new_sampler" = Some (VSampler [5; 6]) ∧
  library_returns (VSampler [5; 6]) ∧
  ∃ w' (ds : list (Z * Z * tensor)),
    train small_save_never toy_save_never = (Raise ZeroDivisionError, w') ∧
    ds.*1 = (λ s, (1, s)) <$> py_range 1 (total_step small_save_never + 1) ∧
    writes (new_events toy_save_never w') =
      (λ d, stats_string small_save_never d.1.1 d.1.2 d.2 +:+ LF) <$> ds ∧
    optimizer_steps (new_events toy_save_never w') =
      Z.to_nat (total_step small_save_never) ∧
    saves (new_events toy_save_never w') = [] ∧
    models w' = models toy_save_never ∧
    fobj w' = Some (open_file (log_file small_save_never)).
Proof.
  assert (H0 : save_every small_save_never = 0) by reflexivity.
  assert (Hp : print_every small_save_never ≠ 0) by (simpl; lia).
  assert (HE : 1 ≤ num_epochs small_save_never) by (simpl; lia).
  assert (Hg : globals toy_save_never !! "new_sampler" = Some (VSampler [5; 6]))
    by (vm_compute; reflexivity).
  split_and!; [exact H0|exact Hp|exact HE|exact Hg|exact toy_library_returns|].
  exact (save_every_zero_loses_the_first_epoch small_save_never toy_save_never
           (VSampler [5; 6]) H0 Hp HE Hg toy_library_returns).
Defined.


End ToyRuns.

(** ** Cells 5, 12, 13 and 14 on small inputs *)

Section ToyCells.
#[local] Existing Instance toy.
#[local] Existing Instance toy_reloading.
#[local] Existing Instance toy_python.

Lemma total_step_is_the_ceiling_coco :
  0 ≤ 414113 < 2 ^ 53 ∧ 0 ≤ 128 < 2 ^ 1075 ∧
  total_step_of 414113 128 = inr 3236 ∧
  match total_step_of 414113 128 with
  | inl e => 128 = 0 ∧ e = DivisionByZero
  | inr k => 0 < 128 ∧ (k - 1) * 128 < 414113 ≤ k * 128
  end.
Proof.
  assert (Hn : 0 ≤ 414113 < 2 ^ 53) by (split; [done|reflexivity]).
  assert (Hb : 0 ≤ 128 < 2 ^ 1075) by (split; [done|reflexivity]).
  split; [exact Hn|]. split; [exact Hb|]. split; [vm_compute; reflexivity|].
  exact (total_step_is_the_ceiling 414113 128 Hn Hb).
Defined.

Lemma toy_three_run : train three_epochs toy_three = (Ret tt, toy_three_trained).
Proof.
  unfold toy_three_trained.
  rewrite (surjective_pairing (train three_epochs toy_three)) at 1.
  apply (f_equal2 pair); [vm_compute; reflexivity|reflexivity].
Qed.

Lemma trained_weights_are_loaded_back_toy :
  train three_epochs toy_three = (Ret tt, toy_three_trained) ∧
  num_epochs three_epochs = 3 ∧
  3 `mod` save_every three_epochs = 0 ∧
  encoder_state_dict (libst toy_three_trained) = 1003%nat ∧
  decoder_state_dict (libst toy_three_trained) = 3%nat ∧
  (∀ w2, models w2 = models toy_three_trained →
     torch_load (path_join "./models" encoder_file) w2 =
       (Ret (encoder_state_dict (libst toy_three_trained)), w2) ∧
     torch_load (path_join "./models" decoder_file) w2 =
       (Ret (decoder_state_dict (libst toy_three_trained)), w2)) ∧
  load_weights three_epochs toy_three_trained =
    install_weights three_epochs (encoder_state_dict (libst toy_three_trained))
      (decoder_state_dict (libst toy_three_trained)) toy_three_trained.
Proof.
  assert (HE : num_epochs three_epochs = 3) by reflexivity.
  assert (Hm : 3 `mod` save_every three_epochs = 0) by reflexivity.
  split_and!; [exact toy_three_run|exact HE|exact Hm
              |vm_compute; reflexivity|vm_compute; reflexivity|..];
    apply (trained_weights_are_loaded_back three_epochs toy_three
             toy_three_trained toy_three_run HE Hm).
Defined.

Lemma reload_fails_without_the_third_epoch_toy :
  train small toy_world = (Ret tt, toy_trained) ∧
  models toy_world !! encoder_path 3 = None ∧
  (num_epochs small < 3 ∨ 3 `mod` save_every small ≠ 0 ∨
   (globals toy_world !! "new_sampler" = None ∧
    1 ≤ num_epochs small ∧ 1 ≤ total_step small)) ∧
  ∀ o2 w2, load_weights small toy_trained = (o2, w2) →
    (∃ x, o2 = Raise x) ∧
    ∀ w0, fresh_models small toy_trained = (Ret tt, w0) →
      o2 = Raise (LibraryError "FileNotFoundError: ./models/encoder-3.pkl") ∧
      w2 = w0.
Proof.
  assert (Hn : models toy_world !! encoder_path 3 = None) by reflexivity.
  assert (Hc : num_epochs small < 3 ∨ 3 `mod` save_every small ≠ 0 ∨
               (globals toy_world !! "new_sampler" = None ∧
                1 ≤ num_epochs small ∧ 1 ≤ total_step small))
    by (left; simpl; lia).
  split_and!; [exact toy_trained_run|exact Hn|exact Hc|].
  exact (reload_fails_without_the_third_epoch small toy_world (Ret tt)
           toy_trained toy_trained_run Hn Hc).
Defined.

Lemma validation_only_runs_the_models_toy :
  infer_captions small_loader toy_world = (Ret tt, toy_captioned) ∧
  Forall (λ e, op_of e = OpEncoder ∨ op_of e = OpSample)
    (new_events toy_world toy_captioned) ∧
  optimizer_steps (new_events toy_world toy_captioned) = 0%nat ∧
  saves (new_events toy_world toy_captioned) = [] ∧
  writes (new_events toy_world toy_captioned) = [] ∧
  files toy_captioned = files toy_world ∧
  models toy_captioned = models toy_world ∧
  stdout toy_captioned = stdout toy_world ∧
  fobj toy_captioned = fobj toy_world ∧
  loader_sampler toy_captioned = loader_sampler toy_world ∧
  (∀ x, x ∉ ["pred_result"; "img_id"; "img"; "features"; "output"; "sentence"] →
        globals toy_captioned !! x = globals toy_world !! x).
Proof.
  split; [exact toy_captioned_run|].
  exact (validation_only_runs_the_models small_loader toy_world (Ret tt)
           toy_captioned toy_captioned_run).
Defined.

Lemma references_are_grouped_by_image_toy :
  small_captions !! "annotations" = Some (JArr small_annotations) ∧
  annotation_of <$> small_annotations = Some <$> small_pairs ∧
  grouped small_pairs =
    [(KNum 7, ["a dog"; "dog runs"]); (KNum 3, ["a cat"])] ∧
  valid_result (JObj small_captions) = (None, Some (grouped small_pairs)) ∧
  (grouped small_pairs).*1 = first_seen small_pairs.*1 ∧
  NoDup (grouped small_pairs).*1 ∧
  (∀ k caps, (k, caps) ∈ grouped small_pairs →
     caps = str_lower <$> (filter (λ p, p.1 = k) small_pairs).*2 ∧ caps ≠ []) ∧
  length (concat (grouped small_pairs).*2) = length small_annotations ∧
  (∀ n, first_values n (grouped small_pairs) =
        (λ k, str_lower <$> (filter (λ p, p.1 = k) small_pairs).*2) <$>
          take n (first_seen small_pairs.*1)).
Proof.
  assert (Ha : small_captions !! "annotations" = Some (JArr small_annotations))
    by (reflexivity).
  assert (Hp : annotation_of <$> small_annotations = Some <$> small_pairs)
    by (reflexivity).
  split_and!; [exact Ha|exact Hp|reflexivity|..];
    apply (references_are_grouped_by_image small_captions small_annotations
             small_pairs Ha Hp).
Defined.


End ToyCells.
